(** * NetAlly discovery parser: a shallow embedding and its properties

    The development embeds [network_discovery_parser.py] (version 2.0.1) and
    the older script [netally-network-discovery-parser.py].

    - JSON values are the values [json.load] builds.  A [str] is kept as
      the bytes of its UTF-8 text; a lone surrogate, which [json.load] builds
      from an escape such as [\ud800] and which UTF-8 cannot hold, is kept
      in its three-byte form.
    - Standard output encodes as UTF-8 with the strict error handler, as
      under a UTF-8 locale: writing a text that holds a surrogate raises
      [UnicodeEncodeError].  Standard error replaces what it cannot encode.
    - Printing, logging, exceptions and the pending interrupt signal are
      threaded through a state-and-exception monad [M].  The trace keeps
      the records of the root logger and the handlers added to it, from
      which what a console handler writes to standard output is read off.
    - The two library parsers the scripts call ([ipaddress.IPv4Address] of
      CPython 3.9.5 and later, and the C library's [inet_aton] behind
      [socket.inet_aton]) are transcribed from their reference
      implementations. *)

From Stdlib Require Import ZArith List String Ascii Bool Lia Permutation.
From Stdlib Require Import SpecFloat.
Import ListNotations.

Local Open Scope string_scope.
Local Open Scope Z_scope.

#[local] Set Warnings "-register-all".

(** ** JSON values *)

(** What [json.load] returns: [None], [bool], [int], [float], [str], [list]
    and [dict] (insertion-ordered, keyed by strings). *)
Inductive json : Type :=
| JNull
| JBool (b : bool)
| JInt (n : Z)
| JFloat (f : spec_float)
| JStr (s : string)
| JList (l : list json)
| JDict (d : list (string * json)).

Definition dict := list (string * json).

Fixpoint lookup (key : string) (d : dict) : option json :=
  match d with
  | [] => None
  | (k, v) :: rest => if String.eqb k key then Some v else lookup key rest
  end.

(** [type(v).__name__], as it appears in Python's error messages. *)
Definition type_name (v : json) : string :=
  match v with
  | JNull => "NoneType"
  | JBool _ => "bool"
  | JInt _ => "int"
  | JFloat _ => "float"
  | JStr _ => "str"
  | JList _ => "list"
  | JDict _ => "dict"
  end.

(** Python truth value of a JSON value ([if v:]). *)
Definition truthy (v : json) : bool :=
  match v with
  | JNull => false
  | JBool b => b
  | JInt n => negb (n =? 0)
  | JFloat (S754_zero _) => false
  | JFloat _ => true
  | JStr s => negb (String.eqb s "")
  | JList l => match l with [] => false | _ => true end
  | JDict d => match d with [] => false | _ => true end
  end.

(** ** Exceptions *)

Inductive exn : Type :=
| SystemExit (code : Z)
| KeyboardInterrupt
| NameError (name : string)
| UnboundLocalError (name : string)
| AttributeError (ty attr : string)
| TypeError (ty : string)
| KeyError (key : string)
| OSError (msg : string)
| JSONDecodeError (msg : string)
| UnicodeDecodeError (msg : string)
| UnicodeEncodeError
| AddressValueError
| ValueError (msg : string).

(** [isinstance(e, Exception)]: everything but the two [BaseException]s. *)
Definition is_Exception (e : exn) : bool :=
  match e with
  | SystemExit _ | KeyboardInterrupt => false
  | _ => true
  end.

(** [isinstance(e, ValueError)]. *)
Definition is_ValueError (e : exn) : bool :=
  match e with
  | JSONDecodeError _ | UnicodeDecodeError _ | UnicodeEncodeError
  | AddressValueError | ValueError _ => true
  | _ => false
  end.

(** [isinstance(e, IOError)]; [IOError] is an alias of [OSError]. *)
Definition is_IOError (e : exn) : bool :=
  match e with
  | OSError _ => true
  | _ => false
  end.

Inductive result (A : Type) : Type :=
| Ok (a : A)
| Raise (e : exn).
Arguments Ok {A} a.
Arguments Raise {A} e.

(** ** Observable events *)

(** A formatted text is kept as its pieces: literal text and the values
    interpolated into it ([str(v)], [str(err)], [str(path)]). *)
Inductive piece : Type :=
| Lit (s : string)
| Str (v : json)
| StrExn (e : exn)
| StrPath (p : string).

Definition text := list piece.

(** *** What standard output can encode *)

(** The bytes [ED A0..BF xx]: a code point from U+D800 to U+DFFF. *)
Fixpoint has_surrogate (s : string) : bool :=
  match s with
  | EmptyString => false
  | String a rest =>
      match rest with
      | String b _ =>
          (N.eqb (N_of_ascii a) 237
           && N.leb 160 (N_of_ascii b) && N.leb (N_of_ascii b) 191)%bool
          || has_surrogate rest
      | EmptyString => false
      end
  end.

(** Whether the text of a piece encodes as UTF-8.  [str(v)] is the string
    itself for a [str]; for the other JSON values it is digits, a keyword,
    or a [repr], which escapes surrogates.  The messages of the exceptions
    met here are ASCII: a file name or a key enters them through [repr]. *)
Definition encodable_piece (p : piece) : bool :=
  match p with
  | Lit s => negb (has_surrogate s)
  | Str (JStr s) => negb (has_surrogate s)
  | Str _ => true
  | StrExn _ => true
  | StrPath path => negb (has_surrogate path)
  end.

Definition encodable (line : text) : bool := forallb encodable_piece line.

(** The pieces written before the first one that cannot be encoded. *)
Fixpoint written_before (line : text) : text :=
  match line with
  | [] => []
  | p :: rest => if encodable_piece p then p :: written_before rest else []
  end.

Inductive level : Type := DEBUG | INFO | WARNING | ERROR.

Definition level_rank (l : level) : Z :=
  match l with DEBUG => 10 | INFO => 20 | WARNING => 30 | ERROR => 40 end.

(** The handlers [setup_logging] adds to the root logger, each with the
    level it is given. *)
Inductive handler : Type :=
| StreamStdout (lvl : level)
| RotatingFile (path : string) (lvl : level).

(** What a run does that can be observed: a line [print] writes to
    standard output, the start of a line whose rest could not be encoded, a
    line on standard error, a record the root logger keeps and hands to its
    handlers, and a handler added to the root logger. *)
Inductive event : Type :=
| EPrint (line : text)
| EWrite (pieces : text)
| EStderr (line : text)
| ELog (lvl : level) (msg : text)
| EHandler (h : handler).

(** ** The monad: trace, logger threshold, pending interrupt *)

Record state : Type := mkState {
  trace : list event;
  threshold : level;
  sigint : option nat
}.

Definition M (A : Type) : Type := state -> result A * state.

Definition ret {A} (a : A) : M A := fun s => (Ok a, s).

Definition bind {A B} (m : M A) (k : A -> M B) : M B :=
  fun s => match m s with
           | (Ok a, s') => k a s'
           | (Raise e, s') => (Raise e, s')
           end.

Definition raise {A} (e : exn) : M A := fun s => (Raise e, s).

Definition lift {A} (r : result A) : M A := fun s => (r, s).

Notation "x <- m ;; k" := (bind m (fun x => k))
  (at level 61, m at next level, right associativity).
Notation "m ;;; k" := (bind m (fun _ => k))
  (at level 61, right associativity).

(** [try: body except <class>: handler]. *)
Definition try_except {A} (body : M A) (catches : exn -> bool) (handler : exn -> M A) : M A :=
  fun s => match body s with
           | (Ok a, s') => (Ok a, s')
           | (Raise e, s') => if catches e then handler e s' else (Raise e, s')
           end.

(** A point at which a pending SIGINT is delivered as [KeyboardInterrupt]:
    [sigint = Some k] means the signal arrives at the [k]-th such point
    from now. *)
Definition tick : M unit :=
  fun s => match sigint s with
           | None => (Ok tt, s)
           | Some O => (Raise KeyboardInterrupt, mkState (trace s) (threshold s) None)
           | Some (S k) => (Ok tt, mkState (trace s) (threshold s) (Some k))
           end.

Definition emit (e : event) : M unit :=
  fun s => (Ok tt, mkState (trace s ++ [e]) (threshold s) (sigint s)).

(** [print(f"...")] with one argument: the line is encoded and written as a
    whole, or not at all. *)
Definition print (line : text) : M unit :=
  tick ;;;
  if encodable line then emit (EPrint line) else raise UnicodeEncodeError.

(** [print(a, b)]: the arguments and the blank between them are written one
    after the other, so what precedes an argument that cannot be encoded is
    already written when [UnicodeEncodeError] is raised. *)
Definition print_args (line : text) : M unit :=
  tick ;;;
  if encodable line then emit (EPrint line)
  else emit (EWrite (written_before line)) ;;; raise UnicodeEncodeError.

Definition eprint (line : text) : M unit := tick ;;; emit (EStderr line).

(** [logging.<lvl>(msg, ...)] on the root logger: the record is kept when
    its level reaches the logger's threshold. *)
Definition log (lvl : level) (msg : text) : M unit :=
  tick ;;;
  fun s => if level_rank (threshold s) <=? level_rank lvl
           then emit (ELog lvl msg) s
           else (Ok tt, s).

Definition set_threshold (l : level) : M unit :=
  fun s => (Ok tt, mkState (trace s) l (sigint s)).

Definition sys_exit {A} (code : Z) : M A := raise (SystemExit code).

(** ** Python object protocol on JSON values *)

(** [obj.get(key, default)]: only a [dict] has the method. *)
Definition py_get (obj : json) (key : string) (default : json) : result json :=
  match obj with
  | JDict d => Ok (match lookup key d with Some v => v | None => default end)
  | _ => Raise (AttributeError (type_name obj) "get")
  end.

(** ** Strings *)

Definition is_digit (c : ascii) : bool :=
  let n := Z.of_N (N_of_ascii c) in (48 <=? n) && (n <=? 57).

Definition digit_value (c : ascii) : Z := Z.of_N (N_of_ascii c) - 48.

Fixpoint all_digits (s : string) : bool :=
  match s with
  | EmptyString => true
  | String c rest => is_digit c && all_digits rest
  end.

(** [int(s, 10)] for a string of ASCII digits. *)
Fixpoint int_of_digits (s : string) (acc : Z) : Z :=
  match s with
  | EmptyString => acc
  | String c rest => int_of_digits rest (10 * acc + digit_value c)
  end.

(** [s.split(sep)] for a one-character separator. *)
Fixpoint split (sep : ascii) (s : string) : list string :=
  match s with
  | EmptyString => [EmptyString]
  | String c rest =>
      if Ascii.eqb c sep then EmptyString :: split sep rest
      else match split sep rest with
           | [] => [String c EmptyString]
           | p :: ps => String c p :: ps
           end
  end.

(** [sep.join(l)]. *)
Fixpoint join (sep : ascii) (l : list string) : string :=
  match l with
  | [] => ""
  | [x] => x
  | x :: rest => x ++ String sep (join sep rest)
  end.

Fixpoint contains_char (c : ascii) (s : string) : bool :=
  match s with
  | EmptyString => false
  | String c' rest => Ascii.eqb c' c || contains_char c rest
  end.

(** [needle in haystack] on two strings. *)
Fixpoint substring_of (needle haystack : string) : bool :=
  String.prefix needle haystack ||
  match haystack with
  | EmptyString => false
  | String _ rest => substring_of needle rest
  end.

(** ** [ipaddress.IPv4Address] *)

Module ipaddress.

(** [IPv4Address._parse_octet]. *)
Definition _parse_octet (octet_str : string) : result Z :=
  if String.eqb octet_str "" then Raise (ValueError "Empty octet not permitted")
  else if negb (all_digits octet_str)
       then Raise (ValueError "Only decimal digits permitted")
  else if 3 <? Z.of_nat (String.length octet_str)
       then Raise (ValueError "At most 3 characters permitted")
  else if negb (String.eqb octet_str "0") && String.prefix "0" octet_str
       then Raise (ValueError "Leading zeros are not permitted")
  else let octet_int := int_of_digits octet_str 0 in
       if 255 <? octet_int then Raise (ValueError "Octet (> 255) not permitted")
       else Ok octet_int.

(** [map(cls._parse_octet, octets)], stopping at the first exception. *)
Fixpoint parse_octets (octets : list string) : result (list Z) :=
  match octets with
  | [] => Ok []
  | o :: rest =>
      match _parse_octet o with
      | Raise e => Raise e
      | Ok n => match parse_octets rest with
                | Raise e => Raise e
                | Ok ns => Ok (n :: ns)
                end
      end
  end.

(** [int.from_bytes(bytes, 'big')]. *)
Definition from_bytes_big (bs : list Z) : Z :=
  fold_left (fun acc b => 256 * acc + b) bs 0.

(** [IPv4Address._ip_int_from_string]. *)
Definition _ip_int_from_string (ip_str : string) : result Z :=
  if String.eqb ip_str "" then Raise AddressValueError
  else let octets := split "." ip_str in
       if negb (Nat.eqb (List.length octets) 4) then Raise AddressValueError
       else match parse_octets octets with
            | Ok bs => Ok (from_bytes_big bs)
            | Raise e => if is_ValueError e then Raise AddressValueError else Raise e
            end.

Definition _ALL_ONES : Z := 2 ^ 32 - 1.

(** [_check_int_address]. *)
Definition _check_int_address (address : Z) : result Z :=
  if address <? 0 then Raise AddressValueError
  else if _ALL_ONES <? address then Raise AddressValueError
  else Ok address.

(** [IPv4Address.__init__], returning the address as an integer.  An [int]
    (and so a [bool]) is taken as the address itself; anything else goes
    through [str(address)].  For [None] that text is ["None"], for a
    [float] it holds at most one dot, and for a [list] or a [dict] it starts
    with a bracket or a brace: never four digit-only octets, so the
    constructor raises [AddressValueError]. *)
Definition IPv4Address (address : json) : result Z :=
  match address with
  | JInt n => _check_int_address n
  | JBool b => _check_int_address (if b then 1 else 0)
  | JStr addr_str =>
      if contains_char "/" addr_str then Raise AddressValueError
      else _ip_int_from_string addr_str
  | JNull | JFloat _ | JList _ | JDict _ => Raise AddressValueError
  end.

End ipaddress.

(** ** [network_discovery_parser.count_valid_ips] *)

(** One turn of the loop body, from the running count to the next one. *)
Definition count_valid_ips_step (host : json) (ip_count : Z) : M Z :=
  host_data <- lift (py_get host "host" (JDict [])) ;;
  ip_v4_address <- lift (py_get host_data "ip_v4_address" JNull) ;;
  if truthy ip_v4_address then
    try_except
      (_ <- lift (ipaddress.IPv4Address ip_v4_address) ;;
       log DEBUG [Lit "Valid IPv4 address: "; Str ip_v4_address] ;;;
       ret (ip_count + 1))
      is_ValueError
      (fun _ => log WARNING [Lit "Invalid IPv4 address: "; Str ip_v4_address] ;;;
                ret ip_count)
  else ret ip_count.

Fixpoint count_valid_ips_loop (host_list : list json) (ip_count : Z) : M Z :=
  match host_list with
  | [] => ret ip_count
  | host :: rest =>
      ip_count' <- count_valid_ips_step host ip_count ;;
      count_valid_ips_loop rest ip_count'
  end.

Definition count_valid_ips (host_list : list json) : M Z :=
  count_valid_ips_loop host_list 0.

(** ** [network_discovery_parser.extract_host_data] *)

Definition newline : string := String (ascii_of_nat 10) "".

Definition NA : json := JStr "N/A".

(** The loop body for the entry numbered [index]. *)
Definition extract_host_step (index : Z) (host : json) : M unit :=
  host_data <- lift (py_get host "host" (JDict [])) ;;
  host_id <- lift (py_get host_data "host_id" NA) ;;
  mac_address <- lift (py_get host_data "mac_address" NA) ;;
  ip_v4_address <- lift (py_get host_data "ip_v4_address" NA) ;;
  ip_v4_subnet <- lift (py_get host_data "ip_v4_subnet" NA) ;;
  ip_v6_address <- lift (py_get host_data "ip_v6_address" NA) ;;
  mdns_name <- lift (py_get host_data "mdns_name" NA) ;;
  user_name <- lift (py_get host_data "user_name" NA) ;;
  print [Lit (newline ++ "Host "); Str (JInt index); Lit ":"] ;;;
  print [Lit "  Host ID: "; Str host_id] ;;;
  print [Lit "  MAC Address: "; Str mac_address] ;;;
  print [Lit "  IPv4 Address: "; Str ip_v4_address] ;;;
  print [Lit "  IPv4 Subnet: "; Str ip_v4_subnet] ;;;
  print [Lit "  IPv6 Address: "; Str ip_v6_address] ;;;
  print [Lit "  MDNS Name: "; Str mdns_name] ;;;
  print [Lit "  User Name: "; Str user_name] ;;;
  log DEBUG [Lit "Processed host "; Str (JInt index); Lit ": host_id="; Str host_id;
             Lit ", ip_v4="; Str ip_v4_address].

(** [for index, host in enumerate(host_list, 1)]. *)
Fixpoint extract_host_data_loop (host_list : list json) (index : Z) : M unit :=
  match host_list with
  | [] => ret tt
  | host :: rest =>
      extract_host_step index host ;;;
      extract_host_data_loop rest (index + 1)
  end.

Definition extract_host_data (host_list : list json) : M unit :=
  extract_host_data_loop host_list 1.

(** ** The environment of a run *)

Record args : Type := mkArgs {
  input_file : string;
  verbose : bool;
  logfile : option string
}.

(** What [parser.parse_args()] makes of the command line. *)
Inductive argv_parse : Type :=
| ArgvVersion
| ArgvHelp (help_text : string)
| ArgvUsageError (message : string)
| ArgvNamespace (a : args).

Inductive read_outcome : Type :=
| ReadText (content : string)
| ReadOSError (msg : string)
| ReadUnicodeError (msg : string).

Record world : Type := mkWorld {
  prog : string;                              (* argparse's program name *)
  usage : string;                             (* the usage text argparse formats,
                                                 wrapped to the terminal width *)
  argv : argv_parse;
  is_file : string -> bool + string;          (* [Path(p).is_file()]; [inr msg] is the
                                                 [OSError] it lets through *)
  open_log : string -> option string;         (* [OSError] on opening the log file, if any *)
  scan_read : string -> read_outcome;         (* the read in [check_sensitive_data] *)
  re_search : string -> string -> bool;       (* the [re] library, were it imported *)
  load_read : string -> read_outcome;         (* the read in [main] *)
  json_loads : string -> json + string        (* [json.loads]; [inr msg] is a decode error *)
}.

Definition __version__ : string := "2.0.1".

Module Config.

Definition LOG_FILE : string := "network_discovery_parser.log".

Definition ENCODING : string := "utf-8".

Definition DEFAULT_INPUT : string := "discovery.json".

End Config.

(** ** [pathlib]: the suffix of a path *)

Definition lower_char (c : ascii) : ascii :=
  let n := N_of_ascii c in
  if ((65 <=? n) && (n <=? 90))%N then ascii_of_N (n + 32) else c.

Fixpoint lower (s : string) : string :=
  match s with
  | EmptyString => EmptyString
  | String c rest => String (lower_char c) (lower rest)
  end.

(** [PurePosixPath(p).name]: the last component that is neither empty nor
    a lone dot. *)
Definition path_name (p : string) : string :=
  last (filter (fun c => negb (String.eqb c "" || String.eqb c ".")) (split "/" p)) "".

(** [PurePath.suffix]: [name[i:]] for [i = name.rfind('.')] when
    [0 < i < len(name) - 1], else the empty string. *)
Definition path_suffix (p : string) : string :=
  let name := path_name p in
  match rev (split "." name) with
  | ext :: _ :: _ =>
      if negb (String.eqb ext "") && (String.length ext + 1 <? String.length name)%nat
      then "." ++ ext
      else ""
  | _ => ""
  end.

(** ** [parse_arguments] *)

Definition usage_line (w : world) : text := [Lit (usage w)].

(** [parser.error(message)]: usage and message on standard error, then
    exit status 2. *)
Definition parser_error {A} (w : world) (message : text) : M A :=
  eprint (usage_line w) ;;;
  eprint (Lit (prog w) :: Lit ": error: " :: message) ;;;
  sys_exit 2.

Definition parse_args (w : world) : M args :=
  match argv w with
  | ArgvVersion => print [Lit (prog w); Lit " "; Lit __version__] ;;; sys_exit 0
  | ArgvHelp help_text => print [Lit help_text] ;;; sys_exit 0
  | ArgvUsageError message => parser_error w [Lit message]
  | ArgvNamespace a => tick ;;; ret a
  end.

Definition parse_arguments (w : world) : M args :=
  a <- parse_args w ;;
  let input_path := input_file a in
  exists_ <- (tick ;;;
              match is_file w input_path with
              | inl answer => ret answer
              | inr msg => raise (OSError msg)
              end) ;;
  (if negb exists_
   then parser_error w [Lit "Input file does not exist: "; Lit (input_file a)]
   else ret tt) ;;;
  (if negb (String.eqb (lower (path_suffix input_path)) ".json")
   then parser_error w [Lit "Input file must be a JSON file: "; Lit (input_file a)]
   else ret tt) ;;;
  ret a.

(** ** [setup_logging] *)

Definition setup_logging (w : world) (verbose : bool) (logfile : option string) : M unit :=
  let level := if verbose then DEBUG else INFO in
  set_threshold level ;;;
  emit (EHandler (StreamStdout level)) ;;;
  let logfile := match logfile with
                 | Some f => if String.eqb f "" then Config.LOG_FILE else f
                 | None => Config.LOG_FILE
                 end in
  tick ;;;
  match open_log w logfile with
  | Some msg => raise (OSError msg)
  | None => emit (EHandler (RotatingFile logfile level))
  end.

(** ** [check_sensitive_data] *)

(** The names bound at module level: the imports of lines 13 to 20 and the
    module's own definitions.  [re] is not among them. *)
Definition module_globals : list string :=
  ["__version__"; "argparse"; "json"; "logging"; "RotatingFileHandler"; "sys";
   "Path"; "ipaddress"; "List"; "Dict"; "Any"; "Optional"; "Config";
   "setup_logging"; "parse_arguments"; "check_sensitive_data";
   "count_valid_ips"; "extract_host_data"; "main"].

(** Evaluating a global name. *)
Definition load_global (name : string) : M unit :=
  if existsb (String.eqb name) module_globals then ret tt else raise (NameError name).

Definition dquote : string := String (ascii_of_nat 34) "".

Definition sensitive_patterns : list string :=
  ["api_key\s*=\s*[" ++ dquote ++ "'].+[" ++ dquote ++ "']";
   "password\s*=\s*[" ++ dquote ++ "'].+[" ++ dquote ++ "']"].

Definition read_text (r : read_outcome) : M string :=
  tick ;;;
  match r with
  | ReadText content => ret content
  | ReadOSError msg => raise (OSError msg)
  | ReadUnicodeError msg => raise (UnicodeDecodeError msg)
  end.

(** [for pattern in sensitive_patterns: if re.search(pattern, content): ...];
    running off the end of the loop reaches [return True]. *)
Fixpoint scan_patterns (w : world) (input_path : string) (patterns : list string)
    (content : string) : M bool :=
  match patterns with
  | [] => ret true
  | pattern :: rest =>
      load_global "re" ;;;
      if re_search w pattern content
      then log WARNING [Lit "Potential sensitive data found in "; StrPath input_path] ;;;
           ret false
      else scan_patterns w input_path rest content
  end.

Definition check_sensitive_data (w : world) (input_path : string) : M bool :=
  try_except
    (content <- read_text (scan_read w input_path) ;;
     scan_patterns w input_path sensitive_patterns content)
    is_IOError
    (fun err =>
       log ERROR [Lit "Failed to read "; StrPath input_path;
                  Lit " for sensitive data check: "; StrExn err] ;;;
       ret false).

(** ** [main] *)

(** [key in container]. *)
Definition py_contains (container : json) (key : string) : result bool :=
  match container with
  | JDict d => Ok (match lookup key d with Some _ => true | None => false end)
  | JList l => Ok (existsb (fun v => match v with
                                     | JStr s => String.eqb s key
                                     | _ => false
                                     end) l)
  | JStr s => Ok (substring_of key s)
  | _ => Raise (TypeError (type_name container))
  end.

(** [obj[key]] for a string key. *)
Definition py_getitem (obj : json) (key : string) : result json :=
  match obj with
  | JDict d => match lookup key d with
               | Some v => Ok v
               | None => Raise (KeyError key)
               end
  | _ => Raise (TypeError (type_name obj))
  end.

(** Lines 179 and 180: open the file and [json.load] it. *)
Definition load_json (w : world) (input_path : string) : M json :=
  content <- read_text (load_read w input_path) ;;
  match json_loads w content with
  | inl json_data => ret json_data
  | inr msg => raise (JSONDecodeError msg)
  end.

(** Lines 183 to 192: the structure check, yielding the host list. *)
Definition check_structure (json_data : json) : M (list json) :=
  has_detail <- lift (py_contains json_data "Detail") ;;
  missing <- (if negb has_detail then ret true
              else detail <- lift (py_getitem json_data "Detail") ;;
                   has_host_list <- lift (py_contains detail "host_list") ;;
                   ret (negb has_host_list)) ;;
  if (missing : bool) then
    log ERROR [Lit "Invalid JSON structure: missing 'Detail' or 'host_list'"] ;;;
    print [Lit "Error: JSON file must contain 'Detail' and 'host_list' keys"] ;;;
    sys_exit 1
  else
    detail <- lift (py_getitem json_data "Detail") ;;
    host_list <- lift (py_getitem detail "host_list") ;;
    match host_list with
    | JList l => ret l
    | _ =>
        log ERROR [Lit "Invalid JSON structure: 'host_list' is not a list"] ;;;
        print [Lit "Error: 'host_list' must be a list"] ;;;
        sys_exit 1
    end.

Definition total_line (valid_ip_count : Z) : text :=
  [Lit (newline ++ "Total Valid IPv4 Address(es): "); Str (JInt valid_ip_count)].

(** Lines 194 to 197: count, present, print the total. *)
Definition report_hosts (host_list : list json) : M unit :=
  valid_ip_count <- count_valid_ips host_list ;;
  extract_host_data host_list ;;;
  print (total_line valid_ip_count) ;;;
  log INFO [Lit "Parsing completed: "; Str (JInt valid_ip_count);
            Lit " valid IPv4 addresses found"].

(** Lines 183 to 197. *)
Definition process_document (json_data : json) : M unit :=
  host_list <- check_structure json_data ;;
  report_hosts host_list.

(** The body of the [try] statement, lines 169 to 197. *)
Definition main_try (w : world) : M unit :=
  a <- parse_arguments w ;;
  setup_logging w (verbose a) (logfile a) ;;;
  let input_path := input_file a in
  log INFO [Lit "Starting parsing of JSON file: "; StrPath input_path] ;;;
  clean <- check_sensitive_data w input_path ;;
  (if negb clean then
     log ERROR [Lit "Aborted due to potential sensitive data"] ;;;
     print [Lit "Error: Potential sensitive data detected in input file"] ;;;
     sys_exit 1
   else ret tt) ;;;
  json_data <- load_json w input_path ;;
  log INFO [Lit "Successfully read JSON file: "; StrPath input_path] ;;;
  process_document json_data.

(** The local [input_path], bound once [parse_arguments] has returned. *)
Definition input_path_of (w : world) : M string :=
  match argv w with
  | ArgvNamespace a => ret (input_file a)
  | _ => raise (UnboundLocalError "input_path")
  end.

(** The [except] clauses of lines 199 to 213, tried in order.  [SystemExit]
    matches none of them and propagates. *)
Definition main_except (w : world) (err : exn) : M unit :=
  match err with
  | JSONDecodeError _ =>
      input_path <- input_path_of w ;;
      print [Lit "Error: Invalid JSON in "; StrPath input_path; Lit ": "; StrExn err] ;;;
      log ERROR [Lit "Invalid JSON: "; StrExn err] ;;;
      sys_exit 1
  | OSError _ =>
      print [Lit "Error: File operation failed: "; StrExn err] ;;;
      log ERROR [Lit "File operation failed: "; StrExn err] ;;;
      sys_exit 1
  | KeyboardInterrupt =>
      log INFO [Lit "Cancelled by user"] ;;;
      sys_exit 0
  | SystemExit _ => raise err
  | _ =>
      print [Lit "Unexpected error: "; StrExn err] ;;;
      log ERROR [Lit "Unexpected error: "; StrExn err] ;;;
      sys_exit 1
  end.

Definition main (w : world) : M unit :=
  try_except (main_try w) (fun _ => true) (main_except w).

(** How the interpreter ends when [main] is all the script runs: status 0
    after a normal return, the given status after [SystemExit], and a
    traceback after any other exception. *)
Inductive process_end : Type :=
| Exited (status : Z)
| Traceback (e : exn).

Definition process_end_of (r : result unit) : process_end :=
  match r with
  | Ok _ => Exited 0
  | Raise (SystemExit status) => Exited status
  | Raise e => Traceback e
  end.

(** A fresh interpreter: nothing written, the root logger at its default
    threshold, and the interrupt (if any) due at the given point. *)
Definition initial_state (interrupt : option nat) : state :=
  mkState [] WARNING interrupt.

Definition run (w : world) (interrupt : option nat) : process_end * list event :=
  let '(r, s) := main w (initial_state interrupt) in (process_end_of r, trace s).

(** ** The older script: [netally-network-discovery-parser.py] *)

Module Legacy.

(** The C library's [isspace] in the C locale. *)
Definition isspace (c : ascii) : bool :=
  let n := Z.of_N (N_of_ascii c) in (n =? 32) || ((9 <=? n) && (n <=? 13)).

(** The value of a character as a digit in bases up to 16. *)
Definition digit_of (c : ascii) : option Z :=
  let n := Z.of_N (N_of_ascii c) in
  if (48 <=? n) && (n <=? 57) then Some (n - 48)
  else if (97 <=? n) && (n <=? 102) then Some (n - 87)
  else if (65 <=? n) && (n <=? 70) then Some (n - 55)
  else None.

Definition digit_in_base (base : Z) (c : ascii) : option Z :=
  match digit_of c with
  | Some d => if d <? base then Some d else None
  | None => None
  end.

Fixpoint strtoul_digits (base : Z) (s : string) (acc : Z) : Z * string :=
  match s with
  | EmptyString => (acc, s)
  | String c rest =>
      match digit_in_base base c with
      | Some d => strtoul_digits base rest (base * acc + d)
      | None => (acc, s)
      end
  end.

(** [strtoul(cp, &endp, 0)] on a text that starts with a digit: the value
    (unbounded here; the caller rejects what exceeds 32 bits) and the rest
    of the text. *)
Definition strtoul0 (cp : string) : Z * string :=
  match cp with
  | String "0" (String x rest) =>
      if Ascii.eqb x "x" || Ascii.eqb x "X" then
        match rest with
        | String h _ =>
            match digit_in_base 16 h with
            | Some _ => strtoul_digits 16 rest 0
            | None => (0, String x rest)
            end
        | EmptyString => (0, String x rest)
        end
      else strtoul_digits 8 (String x rest) 0
  | _ => strtoul_digits 10 cp 0
  end.

(** [max[n]]: the bound on the last part after [n] dotted parts. *)
Definition last_part_max (n : nat) : Z :=
  match n with
  | 0%nat => 4294967295
  | 1%nat => 16777215
  | 2%nat => 65535
  | _ => 255
  end.

(** The address in host order: the dotted parts fill the high bytes. *)
Definition assemble (parts : list Z) (val : Z) : Z :=
  snd (fold_left (fun '(shift, acc) p => (shift - 8, acc + Z.shiftl p shift))
                 parts (24, val)).

(** The loop of glibc's [inet_aton]; [parts] are the bytes stored so far. *)
Fixpoint inet_aton_loop (fuel : nat) (cp : string) (parts : list Z) : option Z :=
  match fuel with
  | O => None
  | S fuel' =>
      match cp with
      | EmptyString => None
      | String c _ =>
          if negb (is_digit c) then None
          else
            let '(val, rest) := strtoul0 cp in
            if 4294967295 <? val then None
            else match rest with
                 | String "." rest' =>
                     if (2 <? List.length parts)%nat || (255 <? val) then None
                     else inet_aton_loop fuel' rest' (parts ++ [val])
                 | _ =>
                     let trailing_ok :=
                       match rest with
                       | EmptyString => true
                       | String c' _ => (Z.of_N (N_of_ascii c') <? 128) && isspace c'
                       end in
                     if negb trailing_ok then None
                     else if last_part_max (List.length parts) <? val then None
                     else Some (assemble parts val)
                 end
      end
  end.

Definition inet_aton (cp : string) : option Z :=
  inet_aton_loop (S (String.length cp)) cp [].

(** [socket.inet_aton]: the [str] is first encoded as UTF-8, which a
    surrogate prevents, and must hold no NUL; it then goes to the C
    function, whose refusal is raised as [socket.error], an alias of
    [OSError]. *)
Definition socket_inet_aton (ip_string : json) : result Z :=
  match ip_string with
  | JStr s =>
      if has_surrogate s then Raise UnicodeEncodeError
      else if contains_char (ascii_of_nat 0) s
      then Raise (ValueError "embedded null character")
      else match inet_aton s with
           | Some a => Ok a
           | None => Raise (OSError "illegal IP address string passed to inet_aton")
           end
  | _ => Raise (TypeError (type_name ip_string))
  end.

Definition is_None (v : json) : bool :=
  match v with JNull => true | _ => false end.

Definition count_valid_ips_step (host : json) (ip_count : Z) : result Z :=
  match py_getitem host "host" with
  | Raise e => Raise e
  | Ok host_data =>
      match py_get host_data "ip_v4_address" JNull with
      | Raise e => Raise e
      | Ok ip_v4_address =>
          if negb (is_None ip_v4_address) then
            match socket_inet_aton ip_v4_address with
            | Ok _ => Ok (ip_count + 1)
            | Raise e => if is_IOError e then Ok ip_count else Raise e
            end
          else Ok ip_count
      end
  end.

Fixpoint count_valid_ips_loop (host_list : list json) (ip_count : Z) : result Z :=
  match host_list with
  | [] => Ok ip_count
  | host :: rest =>
      match count_valid_ips_step host ip_count with
      | Ok ip_count' => count_valid_ips_loop rest ip_count'
      | Raise e => Raise e
      end
  end.

Definition count_valid_ips (host_list : list json) : result Z :=
  count_valid_ips_loop host_list 0.

(** [for host in host_list]: the elements a JSON value yields when iterated.
    A [dict] yields its keys and a [str] its characters (here the bytes of
    its UTF-8 text, each again a [str]). *)
Definition py_iter (v : json) : result (list json) :=
  match v with
  | JList l => Ok l
  | JDict d => Ok (map (fun kv => JStr (fst kv)) d)
  | JStr s => Ok (map (fun c => JStr (String c "")) (list_ascii_of_string s))
  | _ => Raise (TypeError (type_name v))
  end.

(** [print("Label:", value)]: the arguments separated by a blank. *)
Definition labelled (label : string) (v : json) : text :=
  [Lit label; Lit " "; Str v].

(** The loop body of the older [extract_host_data]. *)
Definition extract_host_step (host : json) : M unit :=
  host_data <- lift (py_getitem host "host") ;;
  host_id <- lift (py_get host_data "host_id" JNull) ;;
  mac_address <- lift (py_get host_data "mac_address" JNull) ;;
  ip_v4_address <- lift (py_get host_data "ip_v4_address" JNull) ;;
  ip_v4_subnet <- lift (py_get host_data "ip_v4_subnet" JNull) ;;
  ip_v6_address <- lift (py_get host_data "ip_v6_address" JNull) ;;
  mdns_name <- lift (py_get host_data "mdns_name" JNull) ;;
  user_name <- lift (py_get host_data "user_name" JNull) ;;
  print_args (labelled "Host ID:" host_id) ;;;
  print_args (labelled "MAC Address:" mac_address) ;;;
  print_args (labelled "IPv4 Address:" ip_v4_address) ;;;
  print_args (labelled "IPv4 Subnet:" ip_v4_subnet) ;;;
  print_args (labelled "IPv6 Address:" ip_v6_address) ;;;
  print_args (labelled "MDNS Name:" mdns_name) ;;;
  print_args (labelled "User Name:" user_name) ;;;
  print [].

Fixpoint extract_host_data (host_list : list json) : M unit :=
  match host_list with
  | [] => ret tt
  | host :: rest => extract_host_step host ;;; extract_host_data rest
  end.

(** The older [main], given [sys.argv].  [sys.exit()] without an argument
    is exit status 0, and the bare [except:] catches every exception of the
    load, [KeyboardInterrupt] included. *)
Definition main (sys_argv : list string) (w : world) : M unit :=
  (if (List.length sys_argv <? 2)%nat
   then print [Lit "Usage: python script.py discovery.json"] ;;; sys_exit 0
   else ret tt) ;;;
  let json_file := nth 1 sys_argv "" in
  json_data <- try_except (load_json w json_file) (fun _ => true)
                 (fun _ => print [Lit "Error: Unable to open JSON file"] ;;; sys_exit 0) ;;
  detail <- lift (py_getitem json_data "Detail") ;;
  host_list <- lift (py_getitem detail "host_list") ;;
  hosts <- lift (py_iter host_list) ;;
  valid_ip_count <- lift (count_valid_ips hosts) ;;
  extract_host_data hosts ;;;
  print_args (labelled "Total Valid IP(s):" (JInt valid_ip_count)).

End Legacy.

(** ** What the claims say, in the specification's words *)

(** The field [host.ip_v4_address] of an entry, when the entry carries it. *)
Definition ip_field (entry : json) : option json :=
  match entry with
  | JDict d =>
      match lookup "host" d with
      | Some (JDict host_data) => lookup "ip_v4_address" host_data
      | _ => None
      end
  | _ => None
  end.

(** A host entry: a dictionary that optionally carries a nested ["host"]
    mapping. *)
Definition is_host_entry (entry : json) : bool :=
  match entry with
  | JDict d =>
      match lookup "host" d with
      | None | Some (JDict _) => true
      | Some _ => false
      end
  | _ => false
  end.

Definition is_host_list (host_list : list json) : bool :=
  forallb is_host_entry host_list.

Definition digit_char (d : Z) : ascii := ascii_of_N (Z.to_N (48 + d)).

(** The decimal numeral of an octet, without leading zeros. *)
Definition decimal_octet (n : Z) : string :=
  if n <? 10 then String (digit_char n) ""
  else if n <? 100 then String (digit_char (n / 10)) (String (digit_char (n mod 10)) "")
  else String (digit_char (n / 100))
         (String (digit_char (n / 10 mod 10)) (String (digit_char (n mod 10)) "")).

Definition is_octet (n : Z) : Prop := 0 <= n <= 255.

(** A strictly well-formed dotted quad: four decimal octets in [0,255]
    separated by dots, and nothing else. *)
Definition dotted_quad (s : string) : Prop :=
  exists a b c d,
    is_octet a /\ is_octet b /\ is_octet c /\ is_octet d /\
    s = decimal_octet a ++ "." ++ decimal_octet b ++ "." ++
        decimal_octet c ++ "." ++ decimal_octet d.

(** "The number of entries that satisfy [P]". *)
Inductive tally (P : json -> Prop) : list json -> Z -> Prop :=
| tally_nil : tally P [] 0
| tally_hit e l n : P e -> tally P l n -> tally P (e :: l) (n + 1)
| tally_miss e l n : ~ P e -> tally P l n -> tally P (e :: l) n.

(** The entries the claim counts: the field is present and is a dotted-quad
    literal. *)
Definition has_dotted_quad (entry : json) : Prop :=
  exists s, ip_field entry = Some (JStr s) /\ dotted_quad s.

(** The values [ipaddress.IPv4Address] accepts among the truthy ones: a
    dotted-quad literal, or a non-zero integer below [2^32] ([True] is the
    integer 1). *)
Definition accepted_address (v : json) : Prop :=
  (exists s, v = JStr s /\ dotted_quad s) \/
  (exists n, v = JInt n /\ 1 <= n <= 2 ^ 32 - 1) \/
  v = JBool true.

Definition has_accepted_address (entry : json) : Prop :=
  exists v, ip_field entry = Some v /\ accepted_address v.

(** The field holds a string or null, or is absent. *)
Definition string_valued (entry : json) : Prop :=
  match ip_field entry with
  | None | Some JNull | Some (JStr _) => True
  | Some _ => False
  end.

(** ** Derived forms of the counter *)

(** The state after a logging call that no interrupt cuts short. *)
Definition logged (lvl : level) (msg : text) (s : state) : state :=
  if level_rank (threshold s) <=? level_rank lvl
  then mkState (trace s ++ [ELog lvl msg]) (threshold s) (sigint s)
  else s.

Definition printed (line : text) (s : state) : state :=
  mkState (trace s ++ [EPrint line]) (threshold s) (sigint s).

Definition valid_ipv4 (v : json) : bool :=
  match ipaddress.IPv4Address v with Ok _ => true | Raise _ => false end.

(** Whether the loop body adds one for this entry. *)
Definition counted (entry : json) : bool :=
  match ip_field entry with
  | Some v => truthy v && valid_ipv4 v
  | None => false
  end.

Definition valid_count (host_list : list json) : Z :=
  Z.of_nat (List.length (filter counted host_list)).

(** The state the loop body of [count_valid_ips] leaves when no interrupt
    cuts it short. *)
Definition count_logged (entry : json) (s : state) : state :=
  match ip_field entry with
  | Some v =>
      if truthy v then
        if valid_ipv4 v then logged DEBUG [Lit "Valid IPv4 address: "; Str v] s
        else logged WARNING [Lit "Invalid IPv4 address: "; Str v] s
      else s
  | None => s
  end.

Definition host_entry (v : json) : json :=
  JDict [("host", JDict [("ip_v4_address", v)])].

(** The host list of the repository's own test, with an entry that carries
    no address. *)
Definition sample_hosts : list json :=
  [host_entry (JStr "192.168.1.100"); host_entry (JStr "invalid_ip");
   JDict [("host", JDict [])]].

(** The four malformed literals the specification lists. *)
Definition malformed_literals : list string :=
  ["256.1.1.1"; "1.2.3"; "1.2.3.4.5"; " 1.2.3.4"].

(** ** What the presenter is to print *)

Definition field_or_NA (host_data : dict) (name : string) : json :=
  match lookup name host_data with
  | Some v => v
  | None => NA
  end.

(** The nested ["host"] mapping of an entry, empty when there is none. *)
Definition host_data_of (entry : json) : dict :=
  match entry with
  | JDict d => match lookup "host" d with
               | Some (JDict host_data) => host_data
               | _ => []
               end
  | _ => []
  end.

(** The block of entry number [index]: a header that opens with a line
    break, so that a blank line precedes it, and the seven fields. *)
Definition host_block (index : Z) (entry : json) : list text :=
  let host_data := host_data_of entry in
  [ [Lit (newline ++ "Host "); Str (JInt index); Lit ":"];
    [Lit "  Host ID: "; Str (field_or_NA host_data "host_id")];
    [Lit "  MAC Address: "; Str (field_or_NA host_data "mac_address")];
    [Lit "  IPv4 Address: "; Str (field_or_NA host_data "ip_v4_address")];
    [Lit "  IPv4 Subnet: "; Str (field_or_NA host_data "ip_v4_subnet")];
    [Lit "  IPv6 Address: "; Str (field_or_NA host_data "ip_v6_address")];
    [Lit "  MDNS Name: "; Str (field_or_NA host_data "mdns_name")];
    [Lit "  User Name: "; Str (field_or_NA host_data "user_name")] ].

(** The entries with their sequence numbers, counted from [first]. *)
Definition numbered (first : nat) (host_list : list json) : list (nat * json) :=
  combine (seq first (List.length host_list)) host_list.

(** One block per entry, in sequence order, numbered from 1. *)
Definition presentation (host_list : list json) : list text :=
  flat_map (fun '(i, entry) => host_block (Z.of_nat i) entry) (numbered 1 host_list).

(** The lines written by calls of [print]. *)
Definition printed_lines (tr : list event) : list text :=
  flat_map (fun ev => match ev with EPrint line => [line] | _ => [] end) tr.

(** *** Standard output *)

(** What reaches standard output: a line [print] wrote, the start of a
    line whose rest could not be encoded, and a record a console handler
    wrote (its time stamp left out). *)
Inductive out_line : Type :=
| Printed (line : text)
| Started (pieces : text)
| Logged (lvl : level) (msg : text).

(** The console handlers that let a record of level [lvl] through. *)
Definition writing (consoles : list level) (lvl : level) : list level :=
  filter (fun h => level_rank h <=? level_rank lvl) consoles.

(** What a console handler writes for a record: its [emit] catches the
    exception of a text that cannot be encoded, and nothing is written. *)
Definition record_lines (consoles : list level) (lvl : level) (msg : text)
  : list out_line :=
  if encodable msg then map (fun _ => Logged lvl msg) (writing consoles lvl) else [].

(** Standard output after the events [tr], when console handlers of the
    levels [consoles] are on the root logger as they begin. *)
Fixpoint stdout_from (consoles : list level) (tr : list event) : list out_line :=
  match tr with
  | [] => []
  | EPrint line :: rest => Printed line :: stdout_from consoles rest
  | EWrite pieces :: rest => Started pieces :: stdout_from consoles rest
  | ELog lvl msg :: rest => (record_lines consoles lvl msg ++ stdout_from consoles rest)%list
  | EHandler (StreamStdout h) :: rest => stdout_from (consoles ++ [h]) rest
  | _ :: rest => stdout_from consoles rest
  end.

(** The console handlers on the root logger after the events [tr]. *)
Fixpoint consoles_after (consoles : list level) (tr : list event) : list level :=
  match tr with
  | [] => consoles
  | EHandler (StreamStdout h) :: rest => consoles_after (consoles ++ [h]) rest
  | _ :: rest => consoles_after consoles rest
  end.

(** Standard output of a run from a fresh interpreter. *)
Definition standard_output (tr : list event) : list out_line := stdout_from [] tr.

(** *** Fields standard output can encode *)

Definition field_names : list string :=
  ["host_id"; "mac_address"; "ip_v4_address"; "ip_v4_subnet"; "ip_v6_address";
   "mdns_name"; "user_name"].

(** Each of the seven fields of the entry, as the presenter shows it, can
    be encoded. *)
Definition printable_entry (entry : json) : bool :=
  forallb (fun name => encodable_piece (Str (field_or_NA (host_data_of entry) name)))
          field_names.

Definition printable (host_list : list json) : bool := forallb printable_entry host_list.

(** The [str] that [json.load] builds from the escape [\ud800]. *)
Definition lone_surrogate : string :=
  String (ascii_of_nat 237) (String (ascii_of_nat 160) (String (ascii_of_nat 128) "")).

(** The diagnostic record that follows a block. *)
Definition processed_record (index : Z) (entry : json) : text :=
  let host_data := host_data_of entry in
  [Lit "Processed host "; Str (JInt index); Lit ": host_id=";
   Str (field_or_NA host_data "host_id"); Lit ", ip_v4=";
   Str (field_or_NA host_data "ip_v4_address")].

(** Everything [extract_host_data] emits for one entry under logger
    threshold [th]. *)
Definition block_events (th : level) (index : Z) (entry : json) : list event :=
  (map EPrint (host_block index entry) ++
   if level_rank th <=? level_rank DEBUG
   then [ELog DEBUG (processed_record index entry)] else [])%list.

Definition presentation_events (th : level) (first : nat) (host_list : list json)
  : list event :=
  flat_map (fun '(i, entry) => block_events th (Z.of_nat i) entry) (numbered first host_list).

Definition sample_document : dict :=
  [("Detail", JDict [("host_list", JList sample_hosts)])].

(** ** What the structure claim says *)

(** The value under [key] in a JSON object; a value that is no object has
    no keys. *)
Definition field (v : json) (key : string) : option json :=
  match v with
  | JDict d => lookup key d
  | _ => None
  end.

Definition is_list (v : json) : bool :=
  match v with JList _ => true | _ => false end.

(** The document lacks [Detail], lacks [Detail.host_list], or its
    [host_list] is no sequence. *)
Definition structure_invalid (json_data : json) : Prop :=
  field json_data "Detail" = None \/
  (exists detail, field json_data "Detail" = Some detail /\
                  field detail "host_list" = None) \/
  (exists detail v, field json_data "Detail" = Some detail /\
                    field detail "host_list" = Some v /\ is_list v = false).

(** The two messages of the structure check. *)
Definition structure_error_lines : list text :=
  [ [Lit "Error: JSON file must contain 'Detail' and 'host_list' keys"];
    [Lit "Error: 'host_list' must be a list"] ].

Definition missing_keys_record : text :=
  [Lit "Invalid JSON structure: missing 'Detail' or 'host_list'"].
Definition missing_keys_line : text :=
  [Lit "Error: JSON file must contain 'Detail' and 'host_list' keys"].
Definition not_a_list_record : text :=
  [Lit "Invalid JSON structure: 'host_list' is not a list"].
Definition not_a_list_line : text :=
  [Lit "Error: 'host_list' must be a list"].

(** The state after a report of the generic handler. *)
Definition unexpected (e : exn) (s : state) : state :=
  logged ERROR [Lit "Unexpected error: "; StrExn e]
    (printed [Lit "Unexpected error: "; StrExn e] s).

(** ** Worlds *)

(** The same environment with another content behind the second read. *)
Definition with_load (w : world) (lr : string -> read_outcome)
    (jl : string -> json + string) : world :=
  mkWorld (prog w) (usage w) (argv w) (is_file w) (open_log w) (scan_read w)
    (re_search w) lr jl.

(** The log file [setup_logging] opens. *)
Definition log_path (a : args) : string :=
  match logfile a with
  | Some f => if String.eqb f "" then Config.LOG_FILE else f
  | None => Config.LOG_FILE
  end.

(** [parse_arguments] accepts: a namespace whose input file exists and has
    the suffix [.json] in any letter case. *)
Definition arguments_accepted (w : world) (a : args) : Prop :=
  argv w = ArgvNamespace a /\
  is_file w (input_file a) = inl true /\
  lower (path_suffix (input_file a)) = ".json".

(** The level [setup_logging] gives the logger and its handlers. *)
Definition log_level (a : args) : level := if verbose a then DEBUG else INFO.

(** The state in which [setup_logging] opens the log file: the level is
    set and the console handler added. *)
Definition console_ready (a : args) (s : state) : state :=
  mkState (trace s ++ [EHandler (StreamStdout (log_level a))]) (log_level a) (sigint s).

(** The state once logging is set up for [a]: both handlers added. *)
Definition logging_ready (a : args) (s : state) : state :=
  mkState (trace s ++ [EHandler (StreamStdout (log_level a));
                       EHandler (RotatingFile (log_path a) (log_level a))])
          (log_level a) (sigint s).

Definition starting_record (a : args) : text :=
  [Lit "Starting parsing of JSON file: "; StrPath (input_file a)].

(** The usage text at a width of 80 columns. *)
Definition sample_usage : string :=
  "usage: network_discovery_parser.py [-h] [--input_file INPUT_FILE] [-v]" ++ newline ++
  "                                   [--verbose] [--logfile LOGFILE]" ++ newline.

(** A run on an existing, readable file [discovery.json] that holds the
    empty object. *)
Definition sample_world : world :=
  mkWorld "network_discovery_parser.py" sample_usage
    (ArgvNamespace (mkArgs "discovery.json" false None))
    (fun _ => inl true) (fun _ => None)
    (fun _ => ReadText "{}") (fun _ _ => false)
    (fun _ => ReadText "{}") (fun _ => inl (JDict [])).

(** A document whose [Detail] is null, and a run on a file that holds it. *)
Definition null_detail : json := JDict [("Detail", JNull)].

Definition null_detail_world : world :=
  mkWorld "network_discovery_parser.py" sample_usage
    (ArgvNamespace (mkArgs "discovery.json" false None))
    (fun _ => inl true) (fun _ => None)
    (fun _ => ReadText ("{" ++ dquote ++ "Detail" ++ dquote ++ ": null}"))
    (fun _ _ => false)
    (fun _ => ReadText ("{" ++ dquote ++ "Detail" ++ dquote ++ ": null}"))
    (fun _ => inl null_detail).

(** The same command line when the input file does not exist. *)
Definition missing_file_world : world :=
  mkWorld "network_discovery_parser.py" sample_usage
    (ArgvNamespace (mkArgs "discovery.json" false None))
    (fun _ => inl false) (fun _ => None)
    (fun _ => ReadOSError "No such file or directory") (fun _ _ => false)
    (fun _ => ReadOSError "No such file or directory") (fun _ => inl (JDict [])).

(** ** Delivery of the interrupt *)

(** Whenever [m] ends in [KeyboardInterrupt], the pending signal has been
    consumed. *)
Definition delivers {A} (m : M A) : Prop :=
  forall s s1, m s = (Raise KeyboardInterrupt, s1) -> sigint s1 = None.

(** The exit status the handlers of [main] give to an outcome of the [try]
    body. *)
Definition exit_status (r : result unit) : Z :=
  match r with
  | Ok _ => 0
  | Raise KeyboardInterrupt => 0
  | Raise (SystemExit status) => status
  | Raise _ => 1
  end.

(** [parse_arguments] rejects the command line or the input path. *)
Definition argument_error (w : world) : Prop :=
  match argv w with
  | ArgvUsageError _ => True
  | ArgvNamespace a =>
      is_file w (input_file a) = inl false \/
      (is_file w (input_file a) = inl true /\
       lower (path_suffix (input_file a)) <> ".json")
  | _ => False
  end.

(** ** Checks by enumeration *)

(** The octets and the decimal digits, for checks by enumeration. *)
Definition octets : list Z := map Z.of_nat (seq 0 256).

Definition digits : list Z := map Z.of_nat (seq 0 10).

Definition octet_round_trip (n : Z) : bool :=
  match ipaddress._parse_octet (decimal_octet n) with
  | Ok m => (m =? n) && negb (contains_char "." (decimal_octet n))
                     && negb (contains_char "/" (decimal_octet n))
  | Raise _ => false
  end.

Definition numeral (ds : list Z) : string :=
  fold_right (fun d s => String (digit_char d) s) "" ds.

Definition numeral_canonical (ds : list Z) : bool :=
  match ipaddress._parse_octet (numeral ds) with
  | Ok n => String.eqb (numeral ds) (decimal_octet n) && (0 <=? n) && (n <=? 255)
  | Raise _ => true
  end.


Definition sample_args : args := mkArgs "discovery.json" false None.

Definition sample_start : text := starting_record sample_args.

(** Where the [try] body leaves the state when the input file is missing. *)
Definition missing_file_end : state :=
  snd (main_try missing_file_world (initial_state None)).

(** ** Lines printed in a row *)

(** [print l1; ...; print ln] followed by [k]. *)
Fixpoint print_then (lines : list text) (k : M unit) : M unit :=
  match lines with
  | [] => k
  | line :: rest => print line ;;; print_then rest k
  end.

(** The state after a list of lines has been printed. *)
Definition printed_all (lines : list text) (s : state) : state :=
  mkState (trace s ++ map EPrint lines) (threshold s) (sigint s).

(** An exception that is no [JSONDecodeError]. *)
Definition not_json_error (e : exn) : Prop := forall msg, e <> JSONDecodeError msg.


(** * Further definitions *)

(** ** Invariants of a computation *)

(** Every run of [m] relates the state it starts in to the state it ends
    in by [R], however it ends. *)
Definition preserves {A} (R : state -> state -> Prop) (m : M A) : Prop :=
  forall s r s', m s = (r, s') -> R s s'.

(** A record of the logger. *)
Definition is_record (ev : event) : bool :=
  match ev with ELog _ _ => true | _ => false end.

(** All that was added to the trace are records of the logger: [print] was
    not called, nothing went to standard error, no handler was added. *)
Definition only_records (s s' : state) : Prop :=
  exists records, trace s' = (trace s ++ records)%list /\ forallb is_record records = true.

(** The logger's threshold is left as it was. *)
Definition same_threshold (s s' : state) : Prop :=
  threshold s' = threshold s.

(** [m] swallows no interrupt: when it ends with no interrupt pending, it
    raised [KeyboardInterrupt] or none was pending when it started. *)
Definition transparent {A} (m : M A) : Prop :=
  forall s r s', m s = (r, s') -> sigint s' = None ->
                 sigint s = None \/ r = Raise KeyboardInterrupt.

(** Every exception [m] raises satisfies [P]. *)
Definition raises_only {A} (P : exn -> Prop) (m : M A) : Prop :=
  forall s e s', m s = (Raise e, s') -> P e.

(** ** The records of the counter *)

(** What [count_valid_ips] logs for one entry under threshold [th]. *)
Definition count_events (th : level) (entry : json) : list event :=
  match ip_field entry with
  | Some v =>
      if truthy v then
        if valid_ipv4 v
        then (if level_rank th <=? level_rank DEBUG
              then [ELog DEBUG [Lit "Valid IPv4 address: "; Str v]] else [])
        else (if level_rank th <=? level_rank WARNING
              then [ELog WARNING [Lit "Invalid IPv4 address: "; Str v]] else [])
      else []
  | None => []
  end.

(** The state [count_valid_ips] leaves after a host list when no interrupt
    cuts it short. *)
Definition count_logged_all (host_list : list json) (s : state) : state :=
  fold_left (fun st entry => count_logged entry st) host_list s.

(** The entry carries an address that is truthy and not valid. *)
Definition rejected (entry : json) : bool :=
  match ip_field entry with
  | Some v => truthy v && negb (valid_ipv4 v)
  | None => false
  end.

(** ** The accepted structure *)

(** The host list of a document: the list under [Detail.host_list], both
    levels being objects. *)
Definition host_list_of (json_data : json) : option (list json) :=
  match field json_data "Detail" with
  | Some detail =>
      match field detail "host_list" with
      | Some (JList l) => Some l
      | _ => None
      end
  | None => None
  end.

(** ** [parse_arguments], refused *)

(** The state after [parser.error(message)] when no interrupt arrives. *)
Definition refused (w : world) (message : text) (s : state) : state :=
  mkState (trace s ++ [EStderr (usage_line w);
                       EStderr (Lit (prog w) :: Lit ": error: " :: message)])
          (threshold s) (sigint s).

(** ** The older script *)

(** An entry the older functions handle: a dictionary whose ["host"] is a
    dictionary. *)
Definition has_host (entry : json) : bool :=
  match entry with
  | JDict d => match lookup "host" d with
               | Some (JDict _) => true
               | _ => false
               end
  | _ => false
  end.

(** What the older counter adds for an entry: one for a string that
    [inet_aton] accepts. *)
Definition legacy_counted (entry : json) : bool :=
  match ip_field entry with
  | Some (JStr s) => match Legacy.inet_aton s with Some _ => true | None => false end
  | _ => false
  end.

(** The entry carries a ["host"] dictionary whose address is absent, null,
    or a string that holds neither a surrogate nor NUL: one that
    [socket.inet_aton] takes to the C function. *)
Definition legacy_countable (entry : json) : bool :=
  has_host entry &&
  match ip_field entry with
  | None | Some JNull => true
  | Some (JStr s) => negb (has_surrogate s) && negb (contains_char (ascii_of_nat 0) s)
  | Some _ => false
  end.

Definition field_or_None (host_data : dict) (name : string) : json :=
  match lookup name host_data with
  | Some v => v
  | None => JNull
  end.

(** The seven labelled lines the older presenter prints for an entry. *)
Definition legacy_fields (entry : json) : list text :=
  let host_data := host_data_of entry in
  [ Legacy.labelled "Host ID:" (field_or_None host_data "host_id");
    Legacy.labelled "MAC Address:" (field_or_None host_data "mac_address");
    Legacy.labelled "IPv4 Address:" (field_or_None host_data "ip_v4_address");
    Legacy.labelled "IPv4 Subnet:" (field_or_None host_data "ip_v4_subnet");
    Legacy.labelled "IPv6 Address:" (field_or_None host_data "ip_v6_address");
    Legacy.labelled "MDNS Name:" (field_or_None host_data "mdns_name");
    Legacy.labelled "User Name:" (field_or_None host_data "user_name") ].

(** The block the older presenter prints for an entry: the seven labelled
    lines and an empty one. *)
Definition legacy_block (entry : json) : list text := (legacy_fields entry ++ [[]])%list.

(** Each of the seven fields of the entry, as the older presenter shows
    it, can be encoded. *)
Definition legacy_printable_entry (entry : json) : bool :=
  forallb (fun name => encodable_piece (Str (field_or_None (host_data_of entry) name)))
          field_names.

Definition legacy_printable (host_list : list json) : bool :=
  forallb legacy_printable_entry host_list.

(** [print(a, b)] for each line in turn, followed by [k]. *)
Fixpoint print_args_then (lines : list text) (k : M unit) : M unit :=
  match lines with
  | [] => k
  | line :: rest => print_args line ;;; print_args_then rest k
  end.

(** The four octets of a dotted quad as one integer. *)
Definition quad_value (a b c d : Z) : Z :=
  a * 2 ^ 24 + b * 2 ^ 16 + c * 2 ^ 8 + d.

(** The dotted-quad text of four octets. *)
Definition quad_text (a b c d : Z) : string :=
  decimal_octet a ++ "." ++ decimal_octet b ++ "." ++
  decimal_octet c ++ "." ++ decimal_octet d.

(** The number of entries the older counter counts. *)
Definition legacy_count (host_list : list json) : Z :=
  Z.of_nat (List.length (filter legacy_counted host_list)).

(** The lines the older presenter prints for a host list. *)
Definition legacy_presentation (host_list : list json) : list text :=
  flat_map legacy_block host_list.

(** What the octet [a] in decimal notation is to [strtoul], to the digit
    test, to the NUL test and to the test for the first byte of a
    surrogate. *)
Definition octet_scanned (a : Z) : Prop :=
  (forall t, Legacy.strtoul0 (decimal_octet a ++ String "." t) = (a, String "." t)) /\
  Legacy.strtoul0 (decimal_octet a) = (a, "") /\
  (exists c r, decimal_octet a = String c r /\ is_digit c = true) /\
  contains_char (ascii_of_nat 0) (decimal_octet a) = false /\
  contains_char (ascii_of_nat 237) (decimal_octet a) = false.

(** An exception that is no [SystemExit] with a status other than 0. *)
Definition no_failure_status (e : exn) : Prop :=
  forall status, e = SystemExit status -> status = 0.

(** * Properties *)

(** ** The monad without a pending interrupt *)

Lemma logged_sigint lvl msg s : sigint (logged lvl msg s) = sigint s.
Proof. unfold logged. destruct (_ <=? _); reflexivity. Qed.

Lemma logged_threshold lvl msg s : threshold (logged lvl msg s) = threshold s.
Proof. unfold logged. destruct (_ <=? _); reflexivity. Qed.

Section Quiet.

Variable s : state.
Hypothesis quiet : sigint s = None.

Lemma tick_quiet : tick s = (Ok tt, s).
Proof. unfold tick. rewrite quiet. reflexivity. Qed.

Lemma log_quiet lvl msg : log lvl msg s = (Ok tt, logged lvl msg s).
Proof.
  unfold log, bind. rewrite tick_quiet.
  unfold logged, emit. destruct (_ <=? _); reflexivity.
Qed.

Lemma print_quiet line : encodable line = true -> print line s = (Ok tt, printed line s).
Proof. intros E. unfold print, bind. rewrite tick_quiet, E. reflexivity. Qed.

Lemma print_args_quiet line :
  encodable line = true -> print_args line s = (Ok tt, printed line s).
Proof. intros E. unfold print_args, bind. rewrite tick_quiet, E. reflexivity. Qed.

End Quiet.

(** ** Decimal octets *)

Lemma is_digit_char (c : ascii) :
  is_digit c = true -> c = digit_char (digit_value c) /\ 0 <= digit_value c <= 9.
Proof.
  unfold is_digit, digit_char, digit_value. intros H.
  apply andb_true_iff in H as [H1 H2].
  apply Z.leb_le in H1. apply Z.leb_le in H2.
  split; [|lia].
  replace (48 + (Z.of_N (N_of_ascii c) - 48)) with (Z.of_N (N_of_ascii c)) by lia.
  rewrite N2Z.id. symmetry. apply ascii_N_embedding.
Qed.

Lemma in_octets n : is_octet n -> In n octets.
Proof.
  intros H. unfold octets. apply in_map_iff. exists (Z.to_nat n).
  split; [unfold is_octet in H; lia|]. apply in_seq. unfold is_octet in H. lia.
Qed.

Lemma in_digits d : 0 <= d <= 9 -> In d digits.
Proof.
  intros H. unfold digits. apply in_map_iff. exists (Z.to_nat d).
  split; [lia|]. apply in_seq. lia.
Qed.

Lemma octet_round_trip_all : forallb octet_round_trip octets = true.
Proof. vm_compute. reflexivity. Qed.

Lemma parse_octet_decimal n :
  is_octet n -> ipaddress._parse_octet (decimal_octet n) = Ok n.
Proof.
  intros H. pose proof octet_round_trip_all as A.
  rewrite forallb_forall in A. specialize (A n (in_octets n H)).
  unfold octet_round_trip in A.
  destruct (ipaddress._parse_octet (decimal_octet n)); [|discriminate].
  apply andb_true_iff in A as [A _]. apply andb_true_iff in A as [A _].
  apply Z.eqb_eq in A. now subst.
Qed.

Lemma decimal_octet_plain n (c : ascii) :
  is_octet n -> c = "."%char \/ c = "/"%char -> contains_char c (decimal_octet n) = false.
Proof.
  intros H Hc. pose proof octet_round_trip_all as A.
  rewrite forallb_forall in A. specialize (A n (in_octets n H)).
  unfold octet_round_trip in A.
  destruct (ipaddress._parse_octet (decimal_octet n)); [|discriminate].
  apply andb_true_iff in A as [A A2]. apply andb_true_iff in A as [_ A1].
  apply negb_true_iff in A1, A2. now destruct Hc; subst.
Qed.

Lemma numerals_canonical :
  forallb (fun a => numeral_canonical [a]) digits
  && forallb (fun a => forallb (fun b => numeral_canonical [a; b]) digits) digits
  && forallb (fun a => forallb (fun b =>
       forallb (fun c => numeral_canonical [a; b; c]) digits) digits) digits = true.
Proof. vm_compute. reflexivity. Qed.

Ltac digits_found :=
  split; [simpl; congruence|];
  split; [simpl; lia|];
  split; [discriminate|];
  repeat (apply Forall_cons; [lia|]); apply Forall_nil.

Lemma parse_octet_inv o n :
  ipaddress._parse_octet o = Ok n -> is_octet n /\ o = decimal_octet n.
Proof.
  intros H.
  assert (C : exists ds, o = numeral ds /\ (List.length ds <= 3)%nat /\ ds <> []
                         /\ Forall (fun d => 0 <= d <= 9) ds).
  { unfold ipaddress._parse_octet in H.
    destruct (String.eqb o "") eqn:E0; [discriminate|].
    destruct (all_digits o) eqn:Ed; [|discriminate]. simpl in H.
    destruct (3 <? Z.of_nat (String.length o)) eqn:El; [discriminate|].
    apply Z.ltb_ge in El. clear H.
    destruct o as [|c1 o]; [discriminate|].
    simpl in Ed. apply andb_true_iff in Ed as [D1 Ed].
    apply is_digit_char in D1 as [E1 R1].
    destruct o as [|c2 o].
    { exists [digit_value c1]. digits_found. }
    simpl in Ed. apply andb_true_iff in Ed as [D2 Ed].
    apply is_digit_char in D2 as [E2 R2].
    destruct o as [|c3 o].
    { exists [digit_value c1; digit_value c2]. digits_found. }
    simpl in Ed. apply andb_true_iff in Ed as [D3 Ed].
    apply is_digit_char in D3 as [E3 R3].
    destruct o as [|c4 o].
    { exists [digit_value c1; digit_value c2; digit_value c3]. digits_found. }
    simpl in El. lia. }
  destruct C as (ds & -> & Hlen & Hne & Hds).
  pose proof numerals_canonical as A.
  apply andb_true_iff in A as [A A3]. apply andb_true_iff in A as [A1 A2].
  rewrite forallb_forall in A1, A2, A3.
  assert (K : numeral_canonical ds = true).
  { destruct ds as [|a [|b [|c [|d ds]]]]; [congruence| | | |simpl in Hlen; lia].
    - inversion Hds; subst. apply A1. now apply in_digits.
    - inversion Hds as [|? ? Ha Hds']; subst. inversion Hds'; subst.
      specialize (A2 a (in_digits a Ha)). rewrite forallb_forall in A2.
      apply A2. now apply in_digits.
    - inversion Hds as [|? ? Ha Hds']; subst.
      inversion Hds' as [|? ? Hb Hds'']; subst. inversion Hds''; subst.
      specialize (A3 a (in_digits a Ha)). rewrite forallb_forall in A3.
      specialize (A3 b (in_digits b Hb)). rewrite forallb_forall in A3.
      apply A3. now apply in_digits. }
  unfold numeral_canonical in K. rewrite H in K.
  apply andb_true_iff in K as [K K3]. apply andb_true_iff in K as [K1 K2].
  apply String.eqb_eq in K1. apply Z.leb_le in K2, K3.
  split; [split; assumption | assumption].
Qed.

(** ** Splitting on a separator *)

Lemma split_nonempty sep s : split sep s <> [].
Proof.
  destruct s as [|c s]; simpl; [discriminate|].
  destruct (Ascii.eqb c sep); [discriminate|].
  destruct (split sep s); discriminate.
Qed.

Lemma split_plain sep x : contains_char sep x = false -> split sep x = [x].
Proof.
  induction x as [|c x IH]; simpl; intros H; [reflexivity|].
  apply orb_false_iff in H as [Hc Hx]. rewrite Hc, (IH Hx). reflexivity.
Qed.

Lemma split_app sep x rest :
  contains_char sep x = false ->
  split sep (x ++ String sep rest) = x :: split sep rest.
Proof.
  induction x as [|c x IH]; simpl; intros H.
  - now rewrite Ascii.eqb_refl.
  - apply orb_false_iff in H as [Hc Hx]. rewrite Hc, (IH Hx). reflexivity.
Qed.

Lemma join_split sep s : join sep (split sep s) = s.
Proof.
  induction s as [|c s IH]; simpl; [reflexivity|].
  destruct (Ascii.eqb c sep) eqn:E.
  - apply Ascii.eqb_eq in E. subst c.
    pose proof (split_nonempty sep s) as N.
    destruct (split sep s) as [|p ps]; [congruence|].
    simpl in *. now rewrite IH.
  - pose proof (split_nonempty sep s) as N.
    destruct (split sep s) as [|p ps]; [congruence|].
    destruct ps as [|q qs]; simpl in *; now rewrite <- IH.
Qed.

Lemma contains_char_app c x y :
  contains_char c (x ++ y) = contains_char c x || contains_char c y.
Proof.
  induction x as [|a x IH]; simpl; [reflexivity|].
  now rewrite IH, orb_assoc.
Qed.

(** ** The validator against the dotted-quad notation *)

Lemma parse_octets_quad o1 o2 o3 o4 bs :
  ipaddress.parse_octets [o1; o2; o3; o4] = Ok bs ->
  exists a b c d,
    ipaddress._parse_octet o1 = Ok a /\ ipaddress._parse_octet o2 = Ok b /\
    ipaddress._parse_octet o3 = Ok c /\ ipaddress._parse_octet o4 = Ok d.
Proof.
  simpl.
  destruct (ipaddress._parse_octet o1) as [a|]; [|discriminate].
  destruct (ipaddress._parse_octet o2) as [b|]; [|discriminate].
  destruct (ipaddress._parse_octet o3) as [c|]; [|discriminate].
  destruct (ipaddress._parse_octet o4) as [d|]; [|discriminate].
  intros _. now exists a, b, c, d.
Qed.

Lemma ip_int_from_string_sound s n :
  ipaddress._ip_int_from_string s = Ok n -> dotted_quad s.
Proof.
  unfold ipaddress._ip_int_from_string.
  destruct (String.eqb s ""); [discriminate|].
  destruct (Nat.eqb (List.length (split "." s)) 4) eqn:L; [|discriminate]. simpl.
  apply Nat.eqb_eq in L. pose proof (join_split "." s) as J.
  destruct (split "." s) as [|o1 [|o2 [|o3 [|o4 [|o5 os]]]]]; try discriminate.
  destruct (ipaddress.parse_octets [o1; o2; o3; o4]) as [bs|e] eqn:P;
    [|destruct (is_ValueError e); discriminate].
  intros _. apply parse_octets_quad in P as (a & b & c & d & Pa & Pb & Pc & Pd).
  apply parse_octet_inv in Pa as [Ha ->], Pb as [Hb ->], Pc as [Hc ->], Pd as [Hd ->].
  exists a, b, c, d. repeat (split; [assumption|]). symmetry. exact J.
Qed.

Lemma decimal_octet_nonempty n : decimal_octet n <> "".
Proof.
  unfold decimal_octet. destruct (n <? 10); [discriminate|].
  destruct (n <? 100); discriminate.
Qed.

Lemma ip_int_from_string_complete s :
  dotted_quad s -> exists n, ipaddress._ip_int_from_string s = Ok n.
Proof.
  intros (a & b & c & d & Ha & Hb & Hc & Hd & ->).
  unfold ipaddress._ip_int_from_string.
  assert (E : String.eqb (decimal_octet a ++ "." ++ decimal_octet b ++ "." ++
                          decimal_octet c ++ "." ++ decimal_octet d) "" = false).
  { apply String.eqb_neq. pose proof (decimal_octet_nonempty a).
    destruct (decimal_octet a); [congruence|discriminate]. }
  rewrite E. clear E.
  assert (D : forall x, "." ++ x = String "." x) by reflexivity.
  rewrite !D.
  rewrite (split_app "." (decimal_octet a)) by (apply decimal_octet_plain; auto).
  rewrite (split_app "." (decimal_octet b)) by (apply decimal_octet_plain; auto).
  rewrite (split_app "." (decimal_octet c)) by (apply decimal_octet_plain; auto).
  rewrite (split_plain "." (decimal_octet d)) by (apply decimal_octet_plain; auto).
  simpl. rewrite !parse_octet_decimal by assumption. eauto.
Qed.

Lemma dotted_quad_no_slash s : dotted_quad s -> contains_char "/" s = false.
Proof.
  intros (a & b & c & d & Ha & Hb & Hc & Hd & ->).
  rewrite !contains_char_app, !decimal_octet_plain by auto. reflexivity.
Qed.

Lemma dotted_quad_nonempty s : dotted_quad s -> s <> "".
Proof.
  intros (a & b & c & d & Ha & Hb & Hc & Hd & ->).
  pose proof (decimal_octet_nonempty a).
  destruct (decimal_octet a); [congruence|discriminate].
Qed.

Lemma IPv4Address_string s :
  valid_ipv4 (JStr s) = true <-> dotted_quad s.
Proof.
  unfold valid_ipv4. simpl. split.
  - destruct (contains_char "/" s); [discriminate|].
    destruct (ipaddress._ip_int_from_string s) eqn:E; [|discriminate].
    intros _. eapply ip_int_from_string_sound; eauto.
  - intros H. rewrite (dotted_quad_no_slash s H).
    destruct (ip_int_from_string_complete s H) as [n ->]. reflexivity.
Qed.

Lemma IPv4Address_raises v e :
  ipaddress.IPv4Address v = Raise e -> e = AddressValueError.
Proof.
  assert (P8 : forall o x, ipaddress._parse_octet o = Raise x -> is_ValueError x = true).
  { intros o x. unfold ipaddress._parse_octet.
    repeat match goal with
           | |- context [if ?b then _ else _] => destruct b
           end; intros [= <-]; reflexivity. }
  assert (PS : forall os x, ipaddress.parse_octets os = Raise x -> is_ValueError x = true).
  { induction os as [|o os IH]; simpl; intros x; [discriminate|].
    destruct (ipaddress._parse_octet o) eqn:E.
    - destruct (ipaddress.parse_octets os); [discriminate|].
      intros [= <-]. now apply IH.
    - intros [= <-]. eapply P8; eauto. }
  assert (CI : forall n, ipaddress._check_int_address n = Raise e -> e = AddressValueError).
  { intros n. unfold ipaddress._check_int_address.
    destruct (n <? 0); [congruence|]. destruct (_ <? n); congruence. }
  destruct v; simpl; try congruence; try apply CI.
  destruct (contains_char "/" s); [congruence|].
  unfold ipaddress._ip_int_from_string.
  destruct (String.eqb s ""); [congruence|].
  destruct (negb _); [congruence|].
  destruct (ipaddress.parse_octets (split "." s)) eqn:E; [discriminate|].
  rewrite (PS _ _ E). congruence.
Qed.

Lemma accepted_address_iff v :
  truthy v && valid_ipv4 v = true <-> accepted_address v.
Proof.
  unfold accepted_address. split.
  - intros H. apply andb_true_iff in H as [T V]. destruct v; try discriminate.
    + destruct b; [|discriminate]. now right; right.
    + right; left. exists n. split; [reflexivity|].
      unfold valid_ipv4 in V. simpl in V, T.
      unfold ipaddress._check_int_address, ipaddress._ALL_ONES in V.
      destruct (n <? 0) eqn:A; [discriminate|].
      destruct (2 ^ 32 - 1 <? n) eqn:B; [discriminate|].
      apply negb_true_iff, Z.eqb_neq in T. lia.
    + left. exists s. split; [reflexivity|]. now apply IPv4Address_string.
  - intros [(s & -> & Q) | [(n & -> & R) | ->]].
    + apply andb_true_iff. split; [|now apply IPv4Address_string].
      simpl. apply negb_true_iff, String.eqb_neq. now apply dotted_quad_nonempty.
    + apply andb_true_iff. split.
      * simpl. apply negb_true_iff, Z.eqb_neq. lia.
      * unfold valid_ipv4. simpl.
        unfold ipaddress._check_int_address, ipaddress._ALL_ONES.
        destruct (n <? 0) eqn:A; [lia|]. destruct (2 ^ 32 - 1 <? n) eqn:B; [lia|].
        reflexivity.
    + reflexivity.
Qed.

Lemma counted_iff entry : counted entry = true <-> has_accepted_address entry.
Proof.
  unfold counted, has_accepted_address. destruct (ip_field entry) as [v|].
  - rewrite accepted_address_iff. split.
    + intros H. now exists v.
    + intros (v' & [= <-] & H). exact H.
  - split; [discriminate|]. intros (v & [=] & _).
Qed.

(** ** The counter *)

Lemma count_logged_sigint e s : sigint (count_logged e s) = sigint s.
Proof.
  unfold count_logged. destruct (ip_field e) as [v|]; [|reflexivity].
  destruct (truthy v); [|reflexivity].
  destruct (valid_ipv4 v); apply logged_sigint.
Qed.

Lemma count_logged_threshold e s : threshold (count_logged e s) = threshold s.
Proof.
  unfold count_logged. destruct (ip_field e) as [v|]; [|reflexivity].
  destruct (truthy v); [|reflexivity].
  destruct (valid_ipv4 v); apply logged_threshold.
Qed.

(** The loop body on a truthy address. *)
Lemma count_truthy_quiet v c s :
  sigint s = None ->
  try_except
    (_ <- lift (ipaddress.IPv4Address v) ;;
     log DEBUG [Lit "Valid IPv4 address: "; Str v] ;;;
     ret (c + 1))
    is_ValueError
    (fun _ => log WARNING [Lit "Invalid IPv4 address: "; Str v] ;;; ret c) s
  = if valid_ipv4 v
    then (Ok (c + 1), logged DEBUG [Lit "Valid IPv4 address: "; Str v] s)
    else (Ok c, logged WARNING [Lit "Invalid IPv4 address: "; Str v] s).
Proof.
  intros Q. unfold try_except, bind, lift, valid_ipv4.
  destruct (ipaddress.IPv4Address v) as [a|e] eqn:E.
  - rewrite (log_quiet _ Q). reflexivity.
  - rewrite (IPv4Address_raises v e E). simpl.
    rewrite (log_quiet _ Q). reflexivity.
Qed.

Lemma count_step_quiet e c s :
  is_host_entry e = true -> sigint s = None ->
  count_valid_ips_step e c s = (Ok (if counted e then c + 1 else c), count_logged e s).
Proof.
  intros W Q. unfold count_valid_ips_step, counted, count_logged.
  destruct e as [| | | | | |d]; try discriminate. simpl in W |- *.
  unfold bind at 1. unfold lift at 1.
  destruct (lookup "host" d) as [[| | | | | |hd]|] eqn:H; try discriminate.
  - unfold bind at 1. unfold lift at 1. simpl.
    destruct (lookup "ip_v4_address" hd) as [v|] eqn:F; [|reflexivity].
    destruct (truthy v) eqn:T; [|reflexivity].
    rewrite (count_truthy_quiet v c s Q). simpl.
    destruct (valid_ipv4 v); reflexivity.
  - reflexivity.
Qed.

Lemma printed_lines_logged lvl msg s :
  printed_lines (trace (logged lvl msg s)) = printed_lines (trace s).
Proof.
  unfold logged. destruct (_ <=? _); [|reflexivity]. simpl.
  unfold printed_lines. rewrite flat_map_app. simpl. apply app_nil_r.
Qed.

Lemma count_logged_printed e s :
  printed_lines (trace (count_logged e s)) = printed_lines (trace s).
Proof.
  unfold count_logged. destruct (ip_field e) as [v|]; [|reflexivity].
  destruct (truthy v); [|reflexivity].
  destruct (valid_ipv4 v); apply printed_lines_logged.
Qed.

Lemma count_loop_quiet l : forall c s,
  is_host_list l = true -> sigint s = None ->
  exists s', count_valid_ips_loop l c s = (Ok (c + valid_count l), s')
             /\ sigint s' = None /\ threshold s' = threshold s
             /\ printed_lines (trace s') = printed_lines (trace s).
Proof.
  unfold valid_count.
  induction l as [|e l IH]; intros c s W Q; simpl.
  - exists s. unfold ret. rewrite Z.add_0_r. auto.
  - simpl in W. apply andb_true_iff in W as [We Wl].
    unfold bind. rewrite (count_step_quiet e c s We Q).
    destruct (IH (if counted e then c + 1 else c) (count_logged e s) Wl)
      as (s' & E & Q' & T' & P').
    { now rewrite count_logged_sigint. }
    exists s'. rewrite E. split; [|split; [assumption|split]].
    + f_equal. f_equal. destruct (counted e); simpl List.length; lia.
    + now rewrite T', count_logged_threshold.
    + now rewrite P', count_logged_printed.
Qed.

(** An entry that is no host entry stops the loop with [AttributeError]. *)
Lemma count_step_malformed e c s :
  is_host_entry e = false ->
  exists ty, count_valid_ips_step e c s = (Raise (AttributeError ty "get"), s).
Proof.
  intros W. unfold count_valid_ips_step, bind, lift.
  destruct e as [| | | | | |d]; simpl; eauto.
  simpl in W. destruct (lookup "host" d) as [[| | | | | |hd]|]; simpl; eauto; discriminate.
Qed.

Lemma count_loop_malformed l : forall c s,
  is_host_list l = false -> sigint s = None ->
  exists ty s', count_valid_ips_loop l c s = (Raise (AttributeError ty "get"), s').
Proof.
  induction l as [|e l IH]; intros c s W Q; [discriminate|].
  simpl in W |- *. unfold bind.
  destruct (is_host_entry e) eqn:We.
  - rewrite (count_step_quiet e c s We Q). simpl in W.
    apply IH; [assumption|]. now rewrite count_logged_sigint.
  - destruct (count_step_malformed e c s We) as [ty ->]. eauto.
Qed.

Lemma tally_counted (P : json -> Prop) l :
  (forall e, In e l -> (counted e = true <-> P e)) -> tally P l (valid_count l).
Proof.
  unfold valid_count. induction l as [|e l IH]; intros H.
  - constructor.
  - simpl. destruct (counted e) eqn:C.
    + replace (Z.of_nat (List.length (e :: filter counted l)))
        with (Z.of_nat (List.length (filter counted l)) + 1) by (simpl List.length; lia).
      apply tally_hit.
      * apply H; [now left|exact C].
      * apply IH. intros x Hx. apply H. now right.
    + apply tally_miss.
      * intros Pe. apply H in Pe; [congruence|now left].
      * apply IH. intros x Hx. apply H. now right.
Qed.

Lemma tally_functional (P : json -> Prop) l n m :
  tally P l n -> tally P l m -> n = m.
Proof.
  intros T. revert m. induction T; intros m T'; inversion T'; subst;
    try reflexivity; try contradiction.
  - f_equal. auto.
  - auto.
Qed.

Lemma string_valued_counted e :
  string_valued e -> (counted e = true <-> has_dotted_quad e).
Proof.
  intros S. rewrite counted_iff. unfold has_accepted_address, has_dotted_quad.
  unfold string_valued in S. split.
  - intros (v & F & [(s & -> & Q) | [(n & -> & _) | ->]]); rewrite F in S;
      try contradiction. now exists s.
  - intros (s & F & Q). exists (JStr s). split; [assumption|]. left. now exists s.
Qed.

Lemma absent_or_null_skipped e c s :
  is_host_entry e = true -> ip_field e = None \/ ip_field e = Some JNull ->
  count_valid_ips_step e c s = (Ok c, s).
Proof.
  intros W F. unfold count_valid_ips_step, bind, lift.
  destruct e as [| | | | | |d]; try discriminate. simpl in *.
  destruct (lookup "host" d) as [[| | | | | |hd]|]; try discriminate; simpl; [|reflexivity].
  destruct (lookup "ip_v4_address" hd) as [v|]; [|reflexivity].
  destruct F as [F|F]; [discriminate|]. injection F as ->. reflexivity.
Qed.

(** C1, as amended.  On every host list (dictionaries that optionally carry
    a nested ["host"] mapping) [count_valid_ips] returns, unless interrupted,
    the number of entries whose [host.ip_v4_address] is accepted by
    [ipaddress.IPv4Address]: a strictly well-formed dotted quad, or a
    non-zero integer below [2^32] (with [true] as 1).  When every field is a
    string, null or absent that is the number of dotted-quad fields.  An
    absent or null field is skipped: no count, no exception, no log record. *)
Theorem count_valid_ips_tally (host_list : list json) (s : state) :
  is_host_list host_list = true -> sigint s = None ->
  (exists n s',
      count_valid_ips host_list s = (Ok n, s') /\
      tally has_accepted_address host_list n /\
      (Forall string_valued host_list -> tally has_dotted_quad host_list n)) /\
  (forall e c s0,
      is_host_entry e = true -> ip_field e = None \/ ip_field e = Some JNull ->
      count_valid_ips_step e c s0 = (Ok c, s0)).
Proof.
  intros W Q. split; [|intros; now apply absent_or_null_skipped].
  destruct (count_loop_quiet host_list 0 s W Q) as (s' & E & _ & _).
  exists (valid_count host_list), s'. split; [exact E|]. split.
  - apply tally_counted. intros e _. apply counted_iff.
  - intros S. apply tally_counted. intros e He. apply string_valued_counted.
    rewrite Forall_forall in S. now apply S.
Qed.

Lemma count_valid_ips_tally_witness :
  is_host_list sample_hosts = true /\ sigint (initial_state None) = None /\
  ((exists n s',
       count_valid_ips sample_hosts (initial_state None) = (Ok n, s') /\
       tally has_accepted_address sample_hosts n /\
       (Forall string_valued sample_hosts -> tally has_dotted_quad sample_hosts n)) /\
   (forall e c s0,
       is_host_entry e = true -> ip_field e = None \/ ip_field e = Some JNull ->
       count_valid_ips_step e c s0 = (Ok c, s0))).
Proof.
  split; [reflexivity|]. split; [reflexivity|].
  apply (count_valid_ips_tally sample_hosts (initial_state None)); reflexivity.
Defined.

(** The repository's own test, and the entry without an address of the
    specification's examples. *)
Example test_count_valid_ips :
  fst (count_valid_ips [host_entry (JStr "192.168.1.100"); host_entry (JStr "invalid_ip")]
         (initial_state None)) = Ok 1
  /\ fst (count_valid_ips [JDict [("host", JDict [])]] (initial_state None)) = Ok 0.
Proof. split; reflexivity. Qed.

(** C1 as stated fails: an integer field is counted although it is no
    dotted-quad literal. *)
Lemma count_valid_ips_counts_integer :
  let host_list := [host_entry (JInt 1)] in
  is_host_list host_list = true /\
  fst (count_valid_ips host_list (initial_state None)) = Ok 1 /\
  tally has_dotted_quad host_list 0 /\
  ~ tally has_dotted_quad host_list 1.
Proof.
  assert (T : tally has_dotted_quad [host_entry (JInt 1)] 0).
  { apply tally_miss; [|constructor]. intros (s & F & _). discriminate. }
  repeat split; try reflexivity; try exact T.
  intros T1. pose proof (tally_functional _ _ _ _ T T1). discriminate.
Qed.

(** ** Order of the entries *)

Lemma valid_count_perm l l' : Permutation l l' -> valid_count l = valid_count l'.
Proof.
  unfold valid_count. intros P. f_equal.
  induction P as [|x l l' P IH|x y l|l l' l'' P1 IH1 P2 IH2]; simpl.
  - reflexivity.
  - destruct (counted x); simpl; now rewrite IH.
  - destruct (counted x), (counted y); reflexivity.
  - now rewrite IH1.
Qed.

Lemma is_host_list_perm l l' : Permutation l l' -> is_host_list l = is_host_list l'.
Proof.
  unfold is_host_list.
  induction 1 as [|x l l' P IH|x y l|l l' l'' P1 IH1 P2 IH2]; simpl.
  - reflexivity.
  - now rewrite IH.
  - destruct (is_host_entry x), (is_host_entry y); reflexivity.
  - now rewrite IH1.
Qed.

(** C5.  Unless interrupted, [count_valid_ips] gives the same result on a
    host list and on any permutation of it: the same count, which tallies
    every entry of the list, or, when some entry is no host entry, an
    [AttributeError] either way. *)
Theorem count_valid_ips_permutation (l l' : list json) (s : state) :
  Permutation l l' -> sigint s = None ->
  (exists s1 s2,
      count_valid_ips l s = (Ok (valid_count l), s1) /\
      count_valid_ips l' s = (Ok (valid_count l), s2) /\
      tally has_accepted_address l (valid_count l) /\
      tally has_accepted_address l' (valid_count l)) \/
  (is_host_list l = false /\
   exists ty1 ty2 s1 s2,
      count_valid_ips l s = (Raise (AttributeError ty1 "get"), s1) /\
      count_valid_ips l' s = (Raise (AttributeError ty2 "get"), s2)).
Proof.
  intros P Q. destruct (is_host_list l) eqn:W.
  - left.
    destruct (count_loop_quiet l 0 s W Q) as (s1 & E1 & _).
    assert (W' : is_host_list l' = true) by now rewrite <- (is_host_list_perm l l' P).
    destruct (count_loop_quiet l' 0 s W' Q) as (s2 & E2 & _).
    exists s1, s2. unfold count_valid_ips.
    rewrite E1, E2, <- (valid_count_perm l l' P).
    split; [reflexivity|]. split; [reflexivity|]. split.
    + apply tally_counted. intros e _. apply counted_iff.
    + rewrite (valid_count_perm l l' P). apply tally_counted. intros e _. apply counted_iff.
  - right. split; [reflexivity|].
    destruct (count_loop_malformed l 0 s W Q) as (ty1 & s1 & E1).
    assert (W' : is_host_list l' = false) by now rewrite <- (is_host_list_perm l l' P).
    destruct (count_loop_malformed l' 0 s W' Q) as (ty2 & s2 & E2).
    exists ty1, ty2, s1, s2. auto.
Qed.

Lemma count_valid_ips_permutation_witness :
  Permutation sample_hosts (rev sample_hosts) /\ sigint (initial_state None) = None /\
  ((exists s1 s2,
       count_valid_ips sample_hosts (initial_state None) = (Ok (valid_count sample_hosts), s1) /\
       count_valid_ips (rev sample_hosts) (initial_state None)
         = (Ok (valid_count sample_hosts), s2) /\
       tally has_accepted_address sample_hosts (valid_count sample_hosts) /\
       tally has_accepted_address (rev sample_hosts) (valid_count sample_hosts)) \/
   (is_host_list sample_hosts = false /\
    exists ty1 ty2 s1 s2,
       count_valid_ips sample_hosts (initial_state None)
         = (Raise (AttributeError ty1 "get"), s1) /\
       count_valid_ips (rev sample_hosts) (initial_state None)
         = (Raise (AttributeError ty2 "get"), s2))).
Proof.
  split; [apply Permutation_rev|]. split; [reflexivity|].
  apply (count_valid_ips_permutation sample_hosts (rev sample_hosts) (initial_state None));
    [apply Permutation_rev|reflexivity].
Defined.

(** ** Falsy addresses *)

Lemma falsy_address_skipped e v c s :
  ip_field e = Some v -> truthy v = false ->
  count_valid_ips_step e c s = (Ok c, s).
Proof.
  intros F T. unfold count_valid_ips_step, bind, lift.
  destruct e as [| | | | | |d]; try discriminate. simpl in *.
  destruct (lookup "host" d) as [[| | | | | |hd]|]; try discriminate; simpl.
  rewrite F, T. reflexivity.
Qed.

Lemma count_loop_same_step e e' :
  (forall c s, count_valid_ips_step e c s = count_valid_ips_step e' c s) ->
  forall pre post c s,
    count_valid_ips_loop (pre ++ e :: post) c s = count_valid_ips_loop (pre ++ e' :: post) c s.
Proof.
  intros H pre post. induction pre as [|x pre IH]; intros c s; simpl; unfold bind.
  - now rewrite H.
  - destruct (count_valid_ips_step x c s) as [[c'|err] s']; [apply IH|reflexivity].
Qed.

(** C10.  An entry whose [host.ip_v4_address] is falsy (the empty string,
    zero, [false], an empty list or dictionary, null) is treated exactly
    like an entry without the field: the loop body leaves count and state
    as they are (no count, no warning), and the whole count, with its log,
    is the same whichever of the two entries stands in the list. *)
Theorem falsy_address_like_absent (e e' v : json) :
  ip_field e = Some v -> truthy v = false ->
  is_host_entry e' = true -> ip_field e' = None ->
  (forall c s, count_valid_ips_step e c s = (Ok c, s) /\
               count_valid_ips_step e' c s = (Ok c, s)) /\
  (forall pre post s,
      count_valid_ips (pre ++ e :: post) s = count_valid_ips (pre ++ e' :: post) s).
Proof.
  intros F T W' F'.
  assert (S : forall c s, count_valid_ips_step e c s = (Ok c, s) /\
                          count_valid_ips_step e' c s = (Ok c, s)).
  { intros c s. split; [eapply falsy_address_skipped; eauto|].
    apply absent_or_null_skipped; auto. }
  split; [exact S|]. intros pre post s. unfold count_valid_ips.
  apply count_loop_same_step. intros c s0. destruct (S c s0) as [-> ->]. reflexivity.
Qed.

Lemma falsy_address_like_absent_witness :
  ip_field (host_entry (JStr "")) = Some (JStr "") /\ truthy (JStr "") = false /\
  is_host_entry (JDict [("host", JDict [])]) = true /\
  ip_field (JDict [("host", JDict [])]) = None /\
  ((forall c s, count_valid_ips_step (host_entry (JStr "")) c s = (Ok c, s) /\
                count_valid_ips_step (JDict [("host", JDict [])]) c s = (Ok c, s)) /\
   (forall pre post s,
       count_valid_ips (pre ++ host_entry (JStr "") :: post) s
       = count_valid_ips (pre ++ JDict [("host", JDict [])] :: post) s)).
Proof.
  repeat (split; [reflexivity|]).
  apply (falsy_address_like_absent (host_entry (JStr "")) (JDict [("host", JDict [])])
           (JStr "")); reflexivity.
Defined.

(** ** The four malformed literals *)

(** C4, as amended.  The counter of [network_discovery_parser.py] rejects
    each of ["256.1.1.1"], ["1.2.3"], ["1.2.3.4.5"] and [" 1.2.3.4"]: a
    one-entry list holding it counts 0.  The older counter, built on
    [socket.inet_aton], rejects three of them and accepts ["1.2.3"], which
    [inet_aton] reads as 1.2.0.3. *)
Theorem malformed_literals_rejected :
  Forall (fun lit => forall tr th,
            fst (count_valid_ips [host_entry (JStr lit)] (mkState tr th None)) = Ok 0)
         malformed_literals /\
  Forall (fun lit => Legacy.count_valid_ips [host_entry (JStr lit)] = Ok 0)
         ["256.1.1.1"; "1.2.3.4.5"; " 1.2.3.4"] /\
  Legacy.inet_aton "1.2.3" = Some (1 * 2 ^ 24 + 2 * 2 ^ 16 + 3) /\
  Legacy.count_valid_ips [host_entry (JStr "1.2.3")] = Ok 1.
Proof.
  split.
  - repeat constructor; intros tr th; unfold count_valid_ips; simpl;
      unfold bind, count_valid_ips_step, bind, lift; simpl;
      unfold try_except, bind, lift; simpl;
      unfold log, bind, tick; simpl;
      destruct (level_rank th <=? 30); reflexivity.
  - split; [repeat constructor|]. split; reflexivity.
Qed.

(** C4 as stated fails for the older script: it counts ["1.2.3"]. *)
Lemma legacy_counts_three_part_literal :
  In "1.2.3" malformed_literals /\
  Legacy.count_valid_ips [host_entry (JStr "1.2.3")] <> Ok 0.
Proof.
  split; [right; left; reflexivity|]. vm_compute. discriminate.
Qed.

(** ** Runs that return *)

Lemma bind_ok {A B} (m : M A) (k : A -> M B) s b s' :
  bind m k s = (Ok b, s') -> exists a s1, m s = (Ok a, s1) /\ k a s1 = (Ok b, s').
Proof.
  unfold bind. destruct (m s) as [[a|e] s1]; [eauto|discriminate].
Qed.

Lemma tick_ok s u s' : tick s = (Ok u, s') -> trace s' = trace s /\ threshold s' = threshold s.
Proof.
  unfold tick. destruct (sigint s) as [[|k]|]; [discriminate| |];
    intros [= <- <-]; now split.
Qed.

Lemma print_ok line s u s' :
  print line s = (Ok u, s') ->
  trace s' = (trace s ++ [EPrint line])%list /\ threshold s' = threshold s /\
  encodable line = true.
Proof.
  intros H. unfold print in H. apply bind_ok in H as ([] & s1 & T & H).
  apply tick_ok in T as [T1 T2].
  destruct (encodable line); [|discriminate].
  unfold emit in H. injection H as _ <-. simpl. rewrite T1, T2. now repeat split.
Qed.

Lemma log_ok lvl msg s u s' :
  log lvl msg s = (Ok u, s') ->
  trace s' = (trace s ++ if level_rank (threshold s) <=? level_rank lvl
                         then [ELog lvl msg] else [])%list /\
  threshold s' = threshold s.
Proof.
  intros H. unfold log in H. apply bind_ok in H as ([] & s1 & T & H).
  apply tick_ok in T as [T1 T2]. rewrite T2 in H.
  destruct (level_rank (threshold s) <=? level_rank lvl).
  - unfold emit in H. injection H as _ <-. simpl. rewrite T1, T2. now split.
  - injection H as _ <-. rewrite T1, T2, app_nil_r. now split.
Qed.

Lemma printed_all_nil s : printed_all [] s = s.
Proof. unfold printed_all. simpl. rewrite app_nil_r. now destruct s. Qed.

Lemma printed_all_cons line lines s :
  printed_all lines (printed line s) = printed_all (line :: lines) s.
Proof. unfold printed_all, printed. simpl. now rewrite <- app_assoc. Qed.

Lemma printed_all_app l1 l2 s :
  printed_all l2 (printed_all l1 s) = printed_all (l1 ++ l2) s.
Proof. unfold printed_all. simpl. now rewrite map_app, app_assoc. Qed.

Lemma print_then_quiet lines k : forall s,
  forallb encodable lines = true -> sigint s = None ->
  print_then lines k s = k (printed_all lines s).
Proof.
  induction lines as [|line rest IH]; intros s E Q; simpl.
  - now rewrite printed_all_nil.
  - simpl in E. apply andb_true_iff in E as [E1 E2].
    unfold bind. rewrite (print_quiet s Q line E1).
    rewrite IH by (exact E2 || exact Q). now rewrite printed_all_cons.
Qed.

Lemma print_then_ok lines k : forall s u s',
  print_then lines k s = (Ok u, s') ->
  exists s1, k s1 = (Ok u, s') /\
             trace s1 = (trace s ++ map EPrint lines)%list /\
             threshold s1 = threshold s /\
             forallb encodable lines = true.
Proof.
  induction lines as [|line rest IH]; intros s u s' H; simpl in H |- *.
  - exists s. rewrite app_nil_r. now repeat split.
  - apply bind_ok in H as ([] & s0 & P & H).
    apply print_ok in P as (P1 & P2 & P3).
    apply IH in H as (s1 & K & T1 & T2 & E).
    exists s1. split; [exact K|]. split; [|split].
    + rewrite T1, P1, <- app_assoc. reflexivity.
    + congruence.
    + now rewrite P3, E.
Qed.

(** ** Invariants carried through the monad *)

Section Preserved.

Variable R : state -> state -> Prop.
Hypothesis R_refl : forall s, R s s.
Hypothesis R_trans : forall s1 s2 s3, R s1 s2 -> R s2 s3 -> R s1 s3.

Lemma preserves_ret {A} (a : A) : preserves R (ret a).
Proof. intros s r s' [= <- <-]. apply R_refl. Qed.

Lemma preserves_raise {A} e : preserves R (@raise A e).
Proof. intros s r s' [= <- <-]. apply R_refl. Qed.

Lemma preserves_lift {A} (x : result A) : preserves R (lift x).
Proof. intros s r s' [= <- <-]. apply R_refl. Qed.

Lemma preserves_bind {A B} (m : M A) (k : A -> M B) :
  preserves R m -> (forall a, preserves R (k a)) -> preserves R (bind m k).
Proof.
  intros Hm Hk s r s'. unfold bind.
  destruct (m s) as [[a|e] s1] eqn:E.
  - intros H. eapply R_trans; [eapply Hm; eauto|eapply Hk; eauto].
  - intros [= <- <-]. eapply Hm; eauto.
Qed.

Lemma preserves_try {A} (body : M A) catches handler :
  preserves R body -> (forall e, preserves R (handler e)) ->
  preserves R (try_except body catches handler).
Proof.
  intros Hb Hh s r s'. unfold try_except.
  destruct (body s) as [[a|e] s1] eqn:E.
  - intros [= <- <-]. eapply Hb; eauto.
  - destruct (catches e).
    + intros H. eapply R_trans; [eapply Hb; eauto|eapply Hh; eauto].
    + intros [= <- <-]. eapply Hb; eauto.
Qed.

End Preserved.

Lemma only_records_refl s : only_records s s.
Proof. exists []. split; [now rewrite app_nil_r|reflexivity]. Qed.

Lemma only_records_trans s1 s2 s3 :
  only_records s1 s2 -> only_records s2 s3 -> only_records s1 s3.
Proof.
  intros (r1 & E1 & F1) (r2 & E2 & F2). exists (r1 ++ r2)%list. split.
  - rewrite E2, E1. now rewrite app_assoc.
  - now rewrite forallb_app, F1, F2.
Qed.

Lemma same_threshold_refl s : same_threshold s s.
Proof. reflexivity. Qed.

Lemma same_threshold_trans s1 s2 s3 :
  same_threshold s1 s2 -> same_threshold s2 s3 -> same_threshold s1 s3.
Proof. unfold same_threshold. congruence. Qed.

Create HintDb preserved.

Lemma tick_only_records : preserves only_records tick.
Proof.
  intros s r s'. unfold tick.
  destruct (sigint s) as [[|k]|]; intros [= <- <-]; exists []; simpl;
    now rewrite app_nil_r.
Qed.

Lemma log_only_records lvl msg : preserves only_records (log lvl msg).
Proof.
  apply (preserves_bind _ only_records_trans); [apply tick_only_records|].
  intros _ s r s'. unfold emit.
  destruct (_ <=? _); intros [= <- <-]; [|apply only_records_refl].
  exists [ELog lvl msg]. now split.
Qed.

Lemma log_same_threshold lvl msg : preserves same_threshold (log lvl msg).
Proof.
  intros s r s'. unfold log, bind, tick, emit, same_threshold.
  destruct (sigint s) as [[|k]|]; simpl;
    try destruct (_ <=? _); intros [= <- <-]; reflexivity.
Qed.

#[local] Hint Resolve log_only_records log_same_threshold tick_only_records : preserved.

Ltac preserved Rr Rt :=
  repeat first
    [ solve [auto with preserved]
    | apply (preserves_lift _ Rr)
    | apply (preserves_ret _ Rr)
    | apply (preserves_raise _ Rr)
    | apply (preserves_bind _ Rt); [|intros ?]
    | apply (preserves_try _ Rt); [|intros ?]
    | match goal with
      | |- preserves _ (if ?b then _ else _) => destruct b
      | |- preserves _ (match ?x with _ => _ end) => destruct x
      end ].

Lemma count_step_only_records e c : preserves only_records (count_valid_ips_step e c).
Proof.
  unfold count_valid_ips_step.
  preserved only_records_refl only_records_trans.
Qed.

Lemma count_step_same_threshold e c : preserves same_threshold (count_valid_ips_step e c).
Proof.
  unfold count_valid_ips_step.
  preserved same_threshold_refl same_threshold_trans.
Qed.

Lemma count_loop_preserves (R : state -> state -> Prop) :
  (forall s, R s s) -> (forall s1 s2 s3, R s1 s2 -> R s2 s3 -> R s1 s3) ->
  (forall e c, preserves R (count_valid_ips_step e c)) ->
  forall l c, preserves R (count_valid_ips_loop l c).
Proof.
  intros Rr Rt Hs. induction l as [|e l IH]; intros c; simpl.
  - now apply preserves_ret.
  - apply (preserves_bind _ Rt); [apply Hs|intros; apply IH].
Qed.

(** *** What records leave on standard output *)

Lemma printed_lines_app tr1 tr2 :
  printed_lines (tr1 ++ tr2) = (printed_lines tr1 ++ printed_lines tr2)%list.
Proof. unfold printed_lines. apply flat_map_app. Qed.

Lemma printed_lines_records records :
  forallb is_record records = true -> printed_lines records = [].
Proof.
  induction records as [|ev rest IH]; [reflexivity|].
  simpl. intros H. apply andb_true_iff in H as [H1 H2].
  destruct ev; try discriminate. simpl. now apply IH.
Qed.

Lemma only_records_printed s s' :
  only_records s s' -> printed_lines (trace s') = printed_lines (trace s).
Proof.
  intros (records & -> & F).
  now rewrite printed_lines_app, (printed_lines_records _ F), app_nil_r.
Qed.

Lemma stdout_from_app tr1 : forall consoles tr2,
  stdout_from consoles (tr1 ++ tr2)
  = (stdout_from consoles tr1 ++ stdout_from (consoles_after consoles tr1) tr2)%list.
Proof.
  induction tr1 as [|ev rest IH]; intros consoles tr2; [reflexivity|].
  destruct ev as [line|pieces|line|lvl msg|[h|path h]]; simpl; rewrite IH;
    try reflexivity.
  now rewrite <- app_assoc.
Qed.

Lemma stdout_records records : forall consoles,
  forallb is_record records = true ->
  Forall (fun out => exists lvl msg, out = Logged lvl msg) (stdout_from consoles records) /\
  stdout_from [] records = [] /\
  consoles_after consoles records = consoles.
Proof.
  induction records as [|ev rest IH]; intros consoles H.
  - repeat split. constructor.
  - simpl in H. apply andb_true_iff in H as [H1 H2].
    destruct ev as [line|pieces|line|lvl msg|h]; try discriminate.
    destruct (IH consoles H2) as (F & N & C). simpl. repeat split.
    + apply Forall_app. split; [|exact F].
      unfold record_lines. destruct (encodable msg); [|constructor].
      induction (writing consoles lvl); simpl; constructor; eauto.
    + unfold record_lines. simpl. destruct (encodable msg); exact N.
    + exact C.
Qed.

Lemma stdout_printed consoles lines :
  stdout_from consoles (map EPrint lines) = map Printed lines.
Proof. induction lines as [|l rest IH]; simpl; [reflexivity|now rewrite IH]. Qed.

(** ** The presenter *)

Lemma host_block_encodable index e :
  printable_entry e = true -> forallb encodable (host_block index e) = true.
Proof.
  unfold printable_entry, field_names, host_block. cbn [forallb].
  intros H. repeat (apply andb_true_iff in H as [? H]).
  unfold encodable. cbn [forallb].
  repeat match goal with
         | E : encodable_piece _ = true |- _ => rewrite E; clear E
         end.
  reflexivity.
Qed.

Lemma extract_step_lines index e s :
  is_host_entry e = true ->
  extract_host_step index e s
  = print_then (host_block index e) (log DEBUG (processed_record index e)) s.
Proof.
  intros W. destruct e as [| | | | | |d]; try discriminate. simpl in W.
  unfold extract_host_step, host_block, processed_record, host_data_of, field_or_NA.
  unfold bind at 1. unfold lift at 1. cbn [py_get].
  destruct (lookup "host" d) as [[| | | | | |hd]|]; try discriminate; reflexivity.
Qed.

Lemma extract_step_quiet index e s :
  is_host_entry e = true -> printable_entry e = true -> sigint s = None ->
  extract_host_step index e s
  = (Ok tt, mkState (trace s ++ block_events (threshold s) index e) (threshold s) None).
Proof.
  intros W P Q. rewrite (extract_step_lines index e s W).
  rewrite print_then_quiet by (exact Q || now apply host_block_encodable).
  rewrite log_quiet by exact Q.
  destruct s as [tr th si]. cbn [sigint] in Q. subst si.
  unfold logged, printed_all, block_events. cbn [trace threshold sigint].
  destruct (_ <=? _); [now rewrite <- app_assoc|now rewrite app_nil_r].
Qed.

Lemma extract_loop_quiet l : forall k s,
  is_host_list l = true -> printable l = true -> sigint s = None ->
  extract_host_data_loop l (Z.of_nat k) s
  = (Ok tt, mkState (trace s ++ presentation_events (threshold s) k l) (threshold s) None).
Proof.
  induction l as [|e l IH]; intros k s W P Q.
  - destruct s as [tr th si]. simpl in Q. subst si. simpl.
    unfold ret, presentation_events. simpl. now rewrite app_nil_r.
  - simpl in W, P. apply andb_true_iff in W as [We Wl]. apply andb_true_iff in P as [Pe Pl].
    simpl. unfold bind. rewrite (extract_step_quiet _ e s We Pe Q).
    replace (Z.of_nat k + 1) with (Z.of_nat (S k)) by lia.
    rewrite IH by (auto; reflexivity). simpl.
    unfold presentation_events, numbered. simpl. now rewrite <- app_assoc.
Qed.

Lemma printed_block th index e :
  printed_lines (block_events th index e) = host_block index e.
Proof.
  unfold block_events. rewrite printed_lines_app.
  assert (P : forall lines, printed_lines (map EPrint lines) = lines).
  { induction lines as [|l rest IH]; [reflexivity|]. simpl. now rewrite IH. }
  rewrite P. destruct (_ <=? _); apply app_nil_r.
Qed.

Lemma printed_presentation th l : forall k,
  printed_lines (presentation_events th k l)
  = flat_map (fun '(i, entry) => host_block (Z.of_nat i) entry) (numbered k l).
Proof.
  unfold presentation_events, numbered.
  induction l as [|e l IH]; intros k; [reflexivity|].
  cbn [flat_map combine seq Datatypes.length].
  rewrite printed_lines_app, printed_block, IH. reflexivity.
Qed.

Lemma presentation_length l : forall k,
  List.length (flat_map (fun '(i, entry) => host_block (Z.of_nat i) entry) (numbered k l))
  = (8 * List.length l)%nat.
Proof.
  unfold numbered. induction l as [|e l IH]; intros k; [reflexivity|].
  cbn [flat_map combine seq Datatypes.length].
  rewrite length_app, IH. simpl. lia.
Qed.

(** *** Presenting and counting, when they return *)

Lemma extract_step_ok index e s u s' :
  extract_host_step index e s = (Ok u, s') ->
  is_host_entry e = true /\ printable_entry e = true /\
  trace s' = (trace s ++ block_events (threshold s) index e)%list /\
  threshold s' = threshold s.
Proof.
  intros H.
  assert (W : is_host_entry e = true).
  { unfold extract_host_step in H. apply bind_ok in H as (hd & s1 & G & H).
    apply bind_ok in H as (x & s2 & G2 & _).
    unfold lift in G, G2. injection G as G _. injection G2 as G2 _.
    destruct e as [| | | | | |d]; try discriminate. simpl in G. injection G as <-.
    simpl. destruct (lookup "host" d) as [[| | | | | |h]|]; try discriminate; reflexivity. }
  split; [exact W|]. rewrite (extract_step_lines index e s W) in H.
  apply print_then_ok in H as (s1 & L & T1 & T2 & E).
  apply log_ok in L as [L1 L2]. split; [|split].
  - unfold printable_entry, field_names. unfold host_block in E. cbn [forallb] in E |- *.
    unfold encodable in E. cbn [forallb] in E.
    repeat (apply andb_true_iff in E as [? E]).
    repeat match goal with
           | X : (_ && (encodable_piece ?p && true))%bool = true |- _ =>
               apply andb_true_iff in X as [_ X]; apply andb_true_iff in X as [X _];
               rewrite X
           end.
    reflexivity.
  - unfold block_events. rewrite L1, T1, T2, <- app_assoc. reflexivity.
  - congruence.
Qed.

Lemma extract_loop_ok l : forall k s u s',
  extract_host_data_loop l (Z.of_nat k) s = (Ok u, s') ->
  is_host_list l = true /\ printable l = true /\
  trace s' = (trace s ++ presentation_events (threshold s) k l)%list /\
  threshold s' = threshold s.
Proof.
  induction l as [|e l IH]; intros k s u s' H; simpl in H.
  - injection H as _ <-. unfold presentation_events. simpl.
    rewrite app_nil_r. now repeat split.
  - apply bind_ok in H as ([] & s1 & E & H).
    apply extract_step_ok in E as (W & P & T1 & T2).
    replace (Z.of_nat k + 1) with (Z.of_nat (S k)) in H by lia.
    apply IH in H as (Wl & Pl & T3 & T4). simpl. rewrite W, P, Wl, Pl.
    repeat split; [|congruence].
    rewrite T3, T1, T2. unfold presentation_events, numbered. simpl.
    now rewrite <- app_assoc.
Qed.

Lemma count_step_ok e c s c' s' :
  count_valid_ips_step e c s = (Ok c', s') ->
  is_host_entry e = true /\ c' = (if counted e then c + 1 else c).
Proof.
  intros H. unfold count_valid_ips_step in H.
  apply bind_ok in H as (hd & s1 & G & H).
  apply bind_ok in H as (v & s2 & G2 & H).
  unfold lift in G, G2. injection G as G _. injection G2 as G2 _.
  destruct e as [| | | | | |d]; try discriminate. simpl in G. injection G as <-.
  unfold counted, ip_field. simpl.
  destruct (lookup "host" d) as [[| | | | | |h]|]; try discriminate.
  - simpl in G2. injection G2 as <-.
    split; [reflexivity|].
    destruct (lookup "ip_v4_address" h) as [v|].
    + destruct (truthy v) eqn:T; [|now injection H as <-].
      unfold try_except in H. unfold valid_ipv4.
      destruct (ipaddress.IPv4Address v) as [a|x] eqn:I.
      * unfold bind at 1 in H. unfold lift at 1 in H. cbv beta iota in H.
        destruct (bind _ _ s2) as [[r|x] s3] eqn:B; [|destruct (is_ValueError x) eqn:V].
        -- apply bind_ok in B as ([] & s4 & _ & B). injection B as <- _.
           now injection H as <-.
        -- exfalso. unfold bind in B.
           destruct (log DEBUG _ s2) as [[[]|y] s4] eqn:L; [discriminate|].
           injection B as -> _. unfold log, bind, tick in L.
           destruct (sigint s2) as [[|k]|]; try destruct (_ <=? _); try discriminate.
           injection L as <- _. discriminate.
        -- discriminate.
      * unfold bind at 1 in H. unfold lift at 1 in H. cbv beta iota in H.
        rewrite (IPv4Address_raises v x I) in H. simpl in H.
        apply bind_ok in H as ([] & s4 & _ & H). now injection H as <-.
    + simpl in H. now injection H as <-.
  - simpl in G2. injection G2 as <-. simpl in H. split; [reflexivity|].
    now injection H as <-.
Qed.

Lemma count_loop_ok l : forall c s n s',
  count_valid_ips_loop l c s = (Ok n, s') ->
  is_host_list l = true /\ n = c + valid_count l.
Proof.
  unfold valid_count.
  induction l as [|e l IH]; intros c s n s' H; simpl in H.
  - injection H as <- _. simpl. split; [reflexivity|lia].
  - apply bind_ok in H as (c' & s1 & E & H).
    apply count_step_ok in E as [W ->]. apply IH in H as [Wl ->].
    simpl. rewrite W, Wl. split; [reflexivity|].
    destruct (counted e); simpl List.length; lia.
Qed.

Lemma presentation_events_plain th l : forall k,
  (level_rank th <=? level_rank DEBUG) = false ->
  presentation_events th k l
  = map EPrint (flat_map (fun '(i, entry) => host_block (Z.of_nat i) entry) (numbered k l)).
Proof.
  unfold presentation_events, numbered, block_events. intros k H. rewrite H. revert k.
  induction l as [|e l IH]; intros k; [reflexivity|].
  cbn [flat_map combine seq Datatypes.length].
  now rewrite IH, map_app, app_nil_r.
Qed.

(** C8, as amended.  On every host list whose fields standard output can
    encode, and unless interrupted, [extract_host_data] returns normally
    after printing one block per entry, in sequence order and numbered from
    1: a header preceded by a blank line, then the seven fields [host_id],
    [mac_address], [ip_v4_address], [ip_v4_subnet], [ip_v6_address],
    [mdns_name], [user_name], each shown as ["N/A"] when missing.  The only
    other events are the logger's [DEBUG] records, one after each block
    when the threshold is [DEBUG]; at any other threshold standard output
    receives the blocks and nothing else.  On the empty list nothing is
    printed. *)
Theorem extract_host_data_presents (host_list : list json) (s : state) :
  is_host_list host_list = true -> printable host_list = true -> sigint s = None ->
  (exists s',
      extract_host_data host_list s = (Ok tt, s') /\
      trace s' = (trace s ++ presentation_events (threshold s) 1 host_list)%list /\
      printed_lines (trace s') = (printed_lines (trace s) ++ presentation host_list)%list /\
      List.length (presentation host_list) = (8 * List.length host_list)%nat /\
      (threshold s <> DEBUG ->
       standard_output (trace s')
       = (standard_output (trace s) ++ map Printed (presentation host_list))%list)) /\
  extract_host_data [] s = (Ok tt, s).
Proof.
  intros W P Q. split; [|reflexivity].
  unfold extract_host_data. change 1 with (Z.of_nat 1).
  rewrite (extract_loop_quiet host_list 1%nat s W P Q).
  eexists. split; [reflexivity|]. split; [reflexivity|]. split; [|split].
  - simpl. rewrite printed_lines_app, printed_presentation. reflexivity.
  - apply presentation_length.
  - intros D. cbn [trace]. unfold standard_output.
    rewrite stdout_from_app, presentation_events_plain, stdout_printed; [reflexivity|].
    destruct (threshold s); try reflexivity. now destruct D.
Qed.

Lemma extract_host_data_presents_witness :
  is_host_list sample_hosts = true /\ printable sample_hosts = true /\
  sigint (initial_state None) = None /\
  ((exists s',
       extract_host_data sample_hosts (initial_state None) = (Ok tt, s') /\
       trace s' = (trace (initial_state None)
                   ++ presentation_events (threshold (initial_state None)) 1 sample_hosts)%list /\
       printed_lines (trace s')
       = (printed_lines (trace (initial_state None)) ++ presentation sample_hosts)%list /\
       List.length (presentation sample_hosts) = (8 * List.length sample_hosts)%nat /\
       (threshold (initial_state None) <> DEBUG ->
        standard_output (trace s')
        = (standard_output (trace (initial_state None))
           ++ map Printed (presentation sample_hosts))%list)) /\
   extract_host_data [] (initial_state None) = (Ok tt, initial_state None)).
Proof.
  split; [reflexivity|]. split; [reflexivity|]. split; [reflexivity|].
  apply (extract_host_data_presents sample_hosts (initial_state None)); reflexivity.
Defined.

(** C8 as stated fails: on a host list that [json.load] can build, with a
    [host_id] standard output cannot encode, [extract_host_data] writes the
    header of the block and then raises [UnicodeEncodeError]; the seven
    field lines are not written. *)
Lemma unencodable_field_stops_presenter :
  is_host_list [JDict [("host", JDict [("host_id", JStr lone_surrogate)])]] = true /\
  extract_host_data [JDict [("host", JDict [("host_id", JStr lone_surrogate)])]]
    (initial_state None)
  = (Raise UnicodeEncodeError,
     mkState [EPrint [Lit (newline ++ "Host "); Str (JInt 1); Lit ":"]] WARNING None) /\
  List.length (presentation [JDict [("host", JDict [("host_id", JStr lone_surrogate)])]])
  = 8%nat.
Proof. repeat split. Qed.

(** ** Counting and presenting the same list *)

Lemma check_structure_accepts d detail hl s :
  lookup "Detail" d = Some (JDict detail) ->
  lookup "host_list" detail = Some (JList hl) ->
  check_structure (JDict d) s = (Ok hl, s).
Proof.
  intros D H. unfold check_structure, bind, lift, ret. simpl.
  rewrite D. simpl. rewrite H. reflexivity.
Qed.

Lemma check_structure_returns json_data l s s' :
  check_structure json_data s = (Ok l, s') ->
  host_list_of json_data = Some l /\ s' = s.
Proof.
  assert (X : forall m line s0 (r : list json) s1,
             (log ERROR m ;;; print line ;;; sys_exit 1) s0 <> (Ok r, s1)).
  { intros m line s0 r s1 H.
    apply bind_ok in H as ([] & s2 & _ & H).
    apply bind_ok in H as ([] & s3 & _ & H). discriminate. }
  intros H. unfold check_structure in H.
  apply bind_ok in H as (has_detail & s1 & H1 & H).
  apply bind_ok in H as (missing & s2 & H2 & H).
  destruct missing; [now apply X in H|].
  apply bind_ok in H as (detail & s3 & H3 & H).
  apply bind_ok in H as (host_list & s4 & H4 & H).
  unfold lift in H1, H3, H4.
  injection H1 as C1 <-. injection H3 as G1 <-. injection H4 as G2 <-.
  destruct has_detail; simpl in H2; [|discriminate].
  apply bind_ok in H2 as (detail' & s5 & H5 & H2).
  apply bind_ok in H2 as (has_hl & s6 & H6 & H2).
  unfold lift in H5, H6. unfold ret in H2.
  injection H5 as _ <-. injection H6 as _ <-. injection H2 as _ <-.
  destruct host_list as [| | | | |hl|]; try (now apply X in H).
  unfold ret in H. injection H as <- <-. split; [|reflexivity].
  unfold host_list_of, field.
  destruct json_data as [| | | | | |d]; try discriminate. simpl in G1.
  destruct (lookup "Detail" d) as [x|]; [|discriminate]. injection G1 as ->.
  destruct detail as [| | | | | |d0]; try discriminate. simpl in G2.
  destruct (lookup "host_list" d0) as [y|]; [|discriminate]. now injection G2 as ->.
Qed.

Lemma host_list_of_accepted json_data l s :
  host_list_of json_data = Some l -> check_structure json_data s = (Ok l, s).
Proof.
  intros H. unfold host_list_of, field in H.
  destruct json_data as [| | | | | |d]; try discriminate.
  destruct (lookup "Detail" d) as [[| | | | | |det]|] eqn:D; try discriminate.
  destruct (lookup "host_list" det) as [[| | | | |hl|]|] eqn:HL; try discriminate.
  injection H as ->. now apply check_structure_accepts with det.
Qed.

Lemma shown_address e :
  is_host_entry e = true ->
  field_or_NA (host_data_of e) "ip_v4_address"
  = match ip_field e with Some v => v | None => NA end.
Proof.
  unfold field_or_NA, host_data_of, ip_field.
  destruct e as [| | | | | |d]; try discriminate. simpl.
  destruct (lookup "host" d) as [[| | | | | |hd]|]; try discriminate; reflexivity.
Qed.

Lemma printed_lines_logged_all lvl msg tr th :
  printed_lines (tr ++ if level_rank th <=? level_rank lvl then [ELog lvl msg] else [])
  = printed_lines tr.
Proof.
  rewrite printed_lines_app. destruct (_ <=? _); apply app_nil_r.
Qed.

(** C9, as amended.  Lines 183 to 197, from the parsed document on.
    Whenever they run to completion, the structure check has yielded the list
    under [Detail.host_list], the counting pass and the presentation pass
    have run on that one list, and what [print] has written is the blocks of
    that list followed by the total, which is the number [count_valid_ips]
    returns on the very list presented.  Both passes read the same field:
    the address line of an entry's block shows [host.ip_v4_address] (["N/A"]
    when absent), and the entry adds to the total exactly when
    [ipaddress.IPv4Address] accepts that value.  The validity test belongs
    to the counting pass alone.  The lines do run to completion on every
    host list whose fields standard output can encode, unless
    interrupted. *)
Theorem total_counts_presented_list (json_data : json) (s : state) :
  (forall s', process_document json_data s = (Ok tt, s') ->
     exists host_list n s1,
       host_list_of json_data = Some host_list /\
       count_valid_ips host_list s = (Ok n, s1) /\
       printed_lines (trace s')
       = (printed_lines (trace s) ++ presentation host_list ++ [total_line n])%list /\
       tally has_accepted_address host_list n /\
       (forall i e, In e host_list ->
          nth 3 (host_block i e) []
          = [Lit "  IPv4 Address: ";
             Str (match ip_field e with Some v => v | None => NA end)])) /\
  (forall host_list,
      host_list_of json_data = Some host_list ->
      is_host_list host_list = true -> printable host_list = true -> sigint s = None ->
      exists s', process_document json_data s = (Ok tt, s')).
Proof.
  split.
  - intros s' H. unfold process_document in H.
    apply bind_ok in H as (host_list & s0 & C & H).
    apply check_structure_returns in C as [HL ->].
    unfold report_hosts in H.
    apply bind_ok in H as (n & s1 & E & H).
    apply bind_ok in H as ([] & s2 & X & H).
    apply bind_ok in H as ([] & s3 & P & H).
    exists host_list, n, s1. split; [exact HL|]. split; [exact E|].
    pose proof (count_loop_preserves only_records only_records_refl only_records_trans
                  count_step_only_records host_list 0 s _ s1 E) as R.
    apply only_records_printed in R.
    unfold count_valid_ips in E. apply count_loop_ok in E as [W ->].
    unfold extract_host_data in X. change 1 with (Z.of_nat 1) in X.
    apply extract_loop_ok in X as (_ & _ & T2 & _).
    apply print_ok in P as (T3 & _ & _). apply log_ok in H as [T4 _].
    split; [|split].
    + rewrite T4, printed_lines_logged_all, T3, T2.
      rewrite !printed_lines_app, printed_presentation, R. simpl.
      now rewrite <- app_assoc.
    + simpl. apply tally_counted. intros e _. apply counted_iff.
    + intros i e He. simpl. rewrite shown_address; [reflexivity|].
      unfold is_host_list in W. rewrite forallb_forall in W. now apply W.
  - intros host_list HL W P Q.
    destruct (count_loop_quiet host_list 0 s W Q) as (s1 & E & Q1 & T1 & P1).
    unfold process_document, bind. rewrite (host_list_of_accepted _ _ s HL).
    unfold report_hosts, bind. unfold count_valid_ips. rewrite E.
    unfold extract_host_data. change 1 with (Z.of_nat 1).
    rewrite (extract_loop_quiet host_list 1%nat s1 W P Q1).
    rewrite print_quiet by reflexivity. rewrite log_quiet by reflexivity.
    eexists. reflexivity.
Qed.

Lemma total_counts_presented_list_witness :
  (forall s', process_document (JDict sample_document) (initial_state None) = (Ok tt, s') ->
     exists host_list n s1,
       host_list_of (JDict sample_document) = Some host_list /\
       count_valid_ips host_list (initial_state None) = (Ok n, s1) /\
       printed_lines (trace s')
       = (printed_lines (trace (initial_state None)) ++ presentation host_list
          ++ [total_line n])%list /\
       tally has_accepted_address host_list n /\
       (forall i e, In e host_list ->
          nth 3 (host_block i e) []
          = [Lit "  IPv4 Address: ";
             Str (match ip_field e with Some v => v | None => NA end)])) /\
  exists s', process_document (JDict sample_document) (initial_state None) = (Ok tt, s').
Proof.
  split.
  - apply (proj1 (total_counts_presented_list (JDict sample_document) (initial_state None))).
  - apply (proj2 (total_counts_presented_list (JDict sample_document) (initial_state None))
             sample_hosts); reflexivity.
Defined.

(** C9 as stated fails on the validity test: the presentation pass applies
    none.  It prints an address that the counter's test rejects, in a run
    of lines 183 to 197 whose total is 0. *)
Lemma presenter_prints_invalid_address :
  valid_ipv4 (JStr "invalid_ip") = false /\
  In [Lit "  IPv4 Address: "; Str (JStr "invalid_ip")]
     (presentation [host_entry (JStr "invalid_ip")]) /\
  printed_lines
    (trace (snd (process_document
                   (JDict [("Detail", JDict [("host_list",
                                              JList [host_entry (JStr "invalid_ip")])])])
                   (initial_state None))))
  = (presentation [host_entry (JStr "invalid_ip")] ++ [total_line 0])%list.
Proof.
  split; [reflexivity|]. split; [|reflexivity].
  simpl. do 3 right. now left.
Qed.

(** ** The structure check under [main]'s handlers *)

Lemma printed_lines_printed line s :
  printed_lines (trace (printed line s)) = (printed_lines (trace s) ++ [line])%list.
Proof. unfold printed. simpl. now rewrite printed_lines_app. Qed.

(** A report followed by exit status 1, as in the two refusals of
    [check_structure]. *)
Lemma refuse_quiet {A} (msg line : text) s :
  sigint s = None -> encodable line = true ->
  (log ERROR msg ;;; print line ;;; @sys_exit A 1) s
  = (Raise (SystemExit 1), printed line (logged ERROR msg s)).
Proof.
  intros Q E. unfold bind. rewrite (log_quiet s Q).
  rewrite print_quiet by (exact E || now rewrite logged_sigint). reflexivity.
Qed.

Lemma main_except_unexpected w e s :
  sigint s = None ->
  match e with
  | TypeError _ | KeyError _ | NameError _ | AttributeError _ _ | UnicodeDecodeError _
  | UnicodeEncodeError | UnboundLocalError _ | AddressValueError | ValueError _ => True
  | _ => False
  end ->
  main_except w e s = (Raise (SystemExit 1), unexpected e s).
Proof.
  intros Q C. unfold unexpected.
  destruct e; try contradiction; unfold main_except, bind;
    rewrite (print_quiet s Q) by reflexivity; rewrite log_quiet by exact Q; reflexivity.
Qed.

(** C6.  The structure report is missed.  A document whose [Detail] is
    null lacks [Detail.host_list].  The run on a file that holds it ends,
    like every run on a readable file, in the [NameError] of the pre-scan:
    exit status 1 after "Unexpected error", no structure error.  And lines
    183 to 192 themselves, given that document under [main]'s handlers, do
    not report a structure error either: the membership test on [None]
    raises [TypeError], which the generic handler reports as unexpected,
    whereas a [Detail] that is the empty object and a [host_list] that is
    null get the two structure messages.  In each case the exit status is 1
    and nothing is counted or presented. *)
Theorem structure_report_missed :
  structure_invalid null_detail /\
  run null_detail_world None
  = (Exited 1,
     [EHandler (StreamStdout INFO);
      EHandler (RotatingFile Config.LOG_FILE INFO);
      ELog INFO [Lit "Starting parsing of JSON file: "; StrPath "discovery.json"];
      EPrint [Lit "Unexpected error: "; StrExn (NameError "re")];
      ELog ERROR [Lit "Unexpected error: "; StrExn (NameError "re")]]) /\
  try_except (process_document null_detail) (fun _ => true)
    (main_except null_detail_world) (initial_state None)
  = (Raise (SystemExit 1),
     mkState [EPrint [Lit "Unexpected error: "; StrExn (TypeError "NoneType")];
              ELog ERROR [Lit "Unexpected error: "; StrExn (TypeError "NoneType")]]
       WARNING None) /\
  try_except (process_document (JDict [("Detail", JDict [])])) (fun _ => true)
    (main_except null_detail_world) (initial_state None)
  = (Raise (SystemExit 1),
     mkState [ELog ERROR missing_keys_record; EPrint missing_keys_line] WARNING None) /\
  try_except (process_document (JDict [("Detail", JDict [("host_list", JNull)])]))
    (fun _ => true) (main_except null_detail_world) (initial_state None)
  = (Raise (SystemExit 1),
     mkState [ELog ERROR not_a_list_record; EPrint not_a_list_line] WARNING None) /\
  structure_error_lines = [missing_keys_line; not_a_list_line] /\
  ~ In [Lit "Unexpected error: "; StrExn (TypeError "NoneType")] structure_error_lines /\
  ~ In [Lit "Unexpected error: "; StrExn (NameError "re")] structure_error_lines.
Proof.
  split; [right; left; exists JNull; split; reflexivity|].
  repeat (split; [reflexivity|]).
  split; intros [H|[H|[]]]; discriminate.
Qed.

(** ** The missing import *)

Lemma scan_patterns_name_error w input_path content s :
  scan_patterns w input_path sensitive_patterns content s = (Raise (NameError "re"), s).
Proof. reflexivity. Qed.

Lemma check_sensitive_data_name_error w input_path content s :
  scan_read w input_path = ReadText content -> sigint s = None ->
  check_sensitive_data w input_path s = (Raise (NameError "re"), s).
Proof.
  intros R Q. unfold check_sensitive_data, try_except, bind, read_text, bind.
  rewrite (tick_quiet s Q), R. unfold ret.
  rewrite scan_patterns_name_error. reflexivity.
Qed.

Lemma check_sensitive_data_unreadable w input_path msg s :
  scan_read w input_path = ReadOSError msg -> sigint s = None ->
  check_sensitive_data w input_path s
  = (Ok false, logged ERROR [Lit "Failed to read "; StrPath input_path;
                             Lit " for sensitive data check: "; StrExn (OSError msg)] s).
Proof.
  intros R Q. unfold check_sensitive_data, try_except, bind, read_text, bind.
  rewrite (tick_quiet s Q), R. unfold raise. cbv beta iota. unfold is_IOError.
  rewrite (log_quiet s Q). reflexivity.
Qed.

Lemma check_sensitive_data_undecodable w input_path msg s :
  scan_read w input_path = ReadUnicodeError msg -> sigint s = None ->
  check_sensitive_data w input_path s = (Raise (UnicodeDecodeError msg), s).
Proof.
  intros R Q. unfold check_sensitive_data, try_except, bind, read_text, bind.
  rewrite (tick_quiet s Q), R. reflexivity.
Qed.

(** The pre-scan never reports a clean file. *)
Lemma check_sensitive_data_never_clean w input_path s s' :
  check_sensitive_data w input_path s <> (Ok true, s').
Proof.
  unfold check_sensitive_data, try_except, bind.
  destruct (read_text (scan_read w input_path) s) as [[content|e] s1].
  - rewrite scan_patterns_name_error. discriminate.
  - destruct (is_IOError e); [|discriminate].
    destruct (log ERROR _ s1) as [[[]|e'] s2]; unfold ret; discriminate.
Qed.

Lemma bind_ext {A B} (m : M A) (k k' : A -> M B) s :
  (forall a s', m s = (Ok a, s') -> k a s' = k' a s') -> bind m k s = bind m k' s.
Proof. unfold bind. destruct (m s) as [[a|e] s']; auto. Qed.

Lemma abort_never_returns (msg line : text) s s' :
  (log ERROR msg ;;; print line ;;; @sys_exit unit 1) s <> (Ok tt, s').
Proof.
  unfold bind, sys_exit, raise.
  destruct (log ERROR msg s) as [[[]|e1] s1]; [|discriminate].
  destruct (print line s1) as [[[]|e2] s2]; discriminate.
Qed.

(** So [main_try] stops before the load, whatever the file holds. *)
Lemma main_try_before_load w lr jl s :
  main_try (with_load w lr jl) s = main_try w s.
Proof.
  unfold main_try.
  change (parse_arguments (with_load w lr jl)) with (parse_arguments w).
  apply bind_ext. intros a s1 _.
  change (setup_logging (with_load w lr jl)) with (setup_logging w).
  apply bind_ext. intros [] s2 _.
  apply bind_ext. intros [] s3 _.
  change (check_sensitive_data (with_load w lr jl)) with (check_sensitive_data w).
  apply bind_ext. intros clean s4 C.
  destruct clean; [now destruct (check_sensitive_data_never_clean w _ _ _ C)|].
  apply bind_ext. intros [] s5 A. now destruct (abort_never_returns _ _ _ _ A).
Qed.

Lemma main_try_never_returns w s s' : main_try w s <> (Ok tt, s').
Proof.
  unfold main_try. intros H.
  apply bind_ok in H as (a & s1 & _ & H).
  apply bind_ok in H as ([] & s2 & _ & H).
  apply bind_ok in H as ([] & s3 & _ & H).
  apply bind_ok in H as (clean & s4 & C & H).
  apply bind_ok in H as ([] & s5 & A & _).
  destruct clean.
  - now destruct (check_sensitive_data_never_clean w _ _ _ C).
  - now destruct (abort_never_returns _ _ _ _ A).
Qed.

Lemma parse_arguments_accepts w a s :
  arguments_accepted w a -> sigint s = None ->
  parse_arguments w s = (Ok a, s).
Proof.
  intros (A & F & X) Q. unfold parse_arguments, parse_args, bind. rewrite A.
  rewrite (tick_quiet s Q). unfold ret. rewrite (tick_quiet s Q), F, X. reflexivity.
Qed.

Lemma setup_logging_quiet w a s :
  sigint s = None ->
  setup_logging w (verbose a) (logfile a) s
  = match open_log w (log_path a) with
    | Some msg => (Raise (OSError msg), console_ready a s)
    | None => (Ok tt, logging_ready a s)
    end.
Proof.
  intros Q. destruct s as [tr th si]. cbn [sigint] in Q. subst si.
  unfold setup_logging, bind, set_threshold, emit, tick, console_ready, logging_ready,
    log_level, log_path, raise.
  cbn [trace threshold sigint].
  destruct (open_log w _); [reflexivity|].
  cbn [trace threshold sigint]. now rewrite <- app_assoc.
Qed.

Lemma main_except_io_error w msg s :
  sigint s = None ->
  exists s', main_except w (OSError msg) s = (Raise (SystemExit 1), s').
Proof.
  intros Q. unfold main_except, bind. rewrite (print_quiet s Q) by reflexivity.
  rewrite log_quiet by exact Q. eexists. reflexivity.
Qed.

(** C3.  [check_sensitive_data] evaluates [re.search] although the module
    binds no name [re].  On every run whose arguments [parse_arguments]
    accepts (an existing [.json] file) and that no interrupt cuts short:
    - the exit status is 1;
    - the run is the same whatever the load would read or parse, and the
      body of [main]'s [try] never completes: load, structure check, count
      and presentation are not reached;
    - when the file can be read, [check_sensitive_data] raises
      [NameError] for [re];
    - when moreover the log file opens, [main] reports that [NameError]
      through the generic handler and exits with status 1. *)
Theorem missing_re_import (w : world) (a : args) (s : state) :
  arguments_accepted w a -> sigint s = None ->
  process_end_of (fst (main w s)) = Exited 1 /\
  (forall lr jl, main (with_load w lr jl) s = main w s) /\
  (forall s', main_try w s <> (Ok tt, s')) /\
  (forall content s0,
      scan_read w (input_file a) = ReadText content -> sigint s0 = None ->
      check_sensitive_data w (input_file a) s0 = (Raise (NameError "re"), s0)) /\
  (forall content,
      scan_read w (input_file a) = ReadText content -> open_log w (log_path a) = None ->
      main w s = (Raise (SystemExit 1),
                  unexpected (NameError "re")
                    (logged INFO (starting_record a) (logging_ready a s)))).
Proof.
  intros A Q.
  assert (Q1 : sigint (logging_ready a s) = None) by exact Q.
  assert (Q2 : sigint (logged INFO (starting_record a) (logging_ready a s)) = None)
    by now rewrite logged_sigint.
  assert (T : main_try w s
              = match open_log w (log_path a) with
                | Some msg => (Raise (OSError msg), console_ready a s)
                | None =>
                    (clean <- check_sensitive_data w (input_file a) ;;
                     (if negb clean then
                        log ERROR [Lit "Aborted due to potential sensitive data"] ;;;
                        print [Lit "Error: Potential sensitive data detected in input file"] ;;;
                        sys_exit 1
                      else ret tt) ;;;
                     json_data <- load_json w (input_file a) ;;
                     log INFO [Lit "Successfully read JSON file: "; StrPath (input_file a)] ;;;
                     process_document json_data)
                      (logged INFO (starting_record a) (logging_ready a s))
                end).
  { unfold main_try. unfold bind at 1. rewrite (parse_arguments_accepts w a s A Q).
    unfold bind at 1. rewrite (setup_logging_quiet w a s Q).
    destruct (open_log w (log_path a)); [reflexivity|].
    unfold bind at 1. rewrite (log_quiet _ Q1). reflexivity. }
  split; [|split; [|split; [|split]]].
  - unfold main, try_except. rewrite T.
    destruct (open_log w (log_path a)) as [msg|].
    { destruct (main_except_io_error w msg (console_ready a s) Q) as [s' ->].
      reflexivity. }
    unfold bind at 1.
    destruct (scan_read w (input_file a)) as [content|msg|msg] eqn:R.
    + rewrite (check_sensitive_data_name_error w _ content _ R Q2). cbv beta iota.
      rewrite main_except_unexpected by (exact Q2 || exact I). reflexivity.
    + rewrite (check_sensitive_data_unreadable w _ msg _ R Q2). cbv beta iota.
      simpl negb. cbv iota. unfold bind at 1.
      rewrite refuse_quiet by (reflexivity || now rewrite logged_sigint). reflexivity.
    + rewrite (check_sensitive_data_undecodable w _ msg _ R Q2). cbv beta iota.
      rewrite main_except_unexpected by (exact Q2 || exact I). reflexivity.
  - intros lr jl. unfold main, try_except. rewrite main_try_before_load.
    destruct (main_try w s) as [[[]|e] s1]; [reflexivity|].
    destruct e; try reflexivity.
  - intros s'. apply main_try_never_returns.
  - intros content s0 R Q0. now apply check_sensitive_data_name_error with content.
  - intros content R L. unfold main, try_except. rewrite T, L.
    unfold bind at 1.
    rewrite (check_sensitive_data_name_error w _ content _ R Q2). cbv beta iota.
    now rewrite main_except_unexpected by (exact Q2 || exact I).
Qed.

Lemma missing_re_import_witness :
  arguments_accepted sample_world sample_args /\
  sigint (initial_state None) = None /\
  process_end_of (fst (main sample_world (initial_state None))) = Exited 1 /\
  (forall lr jl,
      main (with_load sample_world lr jl) (initial_state None)
      = main sample_world (initial_state None)) /\
  (forall s', main_try sample_world (initial_state None) <> (Ok tt, s')) /\
  (forall content s0,
      scan_read sample_world (input_file sample_args) = ReadText content ->
      sigint s0 = None ->
      check_sensitive_data sample_world (input_file sample_args) s0
      = (Raise (NameError "re"), s0)) /\
  (forall content,
      scan_read sample_world (input_file sample_args) = ReadText content ->
      open_log sample_world (log_path sample_args) = None ->
      main sample_world (initial_state None)
      = (Raise (SystemExit 1),
         unexpected (NameError "re")
           (logged INFO (starting_record sample_args)
              (logging_ready sample_args (initial_state None))))).
Proof.
  assert (A : arguments_accepted sample_world sample_args)
    by (repeat split; reflexivity).
  split; [exact A|]. split; [reflexivity|].
  apply (missing_re_import sample_world sample_args (initial_state None) A eq_refl).
Defined.

(** ** Interrupts *)

Lemma delivers_ret {A} (a : A) : delivers (ret a).
Proof. intros s s1 [=]. Qed.

Lemma delivers_raise {A} e : e <> KeyboardInterrupt -> delivers (@raise A e).
Proof. intros N s s1 [= E]. congruence. Qed.

Lemma delivers_lift {A} (r : result A) :
  r <> Raise KeyboardInterrupt -> delivers (lift r).
Proof. intros N s s1 [= E]. congruence. Qed.

Lemma delivers_tick : delivers tick.
Proof.
  intros s s1. unfold tick. destruct (sigint s) as [[|k]|]; intros [= <-]; reflexivity.
Qed.

Lemma delivers_bind {A B} (m : M A) (k : A -> M B) :
  delivers m -> (forall a, delivers (k a)) -> delivers (bind m k).
Proof.
  intros Hm Hk s s1. unfold bind.
  destruct (m s) as [[a|e] s'] eqn:E.
  - apply Hk.
  - intros [= -> <-]. eapply Hm; eauto.
Qed.

Lemma delivers_try {A} (body : M A) catches handler :
  delivers body -> (forall e, delivers (handler e)) ->
  delivers (try_except body catches handler).
Proof.
  intros Hb Hh s s1. unfold try_except.
  destruct (body s) as [[a|e] s'] eqn:E; [discriminate|].
  destruct (catches e).
  - apply Hh.
  - intros [= -> <-]. eapply Hb; eauto.
Qed.

Lemma delivers_emit ev : delivers (emit ev).
Proof. intros s s1 [=]. Qed.

Lemma delivers_print line : delivers (print line).
Proof.
  apply delivers_bind; [apply delivers_tick|]. intros _.
  destruct (encodable line); [apply delivers_emit|apply delivers_raise; discriminate].
Qed.

Lemma delivers_eprint line : delivers (eprint line).
Proof. apply delivers_bind; [apply delivers_tick|intros; apply delivers_emit]. Qed.

Lemma delivers_log lvl msg : delivers (log lvl msg).
Proof.
  apply delivers_bind; [apply delivers_tick|]. intros _ s s1.
  destruct (_ <=? _); intros [=].
Qed.

Lemma delivers_set_threshold l : delivers (set_threshold l).
Proof. intros s s1 [=]. Qed.

Lemma py_get_quiet obj key default : py_get obj key default <> Raise KeyboardInterrupt.
Proof. destruct obj; discriminate. Qed.

Lemma py_contains_quiet v key : py_contains v key <> Raise KeyboardInterrupt.
Proof. destruct v; discriminate. Qed.

Lemma py_getitem_quiet v key : py_getitem v key <> Raise KeyboardInterrupt.
Proof. destruct v; try discriminate. simpl. destruct (lookup key d); discriminate. Qed.

Lemma IPv4Address_quiet v : ipaddress.IPv4Address v <> Raise KeyboardInterrupt.
Proof. intros E. apply IPv4Address_raises in E. discriminate. Qed.

Create HintDb delivery.

#[local] Hint Resolve delivers_ret delivers_tick delivers_emit delivers_print
  delivers_eprint delivers_log delivers_set_threshold py_get_quiet py_contains_quiet
  py_getitem_quiet IPv4Address_quiet : delivery.

Ltac delivery :=
  repeat first
    [ solve [auto with delivery]
    | apply delivers_bind; [|intros ?]
    | apply delivers_try; [|intros ?]
    | apply delivers_lift; solve [auto with delivery]
    | apply delivers_raise; discriminate
    | match goal with
      | |- delivers (if ?b then _ else _) => destruct b
      | |- delivers (match ?x with _ => _ end) => destruct x
      | |- delivers (sys_exit _) => apply delivers_raise; discriminate
      end ].

Lemma delivers_count_loop l : forall c, delivers (count_valid_ips_loop l c).
Proof.
  induction l as [|e l IH]; intros c; simpl; [apply delivers_ret|].
  apply delivers_bind; [|intros; apply IH].
  unfold count_valid_ips_step. delivery.
Qed.

Lemma delivers_extract_loop l : forall i, delivers (extract_host_data_loop l i).
Proof.
  induction l as [|e l IH]; intros i; simpl; [apply delivers_ret|].
  apply delivers_bind; [|intros; apply IH].
  unfold extract_host_step. delivery.
Qed.

Lemma delivers_scan w p content patterns : delivers (scan_patterns w p patterns content).
Proof.
  induction patterns as [|x xs IH]; simpl; [apply delivers_ret|].
  apply delivers_bind.
  - unfold load_global. delivery.
  - intros _. destruct (re_search w x content); [delivery|apply IH].
Qed.

Lemma delivers_main_try w : delivers (main_try w).
Proof.
  unfold main_try. apply delivers_bind.
  { unfold parse_arguments, parse_args, parser_error. delivery. }
  intros a. apply delivers_bind.
  { unfold setup_logging. delivery. }
  intros _. apply delivers_bind; [apply delivers_log|]. intros _.
  apply delivers_bind.
  { unfold check_sensitive_data, read_text. apply delivers_try.
    - apply delivers_bind; [delivery|]. intros content. apply delivers_scan.
    - intros e. delivery. }
  intros clean. apply delivers_bind; [delivery|]. intros _.
  apply delivers_bind.
  { unfold load_json, read_text. delivery. }
  intros json_data. apply delivers_bind; [apply delivers_log|]. intros _.
  unfold process_document. apply delivers_bind.
  { unfold check_structure. delivery. }
  intros hl. unfold report_hosts. apply delivers_bind.
  { apply delivers_count_loop. }
  intros n. apply delivers_bind; [apply delivers_extract_loop|]. intros _. delivery.
Qed.

(** C7, as amended.  A [KeyboardInterrupt] raised at any point while the
    body of [main]'s [try] statement runs (lines 169 to 197) is caught:
    [main] logs the cancellation and exits with status 0, without a
    traceback. *)
Theorem interrupt_in_try_exits_cleanly (w : world) (s s1 : state) :
  main_try w s = (Raise KeyboardInterrupt, s1) ->
  main w s = (Raise (SystemExit 0), logged INFO [Lit "Cancelled by user"] s1) /\
  process_end_of (fst (main w s)) = Exited 0.
Proof.
  intros H. pose proof (delivers_main_try w s s1 H) as Q.
  assert (E : main w s = (Raise (SystemExit 0), logged INFO [Lit "Cancelled by user"] s1)).
  { unfold main, try_except. rewrite H. cbv beta iota.
    unfold main_except, bind. rewrite (log_quiet s1 Q). reflexivity. }
  split; [exact E|]. now rewrite E.
Qed.

Lemma interrupt_in_try_exits_cleanly_witness :
  main_try sample_world (initial_state (Some 4%nat))
  = (Raise KeyboardInterrupt, logged INFO sample_start (logging_ready sample_args (initial_state None))) /\
  main sample_world (initial_state (Some 4%nat))
  = (Raise (SystemExit 0),
     logged INFO [Lit "Cancelled by user"]
       (logged INFO sample_start (logging_ready sample_args (initial_state None)))) /\
  process_end_of (fst (main sample_world (initial_state (Some 4%nat)))) = Exited 0.
Proof.
  split; [reflexivity|].
  apply (interrupt_in_try_exits_cleanly sample_world (initial_state (Some 4%nat))
           (logged INFO sample_start (logging_ready sample_args (initial_state None)))).
  reflexivity.
Defined.

(** On the sample run the interrupt can arrive at five points of the [try]
    body: each of them ends in exit status 0. *)
Example interrupt_points_of_sample_run :
  Forall (fun k => fst (run sample_world (Some k)) = Exited 0) [0; 1; 2; 3; 4]%nat.
Proof. repeat constructor. Qed.

(** C7 as stated fails: an interrupt that arrives while an [except] clause
    is reporting (here the generic one, at its [print]) is not caught. *)
Lemma interrupt_in_handler_escapes :
  fst (run sample_world (Some 5%nat)) = Traceback KeyboardInterrupt.
Proof. reflexivity. Qed.

(** ** Exit statuses *)

Lemma bind_raise {A B} (m : M A) (k : A -> M B) s e s' :
  bind m k s = (Raise e, s') ->
  m s = (Raise e, s') \/ exists a s1, m s = (Ok a, s1) /\ k a s1 = (Raise e, s').
Proof.
  unfold bind. destruct (m s) as [[a|e0] s1]; [eauto|].
  intros [= <- <-]. now left.
Qed.

(** *** The exceptions a computation raises *)

Lemma raises_only_ret P {A} (a : A) : raises_only P (ret a).
Proof. intros s e s'. discriminate. Qed.

Lemma raises_only_raise P {A} e : P e -> raises_only P (@raise A e).
Proof. intros K s e0 s' [= <- _]. exact K. Qed.

Lemma raises_only_lift P {A} (r : result A) :
  (forall e, r = Raise e -> P e) -> raises_only P (lift r).
Proof. intros H s e s' [= -> _]. now apply H. Qed.

Lemma raises_only_bind P {A B} (m : M A) (k : A -> M B) :
  raises_only P m -> (forall a, raises_only P (k a)) -> raises_only P (bind m k).
Proof.
  intros Hm Hk s e s'. unfold bind. destruct (m s) as [[a|e0] s0] eqn:E.
  - apply Hk.
  - intros [= <- <-]. eapply Hm; eauto.
Qed.

Lemma raises_only_try P {A} (body : M A) catches handler :
  raises_only P body -> (forall e, raises_only P (handler e)) ->
  raises_only P (try_except body catches handler).
Proof.
  intros Hb Hh s e s'. unfold try_except. destruct (body s) as [[a|e0] s0] eqn:E.
  - discriminate.
  - destruct (catches e0); [apply Hh|]. intros [= <- <-]. eapply Hb; eauto.
Qed.

Lemma raises_only_handled P {A} (body : M A) handler :
  (forall e, raises_only P (handler e)) ->
  raises_only P (try_except body (fun _ => true) handler).
Proof.
  intros H s e s'. unfold try_except. destruct (body s) as [[a|e0] s0]; [discriminate|].
  apply H.
Qed.

Lemma raises_only_tick P : P KeyboardInterrupt -> raises_only P tick.
Proof.
  intros K s e s'. unfold tick.
  destruct (sigint s) as [[|k]|]; try discriminate. now intros [= <- _].
Qed.

Lemma raises_only_emit P ev : raises_only P (emit ev).
Proof. intros s e s'. discriminate. Qed.

Lemma raises_only_print P line :
  P KeyboardInterrupt -> P UnicodeEncodeError -> raises_only P (print line).
Proof.
  intros K U. apply raises_only_bind; [now apply raises_only_tick|]. intros _.
  destruct (encodable line); [apply raises_only_emit|now apply raises_only_raise].
Qed.

Lemma raises_only_eprint P line : P KeyboardInterrupt -> raises_only P (eprint line).
Proof.
  intros K. apply raises_only_bind; [now apply raises_only_tick|]. intros _.
  apply raises_only_emit.
Qed.

Lemma raises_only_log P lvl msg : P KeyboardInterrupt -> raises_only P (log lvl msg).
Proof.
  intros K. apply raises_only_bind; [now apply raises_only_tick|]. intros _ s e s'.
  destruct (_ <=? _); discriminate.
Qed.

Lemma raises_only_sys_exit P {A} status :
  P (SystemExit status) -> raises_only P (@sys_exit A status).
Proof. intros K s e s' [= <- _]. exact K. Qed.

Lemma raises_only_set_threshold P l : raises_only P (set_threshold l).
Proof. intros s e s'. discriminate. Qed.

(** The part of [main]'s [try] body that runs raises no
    [JSONDecodeError]: the load is never reached. *)
Lemma main_try_no_json_error w s msg s1 :
  main_try w s <> (Raise (JSONDecodeError msg), s1).
Proof.
  assert (K : not_json_error KeyboardInterrupt) by (intros m; discriminate).
  assert (U : not_json_error UnicodeEncodeError) by (intros m; discriminate).
  assert (X : forall status, not_json_error (SystemExit status)) by (intros st m; discriminate).
  assert (TK : raises_only not_json_error tick) by now apply raises_only_tick.
  assert (PR : forall line, raises_only not_json_error (print line))
    by (intros; now apply raises_only_print).
  assert (EP : forall line, raises_only not_json_error (eprint line))
    by (intros; now apply raises_only_eprint).
  assert (LG : forall lvl m, raises_only not_json_error (log lvl m))
    by (intros; now apply raises_only_log).
  assert (SE : forall A status, raises_only not_json_error (@sys_exit A status))
    by (intros; now apply raises_only_sys_exit).
  assert (PE : forall A m, raises_only not_json_error (@parser_error A w m)).
  { intros A m. unfold parser_error. repeat (apply raises_only_bind; [auto|intros _]).
    apply SE. }
  assert (R1 : raises_only not_json_error (parse_arguments w)).
  { unfold parse_arguments, parse_args. apply raises_only_bind.
    - destruct (argv w); repeat (apply raises_only_bind; [auto|intros _]); auto.
      apply raises_only_ret.
    - intros a. apply raises_only_bind.
      + apply raises_only_bind; [auto|intros _].
        destruct (is_file w _); [apply raises_only_ret|].
        apply raises_only_raise. intros m. discriminate.
      + intros ex. apply raises_only_bind; [destruct (negb ex); [apply PE|apply raises_only_ret]|].
        intros _. apply raises_only_bind; [|intros _; apply raises_only_ret].
        destruct (negb _); [apply PE|apply raises_only_ret]. }
  assert (R2 : forall v l, raises_only not_json_error (setup_logging w v l)).
  { intros v l. unfold setup_logging.
    apply raises_only_bind; [apply raises_only_set_threshold|intros _].
    apply raises_only_bind; [apply raises_only_emit|intros _].
    apply raises_only_bind; [auto|intros _].
    destruct (open_log w _); [|apply raises_only_emit].
    apply raises_only_raise. intros m. discriminate. }
  assert (R3 : forall p, raises_only not_json_error (check_sensitive_data w p)).
  { intros p. unfold check_sensitive_data. apply raises_only_try.
    - apply raises_only_bind.
      + unfold read_text. apply raises_only_bind; [auto|intros _].
        destruct (scan_read w p); [apply raises_only_ret| |];
          apply raises_only_raise; intros m; discriminate.
      + intros content s0 e s'. rewrite scan_patterns_name_error.
        intros [= <- _] m. discriminate.
    - intros e. apply raises_only_bind; [auto|intros _; apply raises_only_ret]. }
  intros H. unfold main_try in H.
  apply bind_raise in H as [H|(a & s2 & _ & H)]; [exact (R1 _ _ _ H msg eq_refl)|].
  apply bind_raise in H as [H|([] & s3 & _ & H)]; [exact (R2 _ _ _ _ _ H msg eq_refl)|].
  apply bind_raise in H as [H|([] & s4 & _ & H)]; [exact (LG _ _ _ _ _ H msg eq_refl)|].
  apply bind_raise in H as [H|(clean & s5 & C & H)]; [exact (R3 _ _ _ _ H msg eq_refl)|].
  destruct clean; [now destruct (check_sensitive_data_never_clean w _ _ _ C)|].
  apply bind_raise in H as [H|([] & s6 & A & _)].
  - cbn [negb] in H.
    assert (R4 : raises_only not_json_error
                   (log ERROR [Lit "Aborted due to potential sensitive data"] ;;;
                    print [Lit "Error: Potential sensitive data detected in input file"] ;;;
                    @sys_exit unit 1)).
    { repeat (apply raises_only_bind; [auto|intros _]). apply SE. }
    exact (R4 _ _ _ H msg eq_refl).
  - now destruct (abort_never_returns _ _ _ _ A).
Qed.

Lemma parser_error_quiet {A} w message s :
  sigint s = None ->
  exists s', @parser_error A w message s = (Raise (SystemExit 2), s')
             /\ In (EStderr (Lit (prog w) :: Lit ": error: " :: message)) (trace s').
Proof.
  intros Q. unfold parser_error, eprint, sys_exit, raise, bind, emit.
  rewrite (tick_quiet s Q). cbv beta iota. unfold tick. simpl. rewrite Q.
  eexists. split; [reflexivity|]. simpl. apply in_or_app. right. now left.
Qed.

Lemma main_try_argument_error w s :
  sigint s = None -> argument_error w ->
  exists s', main_try w s = (Raise (SystemExit 2), s').
Proof.
  intros Q E. unfold argument_error in E. unfold main_try, parse_arguments, parse_args.
  destruct (argv w) as [| |message|a]; try contradiction.
  - destruct (@parser_error_quiet args w [Lit message] s Q) as (s' & P & _).
    exists s'. unfold bind. now rewrite P.
  - unfold bind, ret. rewrite !(tick_quiet s Q). cbv beta iota.
    destruct E as [F|[F E]]; rewrite F; cbn [negb]; cbv beta iota.
    + destruct (@parser_error_quiet unit w
                  [Lit "Input file does not exist: "; Lit (input_file a)] s Q)
        as (s' & P & _).
      exists s'. now rewrite P.
    + destruct (String.eqb (lower (path_suffix (input_file a))) ".json") eqn:X.
      { apply String.eqb_eq in X. contradiction. }
      cbn [negb]. cbv beta iota.
      destruct (@parser_error_quiet unit w
                  [Lit "Input file must be a JSON file: "; Lit (input_file a)] s Q)
        as (s' & P & _).
      exists s'. now rewrite P.
Qed.

Lemma main_except_reports w e s :
  sigint s = None -> is_Exception e = true -> not_json_error e ->
  exists line s',
    main_except w e s = (Raise (SystemExit 1), s') /\
    printed_lines (trace s') = (printed_lines (trace s) ++ [line])%list.
Proof.
  intros Q X J.
  assert (G : forall line rec_, encodable line = true ->
            (print line ;;; log ERROR rec_ ;;; @sys_exit unit 1) s
            = (Raise (SystemExit 1), logged ERROR rec_ (printed line s))).
  { intros line rec_ E. unfold bind. rewrite (print_quiet s Q line E).
    rewrite log_quiet by exact Q. reflexivity. }
  assert (F : forall line rec_,
            printed_lines (trace (logged ERROR rec_ (printed line s)))
            = (printed_lines (trace s) ++ [line])%list).
  { intros line rec_. now rewrite printed_lines_logged, printed_lines_printed. }
  destruct e; try discriminate; unfold main_except;
    try (rewrite G by reflexivity; do 2 eexists; split; [reflexivity|]; apply F).
  now destruct (J msg).
Qed.

(** The handlers of [main] over any body of the [try] statement. *)
Lemma handlers_exit_status (w : world) (body : M unit) (s s1 : state) (r : result unit) :
  body s = (r, s1) -> sigint s1 = None ->
  (forall msg, r <> Raise (JSONDecodeError msg)) ->
  process_end_of (fst (try_except body (fun _ => true) (main_except w) s))
  = Exited (exit_status r) /\
  (forall e, r = Raise e -> is_Exception e = true ->
     exit_status r = 1 /\
     exists line,
       printed_lines (trace (snd (try_except body (fun _ => true) (main_except w) s)))
       = (printed_lines (trace s1) ++ [line])%list).
Proof.
  intros H Q J.
  assert (J' : forall e, r = Raise e -> not_json_error e).
  { intros e -> msg ->. now apply (J msg). }
  split.
  - unfold try_except. rewrite H. destruct r as [[]|e]; [reflexivity|].
    cbv beta iota. destruct (is_Exception e) eqn:X.
    + destruct (main_except_reports w e s1 Q X (J' e eq_refl))
        as (line & s' & -> & _).
      destruct e; try discriminate; reflexivity.
    + destruct e; try discriminate; [reflexivity|].
      unfold main_except, bind. rewrite (log_quiet s1 Q). reflexivity.
  - intros e -> X. split; [destruct e; try discriminate; reflexivity|].
    unfold try_except. rewrite H. cbv beta iota.
    destruct (main_except_reports w e s1 Q X (J' e eq_refl))
      as (line & s' & -> & P).
    now exists line.
Qed.

(** C2, as amended.  Let the body of [main]'s [try] end with outcome [r],
    and let no interrupt arrive while a handler runs.  Then the process
    exits, without a traceback, with status 0 when the body completed or was
    interrupted, with the status of the [SystemExit] the body raised, and
    with status 1 for every other exception (I/O, JSON decoding, or any
    unexpected one), which is reported in one printed line.  On an
    uninterrupted run the body raises [SystemExit 2] when [parse_arguments]
    rejects the command line or the input path (missing file, suffix other
    than [.json]), raises [OSError] when the log file cannot be opened, and
    raises [SystemExit 1] when the input file cannot be read for the
    sensitive-data check. *)
Theorem main_exit_status (w : world) (s s1 : state) (r : result unit) :
  main_try w s = (r, s1) -> sigint s1 = None ->
  process_end_of (fst (main w s)) = Exited (exit_status r) /\
  (forall e, r = Raise e -> is_Exception e = true ->
     exit_status r = 1 /\
     exists line, printed_lines (trace (snd (main w s)))
                  = (printed_lines (trace s1) ++ [line])%list) /\
  (sigint s = None -> argument_error w -> r = Raise (SystemExit 2)) /\
  (sigint s = None ->
   forall a msg, arguments_accepted w a -> open_log w (log_path a) = Some msg ->
                 r = Raise (OSError msg)) /\
  (sigint s = None ->
   forall a msg, arguments_accepted w a -> open_log w (log_path a) = None ->
                 scan_read w (input_file a) = ReadOSError msg ->
                 r = Raise (SystemExit 1)).
Proof.
  intros H Q.
  assert (J : forall msg, r <> Raise (JSONDecodeError msg)).
  { intros msg ->. exact (main_try_no_json_error w s msg s1 H). }
  destruct (handlers_exit_status w (main_try w) s s1 r H Q J) as [E1 E2].
  split; [exact E1|]. split; [exact E2|]. split; [|split].
  - intros Q0 E. destruct (main_try_argument_error w s Q0 E) as [s' T]. congruence.
  - intros Q0 a msg A L.
    assert (T : main_try w s = (Raise (OSError msg), console_ready a s)).
    { unfold main_try. unfold bind at 1. rewrite (parse_arguments_accepts w a s A Q0).
      unfold bind at 1. rewrite (setup_logging_quiet w a s Q0), L. reflexivity. }
    congruence.
  - intros Q0 a msg A L R.
    assert (T : exists s', main_try w s = (Raise (SystemExit 1), s')).
    { unfold main_try. unfold bind at 1. rewrite (parse_arguments_accepts w a s A Q0).
      unfold bind at 1. rewrite (setup_logging_quiet w a s Q0), L.
      unfold bind at 1. rewrite log_quiet by exact Q0.
      unfold bind at 1.
      rewrite (check_sensitive_data_unreadable w _ msg _ R)
        by (now rewrite logged_sigint).
      cbv beta iota. cbn [negb]. cbv iota. unfold bind at 1.
      rewrite refuse_quiet by (reflexivity || now rewrite !logged_sigint). eauto. }
    destruct T as [s' T]. congruence.
Qed.

Lemma main_exit_status_witness :
  main_try missing_file_world (initial_state None)
  = (Raise (SystemExit 2), missing_file_end) /\
  sigint missing_file_end = None /\
  process_end_of (fst (main missing_file_world (initial_state None)))
  = Exited (exit_status (Raise (SystemExit 2))) /\
  (forall e, @Raise unit (SystemExit 2) = Raise e -> is_Exception e = true ->
     exit_status (Raise (SystemExit 2)) = 1 /\
     exists line,
       printed_lines (trace (snd (main missing_file_world (initial_state None))))
       = (printed_lines (trace missing_file_end) ++ [line])%list) /\
  (sigint (initial_state None) = None -> argument_error missing_file_world ->
   @Raise unit (SystemExit 2) = Raise (SystemExit 2)) /\
  (sigint (initial_state None) = None ->
   forall a msg, arguments_accepted missing_file_world a ->
                 open_log missing_file_world (log_path a) = Some msg ->
                 @Raise unit (SystemExit 2) = Raise (OSError msg)) /\
  (sigint (initial_state None) = None ->
   forall a msg, arguments_accepted missing_file_world a ->
                 open_log missing_file_world (log_path a) = None ->
                 scan_read missing_file_world (input_file a) = ReadOSError msg ->
                 @Raise unit (SystemExit 2) = Raise (SystemExit 1)).
Proof.
  split; [reflexivity|]. split; [reflexivity|].
  apply (main_exit_status missing_file_world (initial_state None) missing_file_end
           (Raise (SystemExit 2))); reflexivity.
Defined.

(** C2 as stated fails: a missing input file is refused by the argument
    parser, and the process exits with status 2, not 1. *)
Lemma missing_file_exits_with_2 :
  argument_error missing_file_world /\
  fst (run missing_file_world None) = Exited 2 /\
  Exited 2 <> Exited 1.
Proof.
  split; [left; reflexivity|]. split; [reflexivity|discriminate].
Qed.

(** * Further properties *)

(** ** What the counter writes *)

Lemma only_records_output s s' :
  only_records s s' ->
  exists records,
    trace s' = (trace s ++ records)%list /\
    forallb is_record records = true /\
    printed_lines (trace s') = printed_lines (trace s) /\
    standard_output (trace s')
    = (standard_output (trace s) ++ stdout_from (consoles_after [] (trace s)) records)%list /\
    Forall (fun out => exists lvl msg, out = Logged lvl msg)
           (stdout_from (consoles_after [] (trace s)) records) /\
    (consoles_after [] (trace s) = [] -> standard_output (trace s') = standard_output (trace s)).
Proof.
  intros R. pose proof (only_records_printed s s' R) as P.
  destruct R as (records & E & F). exists records.
  destruct (stdout_records records (consoles_after [] (trace s)) F) as (A & _ & _).
  destruct (stdout_records records [] F) as (_ & N & _).
  repeat split; auto.
  - unfold standard_output. now rewrite E, stdout_from_app.
  - intros C. unfold standard_output. rewrite E, stdout_from_app, C, N. apply app_nil_r.
Qed.

(** X1.  Whatever the entries, the threshold and a pending interrupt, and
    however it ends, [count_valid_ips] leaves the logger's threshold as it
    is and adds nothing to the trace but log records: it never calls
    [print].  So the only lines it adds to standard output are records a
    console handler writes (as after [setup_logging]); with no console
    handler on the logger it adds nothing there. *)
Theorem count_valid_ips_only_logs (host_list : list json) (s s' : state) (r : result Z) :
  count_valid_ips host_list s = (r, s') ->
  threshold s' = threshold s /\
  exists records,
    trace s' = (trace s ++ records)%list /\
    forallb is_record records = true /\
    printed_lines (trace s') = printed_lines (trace s) /\
    standard_output (trace s')
    = (standard_output (trace s) ++ stdout_from (consoles_after [] (trace s)) records)%list /\
    Forall (fun out => exists lvl msg, out = Logged lvl msg)
           (stdout_from (consoles_after [] (trace s)) records) /\
    (consoles_after [] (trace s) = [] -> standard_output (trace s') = standard_output (trace s)).
Proof.
  intros H. split.
  - apply (count_loop_preserves same_threshold same_threshold_refl same_threshold_trans
             count_step_same_threshold host_list 0 s r s' H).
  - apply only_records_output.
    apply (count_loop_preserves only_records only_records_refl only_records_trans
             count_step_only_records host_list 0 s r s' H).
Qed.

Lemma count_valid_ips_only_logs_witness :
  count_valid_ips [host_entry (JStr "invalid_ip"); JNull]
    (logging_ready sample_args (initial_state (Some 3%nat)))
  = (Raise (AttributeError "NoneType" "get"),
     logged WARNING [Lit "Invalid IPv4 address: "; Str (JStr "invalid_ip")]
       (logging_ready sample_args (initial_state (Some 2%nat)))) /\
  standard_output
    (trace (logged WARNING [Lit "Invalid IPv4 address: "; Str (JStr "invalid_ip")]
              (logging_ready sample_args (initial_state (Some 2%nat)))))
  = [Logged WARNING [Lit "Invalid IPv4 address: "; Str (JStr "invalid_ip")]] /\
  threshold (logged WARNING [Lit "Invalid IPv4 address: "; Str (JStr "invalid_ip")]
               (logging_ready sample_args (initial_state (Some 2%nat))))
  = threshold (logging_ready sample_args (initial_state (Some 3%nat))) /\
  exists records,
    trace (logged WARNING [Lit "Invalid IPv4 address: "; Str (JStr "invalid_ip")]
             (logging_ready sample_args (initial_state (Some 2%nat))))
    = (trace (logging_ready sample_args (initial_state (Some 3%nat))) ++ records)%list /\
    forallb is_record records = true /\
    printed_lines
      (trace (logged WARNING [Lit "Invalid IPv4 address: "; Str (JStr "invalid_ip")]
                (logging_ready sample_args (initial_state (Some 2%nat)))))
    = printed_lines (trace (logging_ready sample_args (initial_state (Some 3%nat)))) /\
    standard_output
      (trace (logged WARNING [Lit "Invalid IPv4 address: "; Str (JStr "invalid_ip")]
                (logging_ready sample_args (initial_state (Some 2%nat)))))
    = (standard_output (trace (logging_ready sample_args (initial_state (Some 3%nat))))
       ++ stdout_from
            (consoles_after [] (trace (logging_ready sample_args (initial_state (Some 3%nat)))))
            records)%list /\
    Forall (fun out => exists lvl msg, out = Logged lvl msg)
           (stdout_from
              (consoles_after [] (trace (logging_ready sample_args (initial_state (Some 3%nat)))))
              records) /\
    (consoles_after [] (trace (logging_ready sample_args (initial_state (Some 3%nat)))) = [] ->
     standard_output
       (trace (logged WARNING [Lit "Invalid IPv4 address: "; Str (JStr "invalid_ip")]
                 (logging_ready sample_args (initial_state (Some 2%nat)))))
     = standard_output (trace (logging_ready sample_args (initial_state (Some 3%nat))))).
Proof.
  split; [reflexivity|]. split; [reflexivity|].
  apply (count_valid_ips_only_logs [host_entry (JStr "invalid_ip"); JNull]
           (logging_ready sample_args (initial_state (Some 3%nat)))
           (logged WARNING [Lit "Invalid IPv4 address: "; Str (JStr "invalid_ip")]
              (logging_ready sample_args (initial_state (Some 2%nat))))
           (Raise (AttributeError "NoneType" "get"))).
  reflexivity.
Defined.

(** ** The counter over a concatenation *)

Lemma count_loop_app l1 : forall l2 c s,
  count_valid_ips_loop (l1 ++ l2) c s
  = bind (count_valid_ips_loop l1 c) (count_valid_ips_loop l2) s.
Proof.
  induction l1 as [|e l1 IH]; intros l2 c s; simpl.
  - reflexivity.
  - unfold bind at 1 2 3.
    destruct (count_valid_ips_step e c s) as [[c'|err] s1]; [|reflexivity].
    rewrite IH. reflexivity.
Qed.

Lemma valid_count_app l1 l2 : valid_count (l1 ++ l2) = valid_count l1 + valid_count l2.
Proof.
  unfold valid_count. rewrite filter_app, length_app. lia.
Qed.

Lemma valid_count_bounds l : 0 <= valid_count l <= Z.of_nat (List.length l).
Proof.
  unfold valid_count. pose proof (filter_length_le counted l). lia.
Qed.

Lemma count_loop_run l : forall c s,
  is_host_list l = true -> sigint s = None ->
  count_valid_ips_loop l c s = (Ok (c + valid_count l), count_logged_all l s).
Proof.
  unfold valid_count, count_logged_all.
  induction l as [|e l IH]; intros c s W Q; simpl.
  - unfold ret. now rewrite Z.add_0_r.
  - simpl in W. apply andb_true_iff in W as [We Wl].
    unfold bind. rewrite (count_step_quiet e c s We Q).
    rewrite (IH _ _ Wl) by (now rewrite count_logged_sigint).
    f_equal. f_equal. destruct (counted e); simpl List.length; lia.
Qed.

Lemma count_logged_all_sigint l : forall s, sigint (count_logged_all l s) = sigint s.
Proof.
  unfold count_logged_all. induction l as [|e l IH]; intros s; simpl; [reflexivity|].
  now rewrite IH, count_logged_sigint.
Qed.

(** X2.  Counting is additive: on host lists, and unless interrupted, the
    count of a concatenation is the count of the first part plus the count
    the second part gets in the state the first one leaves; a count lies
    between 0 and the number of entries. *)
Theorem count_valid_ips_additive (l1 l2 : list json) (s : state) :
  is_host_list l1 = true -> is_host_list l2 = true -> sigint s = None ->
  exists n1 n2 s1 s2,
    count_valid_ips l1 s = (Ok n1, s1) /\
    count_valid_ips l2 s1 = (Ok n2, s2) /\
    count_valid_ips (l1 ++ l2) s = (Ok (n1 + n2), s2) /\
    0 <= n1 <= Z.of_nat (List.length l1) /\
    0 <= n1 + n2 <= Z.of_nat (List.length (l1 ++ l2)).
Proof.
  intros W1 W2 Q.
  assert (Q1 : sigint (count_logged_all l1 s) = None)
    by now rewrite count_logged_all_sigint.
  exists (valid_count l1), (valid_count l2), (count_logged_all l1 s),
    (count_logged_all l2 (count_logged_all l1 s)).
  unfold count_valid_ips.
  split; [now rewrite (count_loop_run l1 0 s W1 Q)|].
  split; [now rewrite (count_loop_run l2 0 _ W2 Q1)|]. split.
  - rewrite count_loop_app. unfold bind.
    rewrite (count_loop_run l1 0 s W1 Q). simpl.
    now rewrite (count_loop_run l2 _ _ W2 Q1).
  - split; [apply valid_count_bounds|].
    rewrite <- valid_count_app. apply valid_count_bounds.
Qed.

Lemma count_valid_ips_additive_witness :
  is_host_list sample_hosts = true /\ is_host_list [host_entry (JInt 7)] = true /\
  sigint (initial_state None) = None /\
  exists n1 n2 s1 s2,
    count_valid_ips sample_hosts (initial_state None) = (Ok n1, s1) /\
    count_valid_ips [host_entry (JInt 7)] s1 = (Ok n2, s2) /\
    count_valid_ips (sample_hosts ++ [host_entry (JInt 7)]) (initial_state None)
    = (Ok (n1 + n2), s2) /\
    0 <= n1 <= Z.of_nat (List.length sample_hosts) /\
    0 <= n1 + n2 <= Z.of_nat (List.length (sample_hosts ++ [host_entry (JInt 7)])).
Proof.
  split; [reflexivity|]. split; [reflexivity|]. split; [reflexivity|].
  apply (count_valid_ips_additive sample_hosts [host_entry (JInt 7)] (initial_state None));
    reflexivity.
Defined.

(** ** The records of the counter *)

Lemma count_logged_trace e s :
  trace (count_logged e s) = (trace s ++ count_events (threshold s) e)%list.
Proof.
  unfold count_logged, count_events, logged.
  destruct (ip_field e) as [v|]; [|now rewrite app_nil_r].
  destruct (truthy v); [|now rewrite app_nil_r].
  destruct (valid_ipv4 v); destruct (_ <=? _); simpl; now rewrite ?app_nil_r.
Qed.

Lemma count_logged_all_threshold l : forall s,
  threshold (count_logged_all l s) = threshold s.
Proof.
  unfold count_logged_all. induction l as [|e l IH]; intros s; simpl; [reflexivity|].
  now rewrite IH, count_logged_threshold.
Qed.

Lemma count_logged_all_trace l : forall s,
  trace (count_logged_all l s)
  = (trace s ++ flat_map (count_events (threshold s)) l)%list.
Proof.
  unfold count_logged_all. induction l as [|e l IH]; intros s; simpl.
  - now rewrite app_nil_r.
  - rewrite IH, count_logged_trace, count_logged_threshold. now rewrite <- app_assoc.
Qed.

Lemma count_events_entry_quiet th e :
  th = INFO \/ th = WARNING ->
  (rejected e = true /\ exists msg, count_events th e = [ELog WARNING msg]) \/
  (rejected e = false /\ count_events th e = []).
Proof.
  intros T. unfold count_events, rejected.
  destruct (ip_field e) as [v|]; [|now right].
  destruct (truthy v); [|now right].
  destruct (valid_ipv4 v); destruct T as [-> | ->]; simpl; eauto.
Qed.

Lemma count_events_quiet_mode th l :
  th = INFO \/ th = WARNING ->
  List.length (flat_map (count_events th) l) = List.length (filter rejected l) /\
  Forall (fun ev => exists msg, ev = ELog WARNING msg) (flat_map (count_events th) l).
Proof.
  intros T. induction l as [|e l [IH1 IH2]]; [split; [reflexivity|constructor]|].
  cbn [flat_map filter]. rewrite length_app, IH1.
  destruct (count_events_entry_quiet th e T) as [[-> [msg ->]]|[-> ->]].
  - split; [reflexivity|]. constructor; [now exists msg|exact IH2].
  - split; [reflexivity|exact IH2].
Qed.

Lemma count_events_entry_verbose e :
  List.length (count_events DEBUG e)
  = ((if counted e then 1 else 0) + (if rejected e then 1 else 0))%nat.
Proof.
  unfold count_events, counted, rejected.
  destruct (ip_field e) as [v|]; [|reflexivity].
  destruct (truthy v); [|reflexivity].
  destruct (valid_ipv4 v); reflexivity.
Qed.

Lemma count_events_verbose l :
  List.length (flat_map (count_events DEBUG) l)
  = (List.length (filter counted l) + List.length (filter rejected l))%nat.
Proof.
  induction l as [|e l IH]; [reflexivity|].
  cbn [flat_map filter]. rewrite length_app, IH, count_events_entry_verbose.
  destruct (counted e), (rejected e); simpl List.length; lia.
Qed.

(** X3.  On a host list, and unless interrupted, [count_valid_ips] appends
    to the log exactly the records of its entries, in order: for each truthy
    address a [DEBUG] record when it is valid and a [WARNING] record when it
    is not, each kept when the threshold lets it through.  Without
    [--verbose] (threshold [INFO], or the default [WARNING]) that is one
    [WARNING] per rejected address and nothing else; with it, one record per
    truthy address. *)
Theorem count_valid_ips_records (host_list : list json) (s : state) :
  is_host_list host_list = true -> sigint s = None ->
  exists s',
    count_valid_ips host_list s = (Ok (valid_count host_list), s') /\
    trace s' = (trace s ++ flat_map (count_events (threshold s)) host_list)%list /\
    (threshold s = INFO \/ threshold s = WARNING ->
     List.length (flat_map (count_events (threshold s)) host_list)
     = List.length (filter rejected host_list) /\
     Forall (fun ev => exists msg, ev = ELog WARNING msg)
            (flat_map (count_events (threshold s)) host_list)) /\
    (threshold s = DEBUG ->
     List.length (flat_map (count_events (threshold s)) host_list)
     = (List.length (filter counted host_list)
        + List.length (filter rejected host_list))%nat).
Proof.
  intros W Q. exists (count_logged_all host_list s). unfold count_valid_ips.
  rewrite (count_loop_run host_list 0 s W Q). split; [reflexivity|].
  split; [apply count_logged_all_trace|]. split.
  - apply count_events_quiet_mode.
  - intros ->. apply count_events_verbose.
Qed.

Lemma count_valid_ips_records_witness :
  is_host_list sample_hosts = true /\ sigint (initial_state None) = None /\
  exists s',
    count_valid_ips sample_hosts (initial_state None)
    = (Ok (valid_count sample_hosts), s') /\
    trace s'
    = (trace (initial_state None)
       ++ flat_map (count_events (threshold (initial_state None))) sample_hosts)%list /\
    (threshold (initial_state None) = INFO \/ threshold (initial_state None) = WARNING ->
     List.length (flat_map (count_events (threshold (initial_state None))) sample_hosts)
     = List.length (filter rejected sample_hosts) /\
     Forall (fun ev => exists msg, ev = ELog WARNING msg)
            (flat_map (count_events (threshold (initial_state None))) sample_hosts)) /\
    (threshold (initial_state None) = DEBUG ->
     List.length (flat_map (count_events (threshold (initial_state None))) sample_hosts)
     = (List.length (filter counted sample_hosts)
        + List.length (filter rejected sample_hosts))%nat).
Proof.
  split; [reflexivity|]. split; [reflexivity|].
  apply (count_valid_ips_records sample_hosts (initial_state None)); reflexivity.
Defined.

(** ** Entries that are no host entries *)

Lemma count_loop_malformed_quiet l : forall c s ty s1,
  sigint s = None ->
  count_valid_ips_loop l c s = (Raise (AttributeError ty "get"), s1) ->
  sigint s1 = None.
Proof.
  induction l as [|e l IH]; intros c s ty s1 Q; simpl; [discriminate|].
  unfold bind. destruct (is_host_entry e) eqn:We.
  - rewrite (count_step_quiet e c s We Q). apply IH.
    now rewrite count_logged_sigint.
  - destruct (count_step_malformed e c s We) as [ty' ->]. now intros [= _ <-].
Qed.

(** X4.  When some entry of the list is no host entry (not a dictionary,
    or with a ["host"] that is none), lines 194 to 197 call [print] not at
    all: no block is written, not even those of the entries before it,
    because the counting pass runs first and raises [AttributeError], having
    added only log records.  Under [main]'s handlers the run then prints the
    one line of the generic handler, logs it at [ERROR] and exits with
    status 1: standard output receives that line and, besides it, only
    records a console handler writes. *)
Theorem malformed_entry_prints_no_block (w : world) (host_list : list json) (s : state) :
  is_host_list host_list = false -> sigint s = None ->
  exists ty s1 records,
    report_hosts host_list s = (Raise (AttributeError ty "get"), s1) /\
    trace s1 = (trace s ++ records)%list /\
    forallb is_record records = true /\
    try_except (report_hosts host_list) (fun _ => true) (main_except w) s
    = (Raise (SystemExit 1), unexpected (AttributeError ty "get") s1) /\
    trace (unexpected (AttributeError ty "get") s1)
    = (trace s ++ records
       ++ [EPrint [Lit "Unexpected error: "; StrExn (AttributeError ty "get")];
           ELog ERROR [Lit "Unexpected error: "; StrExn (AttributeError ty "get")]])%list /\
    printed_lines (trace (unexpected (AttributeError ty "get") s1))
    = (printed_lines (trace s)
       ++ [[Lit "Unexpected error: "; StrExn (AttributeError ty "get")]])%list /\
    standard_output (trace (unexpected (AttributeError ty "get") s1))
    = (standard_output (trace s)
       ++ stdout_from (consoles_after [] (trace s)) records
       ++ Printed [Lit "Unexpected error: "; StrExn (AttributeError ty "get")]
          :: record_lines (consoles_after [] (trace s)) ERROR
               [Lit "Unexpected error: "; StrExn (AttributeError ty "get")])%list /\
    Forall (fun out => exists lvl msg, out = Logged lvl msg)
           (stdout_from (consoles_after [] (trace s)) records).
Proof.
  intros W Q.
  destruct (count_loop_malformed host_list 0 s W Q) as (ty & s1 & E).
  assert (R : report_hosts host_list s = (Raise (AttributeError ty "get"), s1)).
  { unfold report_hosts, bind, count_valid_ips. now rewrite E. }
  pose proof (count_loop_preserves only_records only_records_refl only_records_trans
                count_step_only_records host_list 0 s _ s1 E) as P.
  pose proof (count_loop_malformed_quiet host_list 0 s ty s1 Q E) as Q1.
  destruct (only_records_output s s1 P) as (records & T & F & PL & _ & A & _).
  destruct (stdout_records records (consoles_after [] (trace s)) F) as (_ & _ & C).
  assert (TU : trace (unexpected (AttributeError ty "get") s1)
               = (trace s ++ records
                  ++ [EPrint [Lit "Unexpected error: "; StrExn (AttributeError ty "get")];
                      ELog ERROR [Lit "Unexpected error: ";
                                  StrExn (AttributeError ty "get")]])%list).
  { unfold unexpected, logged, printed. cbn [trace threshold sigint].
    replace (level_rank (threshold s1) <=? level_rank ERROR) with true
      by (symmetry; apply Z.leb_le; destruct (threshold s1); simpl; lia).
    cbn [trace]. rewrite T, <- !app_assoc. reflexivity. }
  exists ty, s1, records. split; [exact R|]. split; [exact T|]. split; [exact F|].
  split; [|split; [exact TU|split; [|split; [|exact A]]]].
  - unfold try_except. rewrite R. cbv beta iota.
    now rewrite main_except_unexpected by (exact Q1 || exact I).
  - unfold unexpected. now rewrite printed_lines_logged, printed_lines_printed, PL.
  - unfold standard_output. rewrite TU, stdout_from_app, stdout_from_app, C.
    cbn [stdout_from]. now rewrite app_nil_r.
Qed.

Lemma malformed_entry_prints_no_block_witness :
  is_host_list [host_entry (JStr "bad"); JStr "oops"] = false /\
  sigint (logging_ready sample_args (initial_state None)) = None /\
  standard_output
    (trace (snd (try_except (report_hosts [host_entry (JStr "bad"); JStr "oops"])
                   (fun _ => true) (main_except sample_world)
                   (logging_ready sample_args (initial_state None)))))
  = [Logged WARNING [Lit "Invalid IPv4 address: "; Str (JStr "bad")];
     Printed [Lit "Unexpected error: "; StrExn (AttributeError "str" "get")];
     Logged ERROR [Lit "Unexpected error: "; StrExn (AttributeError "str" "get")]] /\
  exists ty s1 records,
    report_hosts [host_entry (JStr "bad"); JStr "oops"]
      (logging_ready sample_args (initial_state None))
    = (Raise (AttributeError ty "get"), s1) /\
    trace s1 = (trace (logging_ready sample_args (initial_state None)) ++ records)%list /\
    forallb is_record records = true /\
    try_except (report_hosts [host_entry (JStr "bad"); JStr "oops"]) (fun _ => true)
      (main_except sample_world) (logging_ready sample_args (initial_state None))
    = (Raise (SystemExit 1), unexpected (AttributeError ty "get") s1) /\
    trace (unexpected (AttributeError ty "get") s1)
    = (trace (logging_ready sample_args (initial_state None)) ++ records
       ++ [EPrint [Lit "Unexpected error: "; StrExn (AttributeError ty "get")];
           ELog ERROR [Lit "Unexpected error: "; StrExn (AttributeError ty "get")]])%list /\
    printed_lines (trace (unexpected (AttributeError ty "get") s1))
    = (printed_lines (trace (logging_ready sample_args (initial_state None)))
       ++ [[Lit "Unexpected error: "; StrExn (AttributeError ty "get")]])%list /\
    standard_output (trace (unexpected (AttributeError ty "get") s1))
    = (standard_output (trace (logging_ready sample_args (initial_state None)))
       ++ stdout_from
            (consoles_after [] (trace (logging_ready sample_args (initial_state None))))
            records
       ++ Printed [Lit "Unexpected error: "; StrExn (AttributeError ty "get")]
          :: record_lines
               (consoles_after [] (trace (logging_ready sample_args (initial_state None))))
               ERROR [Lit "Unexpected error: "; StrExn (AttributeError ty "get")])%list /\
    Forall (fun out => exists lvl msg, out = Logged lvl msg)
           (stdout_from
              (consoles_after [] (trace (logging_ready sample_args (initial_state None))))
              records).
Proof.
  split; [reflexivity|]. split; [reflexivity|]. split; [reflexivity|].
  apply (malformed_entry_prints_no_block sample_world
           [host_entry (JStr "bad"); JStr "oops"]
           (logging_ready sample_args (initial_state None))); reflexivity.
Defined.

Lemma extract_step_malformed index e s :
  is_host_entry e = false ->
  exists ty, extract_host_step index e s = (Raise (AttributeError ty "get"), s).
Proof.
  intros W. unfold extract_host_step, bind, lift.
  destruct e as [| | | | | |d]; simpl; eauto.
  simpl in W. destruct (lookup "host" d) as [[| | | | | |hd]|]; simpl; eauto; discriminate.
Qed.

(** X5.  Called on its own, and unless interrupted, [extract_host_data]
    prints the blocks of the host entries that precede the first entry that
    is none (their fields being such as standard output can encode),
    numbered from 1, and then raises [AttributeError]: its output is
    partial, and nothing of the entries after the offending one appears. *)
Theorem extract_host_data_partial (l1 l2 : list json) (bad : json) (s : state) :
  is_host_list l1 = true -> printable l1 = true -> is_host_entry bad = false ->
  sigint s = None ->
  exists ty,
    extract_host_data (l1 ++ bad :: l2) s
    = (Raise (AttributeError ty "get"),
       mkState (trace s ++ presentation_events (threshold s) 1 l1) (threshold s) None) /\
    printed_lines (trace s ++ presentation_events (threshold s) 1 l1)
    = (printed_lines (trace s) ++ presentation l1)%list.
Proof.
  intros W P B Q.
  assert (G : forall l k st, is_host_list l = true -> printable l = true ->
            sigint st = None ->
            exists ty,
              extract_host_data_loop (l ++ bad :: l2) (Z.of_nat k) st
              = (Raise (AttributeError ty "get"),
                 mkState (trace st ++ presentation_events (threshold st) k l)
                   (threshold st) None)).
  { induction l as [|e l IH]; intros k st Wl Pl Qs.
    - simpl. unfold bind.
      destruct (extract_step_malformed (Z.of_nat k) bad st B) as [ty ->].
      exists ty. destruct st as [tr th si]. simpl in *. subst si.
      unfold presentation_events. simpl. now rewrite app_nil_r.
    - simpl in Wl, Pl. apply andb_true_iff in Wl as [We Wl].
      apply andb_true_iff in Pl as [Pe Pl].
      simpl. unfold bind. rewrite (extract_step_quiet _ e st We Pe Qs).
      replace (Z.of_nat k + 1) with (Z.of_nat (S k)) by lia.
      destruct (IH (S k) (mkState (trace st ++ block_events (threshold st) (Z.of_nat k) e)
                            (threshold st) None) Wl Pl eq_refl) as [ty E].
      exists ty. rewrite E. simpl.
      unfold presentation_events, numbered. simpl. now rewrite <- app_assoc. }
  destruct (G l1 1%nat s W P Q) as [ty E]. exists ty. split.
  - exact E.
  - rewrite printed_lines_app, printed_presentation. reflexivity.
Qed.

Lemma extract_host_data_partial_witness :
  is_host_list [host_entry (JStr "10.0.0.1")] = true /\
  printable [host_entry (JStr "10.0.0.1")] = true /\
  is_host_entry JNull = false /\
  sigint (initial_state None) = None /\
  exists ty,
    extract_host_data ([host_entry (JStr "10.0.0.1")] ++ JNull :: [host_entry (JStr "10.0.0.2")])
      (initial_state None)
    = (Raise (AttributeError ty "get"),
       mkState (trace (initial_state None)
                ++ presentation_events (threshold (initial_state None)) 1
                     [host_entry (JStr "10.0.0.1")])
         (threshold (initial_state None)) None) /\
    printed_lines (trace (initial_state None)
                   ++ presentation_events (threshold (initial_state None)) 1
                        [host_entry (JStr "10.0.0.1")])
    = (printed_lines (trace (initial_state None))
       ++ presentation [host_entry (JStr "10.0.0.1")])%list.
Proof.
  split; [reflexivity|]. split; [reflexivity|]. split; [reflexivity|].
  split; [reflexivity|].
  apply (extract_host_data_partial [host_entry (JStr "10.0.0.1")]
           [host_entry (JStr "10.0.0.2")] JNull (initial_state None)); reflexivity.
Defined.

(** ** Interrupts are not swallowed *)

Lemma transparent_ret {A} (a : A) : transparent (ret a).
Proof. intros s r s' [= <- <-] Q. now left. Qed.

Lemma transparent_raise {A} e : transparent (@raise A e).
Proof. intros s r s' [= <- <-] Q. now left. Qed.

Lemma transparent_lift {A} (x : result A) : transparent (lift x).
Proof. intros s r s' [= <- <-] Q. now left. Qed.

Lemma transparent_tick : transparent tick.
Proof.
  intros s r s'. unfold tick.
  destruct (sigint s) as [[|k]|] eqn:E; intros [= <- <-]; simpl; intros Q;
    [now right|discriminate|now left].
Qed.

Lemma transparent_emit ev : transparent (emit ev).
Proof. intros s r s' [= <- <-] Q. now left. Qed.

Lemma transparent_bind {A B} (m : M A) (k : A -> M B) :
  transparent m -> (forall a, transparent (k a)) -> transparent (bind m k).
Proof.
  intros Hm Hk s r s'. unfold bind.
  destruct (m s) as [[a|e] s1] eqn:E.
  - intros H Q. destruct (Hk a s1 r s' H Q) as [Q1| ->]; [|now right].
    destruct (Hm s _ s1 E Q1) as [Q0|D]; [now left|discriminate].
  - intros [= <- <-] Q. destruct (Hm s _ s1 E Q) as [Q0|[= ->]]; [now left|now right].
Qed.

Lemma transparent_try {A} (body : M A) catches handler :
  catches KeyboardInterrupt = false ->
  transparent body -> (forall e, transparent (handler e)) ->
  transparent (try_except body catches handler).
Proof.
  intros C Hb Hh s r s'. unfold try_except.
  destruct (body s) as [[a|e] s1] eqn:E.
  - intros [= <- <-] Q. eapply Hb; eauto.
  - destruct (catches e) eqn:Ce.
    + intros H Q. destruct (Hh e s1 r s' H Q) as [Q1| ->]; [|now right].
      destruct (Hb s _ s1 E Q1) as [Q0|[= ->]]; [now left|congruence].
    + intros [= <- <-] Q. destruct (Hb s _ s1 E Q) as [Q0|[= ->]]; [now left|now right].
Qed.

Lemma transparent_print line : transparent (print line).
Proof.
  apply transparent_bind; [apply transparent_tick|]. intros _.
  destruct (encodable line); [apply transparent_emit|apply transparent_raise].
Qed.

Lemma transparent_log lvl msg : transparent (log lvl msg).
Proof.
  apply transparent_bind; [apply transparent_tick|]. intros _ s r s'.
  destruct (_ <=? _); intros [= <- <-] Q; now left.
Qed.

Create HintDb transparency.

#[local] Hint Resolve transparent_ret transparent_tick transparent_emit transparent_print
  transparent_log transparent_lift transparent_raise : transparency.

Ltac transparency :=
  repeat first
    [ solve [auto with transparency]
    | apply transparent_bind; [|intros ?]
    | apply transparent_try; [reflexivity| |intros ?]
    | match goal with
      | |- transparent (if ?b then _ else _) => destruct b
      | |- transparent (match ?x with _ => _ end) => destruct x
      | |- transparent (sys_exit _) => apply transparent_raise
      end ].

Lemma transparent_count_loop l : forall c, transparent (count_valid_ips_loop l c).
Proof.
  induction l as [|e l IH]; intros c; simpl; [apply transparent_ret|].
  apply transparent_bind; [|intros; apply IH].
  unfold count_valid_ips_step. transparency.
Qed.

Lemma transparent_extract_loop l : forall i, transparent (extract_host_data_loop l i).
Proof.
  induction l as [|e l IH]; intros i; simpl; [apply transparent_ret|].
  apply transparent_bind; [|intros; apply IH].
  unfold extract_host_step. transparency.
Qed.

Lemma transparent_scan w p content patterns :
  transparent (scan_patterns w p patterns content).
Proof.
  induction patterns as [|x xs IH]; simpl; [apply transparent_ret|].
  apply transparent_bind.
  - unfold load_global. transparency.
  - intros _. destruct (re_search w x content); [transparency|apply IH].
Qed.

Lemma transparent_check_sensitive_data w p : transparent (check_sensitive_data w p).
Proof.
  unfold check_sensitive_data, read_text. apply transparent_try; [reflexivity| |].
  - apply transparent_bind; [transparency|]. intros content. apply transparent_scan.
  - intros e. transparency.
Qed.

(** X6.  Neither [count_valid_ips] (with its [except ValueError]), nor
    [extract_host_data], nor [check_sensitive_data] (with its
    [except IOError]) swallows an interrupt: when one is pending as the
    function starts, the function either ends in [KeyboardInterrupt] or
    leaves the interrupt pending for its caller. *)
Theorem interrupt_not_swallowed (s : state) :
  sigint s <> None ->
  (forall l r s', count_valid_ips l s = (r, s') ->
                  r = Raise KeyboardInterrupt \/ sigint s' <> None) /\
  (forall l r s', extract_host_data l s = (r, s') ->
                  r = Raise KeyboardInterrupt \/ sigint s' <> None) /\
  (forall w p r s', check_sensitive_data w p s = (r, s') ->
                    r = Raise KeyboardInterrupt \/ sigint s' <> None).
Proof.
  intros P.
  assert (G : forall A (m : M A) r s', transparent m -> m s = (r, s') ->
                r = Raise KeyboardInterrupt \/ sigint s' <> None).
  { intros A m r s' T E. destruct (sigint s') eqn:Q; [right; discriminate|].
    destruct (T s r s' E Q) as [Q0| ->]; [contradiction|now left]. }
  split; [|split].
  - intros l r s'. apply G, transparent_count_loop.
  - intros l r s'. apply G, transparent_extract_loop.
  - intros w p r s'. apply G, transparent_check_sensitive_data.
Qed.

Lemma interrupt_not_swallowed_witness :
  sigint (initial_state (Some 1%nat)) <> None /\
  count_valid_ips [host_entry (JStr "x"); host_entry (JStr "y")] (initial_state (Some 1%nat))
  = (Raise KeyboardInterrupt,
     mkState [ELog WARNING [Lit "Invalid IPv4 address: "; Str (JStr "x")]] WARNING None) /\
  (Raise KeyboardInterrupt = @Raise Z KeyboardInterrupt \/
   sigint (mkState [ELog WARNING [Lit "Invalid IPv4 address: "; Str (JStr "x")]]
             WARNING None) <> None).
Proof.
  split; [discriminate|]. split; [reflexivity|].
  apply (proj1 (interrupt_not_swallowed (initial_state (Some 1%nat))
                  ltac:(discriminate))
           [host_entry (JStr "x"); host_entry (JStr "y")]).
  reflexivity.
Defined.

(** ** The pre-scan *)

Lemma scan_only_records w p content patterns :
  preserves only_records (scan_patterns w p patterns content).
Proof.
  induction patterns as [|x xs IH]; simpl; [apply (preserves_ret _ only_records_refl)|].
  apply (preserves_bind _ only_records_trans).
  - unfold load_global. preserved only_records_refl only_records_trans.
  - intros _. destruct (re_search w x content); [|apply IH].
    preserved only_records_refl only_records_trans.
Qed.

Lemma check_sensitive_data_only_records w p :
  preserves only_records (check_sensitive_data w p).
Proof.
  unfold check_sensitive_data, read_text. apply (preserves_try _ only_records_trans).
  - apply (preserves_bind _ only_records_trans).
    + preserved only_records_refl only_records_trans.
    + intros content. apply scan_only_records.
  - intros e. preserved only_records_refl only_records_trans.
Qed.

(** X7.  What [check_sensitive_data] does with the file, when no
    interrupt arrives: a file that cannot be opened or read ([OSError])
    makes it return [False] after one [ERROR] record, the exception being
    swallowed; a file that is no valid UTF-8 lets [UnicodeDecodeError]
    through; a readable file ends in [NameError].  In every run, interrupted
    or not, it never returns [True] and never calls [print]: all it adds to
    the trace are log records, which reach standard output only through a
    console handler. *)
Theorem check_sensitive_data_outcomes (w : world) (input_path : string) (s : state) :
  sigint s = None ->
  check_sensitive_data w input_path s
  = match scan_read w input_path with
    | ReadText _ => (Raise (NameError "re"), s)
    | ReadOSError msg =>
        (Ok false,
         logged ERROR [Lit "Failed to read "; StrPath input_path;
                       Lit " for sensitive data check: "; StrExn (OSError msg)] s)
    | ReadUnicodeError msg => (Raise (UnicodeDecodeError msg), s)
    end /\
  (forall s0 r s0', check_sensitive_data w input_path s0 = (r, s0') ->
     r <> Ok true /\
     exists records,
       trace s0' = (trace s0 ++ records)%list /\
       forallb is_record records = true /\
       printed_lines (trace s0') = printed_lines (trace s0) /\
       standard_output (trace s0')
       = (standard_output (trace s0)
          ++ stdout_from (consoles_after [] (trace s0)) records)%list /\
       Forall (fun out => exists lvl msg, out = Logged lvl msg)
              (stdout_from (consoles_after [] (trace s0)) records) /\
       (consoles_after [] (trace s0) = [] ->
        standard_output (trace s0') = standard_output (trace s0))).
Proof.
  intros Q. split.
  - destruct (scan_read w input_path) as [content|msg|msg] eqn:R.
    + now apply check_sensitive_data_name_error with content.
    + now apply check_sensitive_data_unreadable.
    + now apply check_sensitive_data_undecodable.
  - intros s0 r s0' E. split.
    + intros ->. now destruct (check_sensitive_data_never_clean w input_path s0 s0').
    + apply only_records_output.
      apply (check_sensitive_data_only_records w input_path s0 r s0' E).
Qed.

Lemma check_sensitive_data_outcomes_witness :
  sigint (logging_ready sample_args (initial_state None)) = None /\
  check_sensitive_data missing_file_world "discovery.json"
    (logging_ready sample_args (initial_state None))
  = (Ok false,
     logged ERROR [Lit "Failed to read "; StrPath "discovery.json";
                   Lit " for sensitive data check: ";
                   StrExn (OSError "No such file or directory")]
       (logging_ready sample_args (initial_state None))) /\
  standard_output
    (trace (logged ERROR [Lit "Failed to read "; StrPath "discovery.json";
                          Lit " for sensitive data check: ";
                          StrExn (OSError "No such file or directory")]
              (logging_ready sample_args (initial_state None))))
  = [Logged ERROR [Lit "Failed to read "; StrPath "discovery.json";
                   Lit " for sensitive data check: ";
                   StrExn (OSError "No such file or directory")]] /\
  check_sensitive_data missing_file_world "discovery.json"
    (logging_ready sample_args (initial_state None))
  = match scan_read missing_file_world "discovery.json" with
    | ReadText _ => (Raise (NameError "re"), logging_ready sample_args (initial_state None))
    | ReadOSError msg =>
        (Ok false,
         logged ERROR [Lit "Failed to read "; StrPath "discovery.json";
                       Lit " for sensitive data check: "; StrExn (OSError msg)]
           (logging_ready sample_args (initial_state None)))
    | ReadUnicodeError msg =>
        (Raise (UnicodeDecodeError msg), logging_ready sample_args (initial_state None))
    end /\
  (forall s0 r s0',
      check_sensitive_data missing_file_world "discovery.json" s0 = (r, s0') ->
      r <> Ok true /\
      exists records,
        trace s0' = (trace s0 ++ records)%list /\
        forallb is_record records = true /\
        printed_lines (trace s0') = printed_lines (trace s0) /\
        standard_output (trace s0')
        = (standard_output (trace s0)
           ++ stdout_from (consoles_after [] (trace s0)) records)%list /\
        Forall (fun out => exists lvl msg, out = Logged lvl msg)
               (stdout_from (consoles_after [] (trace s0)) records) /\
        (consoles_after [] (trace s0) = [] ->
         standard_output (trace s0') = standard_output (trace s0))).
Proof.
  split; [reflexivity|]. split; [reflexivity|]. split; [reflexivity|].
  apply (check_sensitive_data_outcomes missing_file_world "discovery.json"
           (logging_ready sample_args (initial_state None))); reflexivity.
Defined.

(** ** The structure check, accepting *)

(** X8.  [check_structure] yields a host list exactly when the document
    is a JSON object whose [Detail] is an object whose [host_list] is a
    list; it then yields that list and leaves the state untouched: nothing
    printed, nothing logged, no interrupt point passed.  A list or a string
    that merely contains ["Detail"] is not accepted. *)
Theorem check_structure_accepts_iff (json_data : json) (l : list json) (s s' : state) :
  check_structure json_data s = (Ok l, s') <->
  host_list_of json_data = Some l /\ s' = s.
Proof.
  split.
  - apply check_structure_returns.
  - intros [H ->]. now apply host_list_of_accepted.
Qed.

(** A list that holds the string ["Detail"] passes the membership test and
    fails at the subscript. *)
Example list_with_detail_not_accepted :
  fst (check_structure (JList [JStr "Detail"]) (initial_state None))
  = Raise (TypeError "list").
Proof. reflexivity. Qed.

(** ** [parse_arguments] *)

Lemma parser_error_refused {A} w message s :
  sigint s = None ->
  @parser_error A w message s = (Raise (SystemExit 2), refused w message s).
Proof.
  intros Q. unfold parser_error, eprint, sys_exit, raise, bind, emit, refused.
  rewrite (tick_quiet s Q). cbv beta iota. unfold tick. simpl. rewrite Q.
  simpl. rewrite <- app_assoc. reflexivity.
Qed.

(** X9.  With a well-formed command line and no interrupt,
    [parse_arguments] tests the file before it looks at the suffix: a path
    for which [Path.is_file()] answers [False] is refused with "Input file
    does not exist" whatever its suffix, one for which it answers [True]
    and whose lower-cased suffix is not [.json] with "Input file must be a
    JSON file", each through [parser.error] (on standard error the usage
    text as argparse formats it, then the message; exit status 2).  When
    [is_file] itself raises [OSError], that exception leaves
    [parse_arguments] and nothing is written.  Otherwise the namespace is
    returned and nothing is written. *)
Theorem parse_arguments_outcome (w : world) (a : args) (s : state) :
  argv w = ArgvNamespace a ->
  sigint s = None ->
  parse_arguments w s
  = match is_file w (input_file a) with
    | inr msg => (Raise (OSError msg), s)
    | inl false =>
        (Raise (SystemExit 2),
         refused w [Lit "Input file does not exist: "; Lit (input_file a)] s)
    | inl true =>
        if negb (String.eqb (lower (path_suffix (input_file a))) ".json")
        then (Raise (SystemExit 2),
              refused w [Lit "Input file must be a JSON file: "; Lit (input_file a)] s)
        else (Ok a, s)
    end.
Proof.
  intros N Q. unfold parse_arguments, parse_args. rewrite N.
  unfold bind, ret. rewrite !(tick_quiet s Q). cbv beta iota.
  destruct (is_file w (input_file a)) as [[|]|msg]; cbn [negb]; cbv beta iota.
  - destruct (negb (String.eqb _ _)); cbv beta iota; [|reflexivity].
    now rewrite (@parser_error_refused unit w _ s Q).
  - now rewrite (@parser_error_refused unit w _ s Q).
  - reflexivity.
Qed.

Lemma parse_arguments_outcome_witness :
  argv missing_file_world = ArgvNamespace sample_args /\
  sigint (initial_state None) = None /\
  parse_arguments missing_file_world (initial_state None)
  = (Raise (SystemExit 2),
     mkState
       [EStderr [Lit sample_usage];
        EStderr [Lit "network_discovery_parser.py"; Lit ": error: ";
                 Lit "Input file does not exist: "; Lit "discovery.json"]]
       WARNING None) /\
  parse_arguments missing_file_world (initial_state None)
  = match is_file missing_file_world (input_file sample_args) with
    | inr msg => (Raise (OSError msg), initial_state None)
    | inl false =>
        (Raise (SystemExit 2),
         refused missing_file_world
           [Lit "Input file does not exist: "; Lit (input_file sample_args)]
           (initial_state None))
    | inl true =>
        if negb (String.eqb (lower (path_suffix (input_file sample_args))) ".json")
        then (Raise (SystemExit 2),
              refused missing_file_world
                [Lit "Input file must be a JSON file: "; Lit (input_file sample_args)]
                (initial_state None))
        else (Ok sample_args, initial_state None)
    end.
Proof.
  split; [reflexivity|]. split; [reflexivity|]. split; [reflexivity|].
  apply (parse_arguments_outcome missing_file_world sample_args (initial_state None));
    reflexivity.
Defined.

Lemma parser_error_never_returns {A} w message s (a : A) s' :
  parser_error w message s <> (Ok a, s').
Proof.
  intros H. unfold parser_error in H.
  apply bind_ok in H as ([] & s1 & _ & H).
  apply bind_ok in H as ([] & s2 & _ & H). discriminate.
Qed.

(** X10.  In every run, interrupted or not and whatever the command
    line, [parse_arguments] returns only a namespace that the command line
    gave, whose input file exists and has the suffix [.json] in some
    capitalisation; a run that returns has written nothing. *)
Theorem parse_arguments_returns (w : world) (a : args) (s s' : state) :
  parse_arguments w s = (Ok a, s') ->
  arguments_accepted w a /\ trace s' = trace s.
Proof.
  intros H. unfold parse_arguments in H.
  apply bind_ok in H as (a0 & s1 & H1 & H).
  apply bind_ok in H as (exists_ & s2 & H2 & H).
  apply bind_ok in H as ([] & s3 & H3 & H).
  apply bind_ok in H as ([] & s4 & H4 & H).
  unfold ret in H. injection H as -> ->.
  unfold parse_args in H1.
  destruct (argv w) as [|h|m|a1] eqn:N.
  - apply bind_ok in H1 as ([] & s5 & _ & H1). discriminate.
  - apply bind_ok in H1 as ([] & s5 & _ & H1). discriminate.
  - now apply parser_error_never_returns in H1.
  - apply bind_ok in H1 as ([] & s5 & T1 & H1). unfold ret in H1.
    injection H1 as -> ->.
    apply bind_ok in H2 as ([] & s6 & T2 & H2).
    destruct (is_file w (input_file a)) as [answer|msg] eqn:F; [|discriminate].
    unfold ret in H2. injection H2 as <- ->.
    destruct answer; cbn [negb] in H3;
      [|now apply parser_error_never_returns in H3].
    unfold ret in H3. injection H3 as <-.
    destruct (String.eqb (lower (path_suffix (input_file a))) ".json") eqn:X;
      cbn [negb] in H4; [|now apply parser_error_never_returns in H4].
    unfold ret in H4. injection H4 as <-.
    apply tick_ok in T1 as [T1 _], T2 as [T2 _].
    split; [|congruence].
    repeat split; auto. now apply String.eqb_eq.
Qed.

Lemma parse_arguments_returns_witness :
  parse_arguments sample_world (initial_state None) = (Ok sample_args, initial_state None) /\
  arguments_accepted sample_world sample_args /\
  trace (initial_state None) = trace (initial_state None).
Proof.
  split; [reflexivity|].
  apply (parse_arguments_returns sample_world sample_args
           (initial_state None) (initial_state None)).
  reflexivity.
Defined.

(** ** The suffix of a path *)

Lemma split_at sep x y :
  split sep (x ++ String sep y) = (split sep x ++ split sep y)%list.
Proof.
  induction x as [|c r IH]; simpl.
  - now rewrite Ascii.eqb_refl.
  - destruct (Ascii.eqb c sep); [now rewrite IH|].
    rewrite IH. destruct (split sep r) as [|p ps] eqn:E; [|reflexivity].
    now apply split_nonempty in E.
Qed.

Lemma length_append (x y : string) :
  String.length (x ++ y) = (String.length x + String.length y)%nat.
Proof. induction x as [|c r IH]; simpl; [reflexivity|now rewrite IH]. Qed.

Lemma last_component dir name :
  name <> "" -> name <> "." -> contains_char "/" name = false ->
  path_name (dir ++ String "/" name) = name.
Proof.
  intros N1 N2 C. unfold path_name.
  rewrite split_at, (split_plain _ _ C), filter_app. simpl.
  destruct (String.eqb name "") eqn:E1; [now apply String.eqb_eq in E1|].
  destruct (String.eqb name ".") eqn:E2; [now apply String.eqb_eq in E2|].
  simpl. apply last_last.
Qed.

Lemma sole_component name :
  name <> "" -> name <> "." -> contains_char "/" name = false ->
  path_name name = name.
Proof.
  intros N1 N2 C. unfold path_name. rewrite (split_plain _ _ C). simpl.
  destruct (String.eqb name "") eqn:E1; [now apply String.eqb_eq in E1|].
  destruct (String.eqb name ".") eqn:E2; [now apply String.eqb_eq in E2|].
  reflexivity.
Qed.

Lemma suffix_of_name stem ext p :
  stem <> "" -> ext <> "" -> contains_char "." ext = false ->
  path_name p = stem ++ String "." ext ->
  path_suffix p = String "." ext.
Proof.
  intros S E C N. unfold path_suffix. rewrite N, split_at, (split_plain _ _ C).
  rewrite rev_app_distr. simpl.
  destruct (rev (split "." stem)) as [|x xs] eqn:R.
  { apply (f_equal (@rev string)) in R. rewrite rev_involutive in R.
    now apply split_nonempty in R. }
  destruct (String.eqb ext "") eqn:X; [now apply String.eqb_eq in X|].
  cbn [negb andb]. rewrite length_append. simpl String.length.
  destruct stem as [|c r]; [contradiction|]. simpl String.length.
  replace (_ <? _)%nat with true; [reflexivity|].
  symmetry. apply Nat.ltb_lt. lia.
Qed.

(** X11.  Which names pass the suffix test of [parse_arguments]: for a
    last component [stem.ext] with a non-empty stem and an extension
    without a dot, in a directory or not, the suffix is [.ext], so the test
    passes exactly when the extension is [json] in some capitalisation;
    a dot file such as [.json], having no stem, has no suffix and fails
    it. *)
Theorem json_suffix_test (dir stem ext : string) :
  stem <> "" -> ext <> "" ->
  contains_char "/" stem = false ->
  contains_char "/" ext = false ->
  contains_char "." ext = false ->
  path_suffix (stem ++ "." ++ ext) = "." ++ ext /\
  path_suffix (dir ++ "/" ++ stem ++ "." ++ ext) = "." ++ ext /\
  (String.eqb (lower (path_suffix (dir ++ "/" ++ stem ++ "." ++ ext))) ".json"
   = String.eqb (lower ext) "json") /\
  path_suffix (dir ++ "/" ++ "." ++ ext) = "".
Proof.
  intros S E C1 C2 C3.
  assert (N1 : stem ++ String "." ext <> "") by (destruct stem; [contradiction|discriminate]).
  assert (N2 : stem ++ String "." ext <> ".").
  { destruct stem as [|c [|c' r]]; [contradiction| |discriminate].
    destruct ext; [contradiction|discriminate]. }
  assert (C : contains_char "/" (stem ++ String "." ext) = false).
  { rewrite contains_char_app, C1. simpl. exact C2. }
  assert (A : path_suffix (dir ++ String "/" (stem ++ String "." ext)) = String "." ext).
  { apply suffix_of_name with stem; auto. now apply last_component. }
  change (stem ++ "." ++ ext) with (stem ++ String "." ext).
  change (dir ++ "/" ++ stem ++ String "." ext)
    with (dir ++ String "/" (stem ++ String "." ext)).
  change ("." ++ ext) with (String "." ext).
  change (dir ++ "/" ++ String "." ext) with (dir ++ String "/" (String "." ext)).
  split; [|split; [|split]].
  - apply suffix_of_name with stem; auto. now apply sole_component.
  - exact A.
  - rewrite A. reflexivity.
  - unfold path_suffix. rewrite last_component.
    + simpl. rewrite (split_plain _ _ C3). simpl.
      destruct (String.eqb ext ""); [reflexivity|]. cbn [negb andb].
      replace (_ <? _)%nat with false; [reflexivity|].
      symmetry. apply Nat.ltb_ge. simpl. lia.
    + discriminate.
    + destruct ext; [contradiction|discriminate].
    + simpl. exact C2.
Qed.

Lemma json_suffix_test_witness :
  "discovery" <> "" /\ "JSON" <> "" /\
  contains_char "/" "discovery" = false /\
  contains_char "/" "JSON" = false /\
  contains_char "." "JSON" = false /\
  path_suffix ("discovery" ++ "." ++ "JSON") = "." ++ "JSON" /\
  path_suffix ("/tmp/scans" ++ "/" ++ "discovery" ++ "." ++ "JSON") = "." ++ "JSON" /\
  (String.eqb (lower (path_suffix ("/tmp/scans" ++ "/" ++ "discovery" ++ "." ++ "JSON")))
     ".json"
   = String.eqb (lower "JSON") "json") /\
  path_suffix ("/tmp/scans" ++ "/" ++ "." ++ "JSON") = "".
Proof.
  split; [discriminate|]. split; [discriminate|].
  split; [reflexivity|]. split; [reflexivity|]. split; [reflexivity|].
  apply (json_suffix_test "/tmp/scans" "discovery" "JSON");
    try discriminate; reflexivity.
Defined.

(** ** The older script: dotted quads under [inet_aton] *)

Lemma octets_scanned a : In a octets -> octet_scanned a.
Proof.
  intros H. cbv in H.
  repeat (destruct H as [<-|H];
          [split; [intros t; reflexivity|];
           split; [reflexivity|];
           split; [do 2 eexists; split; reflexivity|split; reflexivity]|]).
  contradiction.
Qed.

Lemma inet_aton_loop_eq fuel c rest parts :
  Legacy.inet_aton_loop (S fuel) (String c rest) parts
  = if negb (is_digit c) then None
    else
      let '(val, rest0) := Legacy.strtoul0 (String c rest) in
      if 4294967295 <? val then None
      else match rest0 with
           | String "." rest' =>
               if (2 <? List.length parts)%nat || (255 <? val) then None
               else Legacy.inet_aton_loop fuel rest' (parts ++ [val])
           | _ =>
               let trailing_ok :=
                 match rest0 with
                 | EmptyString => true
                 | String c' _ => (Z.of_N (N_of_ascii c') <? 128) && Legacy.isspace c'
                 end in
               if negb trailing_ok then None
               else if Legacy.last_part_max (List.length parts) <? val then None
               else Some (Legacy.assemble parts val)
           end.
Proof. reflexivity. Qed.

Lemma inet_aton_dotted fuel a t parts :
  is_octet a -> (List.length parts <= 2)%nat ->
  Legacy.inet_aton_loop (S fuel) (decimal_octet a ++ String "." t) parts
  = Legacy.inet_aton_loop fuel t (parts ++ [a]).
Proof.
  intros Ha L. destruct (octets_scanned a (in_octets a Ha)) as (S1 & _ & (c & r & D & G) & _ & _).
  specialize (S1 t). rewrite D in S1 |- *.
  change (String c r ++ String "." t) with (String c (r ++ String "." t)) in S1 |- *.
  rewrite inet_aton_loop_eq, G, S1. cbn [negb].
  unfold is_octet in Ha.
  replace (4294967295 <? a) with false by (symmetry; apply Z.ltb_ge; lia).
  replace (255 <? a) with false by (symmetry; apply Z.ltb_ge; lia).
  replace (2 <? List.length parts)%nat with false by (symmetry; apply Nat.ltb_ge; lia).
  reflexivity.
Qed.

Lemma inet_aton_last fuel a parts :
  is_octet a -> List.length parts = 3%nat ->
  Legacy.inet_aton_loop (S fuel) (decimal_octet a) parts = Some (Legacy.assemble parts a).
Proof.
  intros Ha L. destruct (octets_scanned a (in_octets a Ha)) as (_ & S2 & (c & r & D & G) & _ & _).
  rewrite D in S2 |- *. rewrite inet_aton_loop_eq, G, S2. cbn [negb]. rewrite L.
  unfold is_octet in Ha. simpl Legacy.last_part_max.
  replace (4294967295 <? a) with false by (symmetry; apply Z.ltb_ge; lia).
  replace (255 <? a) with false by (symmetry; apply Z.ltb_ge; lia).
  reflexivity.
Qed.

Lemma decimal_octet_length a : (1 <= String.length (decimal_octet a))%nat.
Proof.
  unfold decimal_octet. destruct (a <? 10); [simpl; lia|].
  destruct (a <? 100); simpl; lia.
Qed.

Lemma inet_aton_quad a b c d :
  is_octet a -> is_octet b -> is_octet c -> is_octet d ->
  Legacy.inet_aton (quad_text a b c d) = Some (quad_value a b c d).
Proof.
  intros Ha Hb Hc Hd. unfold Legacy.inet_aton.
  assert (F : exists f, S (String.length (quad_text a b c d)) = S (S (S (S f)))).
  { unfold quad_text. rewrite !length_append. simpl String.length.
    pose proof (decimal_octet_length a). pose proof (decimal_octet_length b).
    pose proof (decimal_octet_length c). pose proof (decimal_octet_length d).
    exists (String.length (decimal_octet a) + String.length (decimal_octet b)
            + String.length (decimal_octet c) + String.length (decimal_octet d))%nat.
    lia. }
  destruct F as [f ->]. unfold quad_text.
  assert (D : forall x, "." ++ x = String "." x) by reflexivity.
  rewrite !D.
  rewrite inet_aton_dotted by (auto; simpl; lia).
  rewrite inet_aton_dotted by (auto; simpl; lia).
  rewrite inet_aton_dotted by (auto; simpl; lia).
  rewrite inet_aton_last by auto.
  unfold Legacy.assemble, quad_value. cbn [fold_left app snd Z.sub Z.add Z.opp Z.pos_sub Pos.pred_double Z.succ_double Z.pred_double Z.double].
  rewrite !Z.shiftl_mul_pow2 by lia. f_equal. lia.
Qed.

Lemma ip_int_from_string_value a b c d :
  is_octet a -> is_octet b -> is_octet c -> is_octet d ->
  ipaddress._ip_int_from_string (quad_text a b c d) = Ok (quad_value a b c d).
Proof.
  intros Ha Hb Hc Hd. unfold ipaddress._ip_int_from_string, quad_text.
  assert (E : String.eqb (decimal_octet a ++ "." ++ decimal_octet b ++ "." ++
                          decimal_octet c ++ "." ++ decimal_octet d) "" = false).
  { apply String.eqb_neq. pose proof (decimal_octet_nonempty a).
    destruct (decimal_octet a); [congruence|discriminate]. }
  rewrite E. clear E.
  assert (D : forall x, "." ++ x = String "." x) by reflexivity.
  rewrite !D.
  rewrite (split_app "." (decimal_octet a)) by (apply decimal_octet_plain; auto).
  rewrite (split_app "." (decimal_octet b)) by (apply decimal_octet_plain; auto).
  rewrite (split_app "." (decimal_octet c)) by (apply decimal_octet_plain; auto).
  rewrite (split_plain "." (decimal_octet d)) by (apply decimal_octet_plain; auto).
  simpl. rewrite !parse_octet_decimal by assumption.
  unfold ipaddress.from_bytes_big, quad_value. cbn [fold_left]. f_equal.
  change (2 ^ 24) with 16777216. change (2 ^ 16) with 65536. change (2 ^ 8) with 256. lia.
Qed.

Lemma no_lead_byte_no_surrogate s :
  contains_char (ascii_of_nat 237) s = false -> has_surrogate s = false.
Proof.
  induction s as [|a rest IH]; [reflexivity|].
  cbn [contains_char has_surrogate]. intros H.
  apply orb_false_iff in H as [H1 H2]. destruct rest as [|b rest']; [reflexivity|].
  rewrite (IH H2), orb_false_r.
  replace (N.eqb (N_of_ascii a) 237) with false; [reflexivity|].
  symmetry. apply N.eqb_neq. intros E. apply Ascii.eqb_neq in H1. apply H1.
  rewrite <- (ascii_N_embedding a), E. reflexivity.
Qed.

Lemma quad_text_plain a b c d :
  is_octet a -> is_octet b -> is_octet c -> is_octet d ->
  contains_char (ascii_of_nat 0) (quad_text a b c d) = false /\
  has_surrogate (quad_text a b c d) = false.
Proof.
  intros Ha Hb Hc Hd. unfold quad_text.
  destruct (octets_scanned a (in_octets a Ha)) as (_ & _ & _ & Na & Sa).
  destruct (octets_scanned b (in_octets b Hb)) as (_ & _ & _ & Nb & Sb).
  destruct (octets_scanned c (in_octets c Hc)) as (_ & _ & _ & Nc & Sc).
  destruct (octets_scanned d (in_octets d Hd)) as (_ & _ & _ & Nd & Sd).
  split.
  - rewrite !contains_char_app, Na, Nb, Nc, Nd. reflexivity.
  - apply no_lead_byte_no_surrogate.
    rewrite !contains_char_app, Sa, Sb, Sc, Sd. reflexivity.
Qed.

Lemma accepted_literal s n :
  ipaddress.IPv4Address (JStr s) = Ok n -> Legacy.inet_aton s = Some n /\
  contains_char (ascii_of_nat 0) s = false /\ has_surrogate s = false.
Proof.
  intros H. simpl in H.
  destruct (contains_char "/" s); [discriminate|].
  destruct (ip_int_from_string_sound s n H) as (a & b & c & d & Ha & Hb & Hc & Hd & E).
  change (s = quad_text a b c d) in E. subst s.
  rewrite ip_int_from_string_value in H by assumption. injection H as <-.
  split; [now apply inet_aton_quad|now apply quad_text_plain].
Qed.

(** X12.  Every address literal the newer validator accepts, the older
    one accepts too, and as the same 32-bit address: when
    [ipaddress.IPv4Address] makes the integer [n] of a string,
    [socket.inet_aton] returns [n] for it. *)
Theorem accepted_literal_also_legacy (s : string) (n : Z) :
  ipaddress.IPv4Address (JStr s) = Ok n ->
  Legacy.socket_inet_aton (JStr s) = Ok n.
Proof.
  intros H. apply accepted_literal in H as (A & N & S).
  unfold Legacy.socket_inet_aton. now rewrite S, N, A.
Qed.

Lemma accepted_literal_also_legacy_witness :
  ipaddress.IPv4Address (JStr "192.168.1.100") = Ok 3232235876 /\
  Legacy.socket_inet_aton (JStr "192.168.1.100") = Ok 3232235876.
Proof.
  split; [reflexivity|].
  apply (accepted_literal_also_legacy "192.168.1.100" 3232235876). reflexivity.
Defined.

(** ** The older counter *)

Lemma legacy_step_countable e c :
  legacy_countable e = true ->
  Legacy.count_valid_ips_step e c = Ok (c + if legacy_counted e then 1 else 0).
Proof.
  unfold legacy_countable, has_host, legacy_counted, ip_field, Legacy.count_valid_ips_step.
  destruct e as [| | | | | |d]; try discriminate. simpl.
  destruct (lookup "host" d) as [[| | | | | |hd]|]; try discriminate. simpl.
  destruct (lookup "ip_v4_address" hd) as [[| | | |s| |]|]; try discriminate; simpl;
    try (intros _; now rewrite Z.add_0_r).
  intros N. apply andb_true_iff in N as [S N].
  apply negb_true_iff in S, N. rewrite S, N.
  destruct (Legacy.inet_aton s); simpl; [reflexivity|now rewrite Z.add_0_r].
Qed.

Lemma legacy_loop_countable l : forall c,
  forallb legacy_countable l = true ->
  Legacy.count_valid_ips_loop l c = Ok (c + legacy_count l).
Proof.
  unfold legacy_count.
  induction l as [|e l IH]; intros c H; simpl.
  - now rewrite Z.add_0_r.
  - simpl in H. apply andb_true_iff in H as [He Hl].
    rewrite (legacy_step_countable e c He), (IH _ Hl). f_equal.
    destruct (legacy_counted e); simpl List.length; lia.
Qed.

Lemma legacy_loop_app l1 : forall l2 c,
  Legacy.count_valid_ips_loop (l1 ++ l2) c
  = match Legacy.count_valid_ips_loop l1 c with
    | Ok c' => Legacy.count_valid_ips_loop l2 c'
    | Raise e => Raise e
    end.
Proof.
  induction l1 as [|e l1 IH]; intros l2 c; simpl; [reflexivity|].
  destruct (Legacy.count_valid_ips_step e c); [apply IH|reflexivity].
Qed.

Lemma counted_legacy e :
  legacy_countable e = true -> counted e = true -> legacy_counted e = true.
Proof.
  unfold legacy_countable, counted, legacy_counted.
  intros H C. apply andb_true_iff in H as [_ H].
  destruct (ip_field e) as [[| | | |s| |]|]; try discriminate.
  apply andb_true_iff in C as [_ C]. unfold valid_ipv4 in C.
  destruct (ipaddress.IPv4Address (JStr s)) as [n|] eqn:E; [|discriminate].
  apply accepted_literal in E as (A & _ & _). now rewrite A.
Qed.

(** X13.  On a host list whose entries all carry a ["host"] dictionary
    with the address absent, null or a string that holds neither a
    surrogate nor NUL, the older [count_valid_ips] returns the number of
    entries whose address string [inet_aton] accepts, a number between 0
    and the length of the list. *)
Theorem legacy_count_valid_ips_counts (host_list : list json) :
  forallb legacy_countable host_list = true ->
  Legacy.count_valid_ips host_list = Ok (legacy_count host_list) /\
  0 <= legacy_count host_list <= Z.of_nat (List.length host_list).
Proof.
  intros H. split.
  - unfold Legacy.count_valid_ips. now rewrite (legacy_loop_countable _ 0 H).
  - unfold legacy_count. pose proof (filter_length_le legacy_counted host_list). lia.
Qed.

Lemma legacy_count_valid_ips_counts_witness :
  forallb legacy_countable
    [host_entry (JStr "192.168.1.100"); host_entry (JStr "1.2.3");
     host_entry (JStr "invalid_ip"); host_entry JNull] = true /\
  Legacy.count_valid_ips
    [host_entry (JStr "192.168.1.100"); host_entry (JStr "1.2.3");
     host_entry (JStr "invalid_ip"); host_entry JNull] = Ok 2 /\
  0 <= 2 <= 4.
Proof.
  split; [reflexivity|].
  apply (legacy_count_valid_ips_counts
           [host_entry (JStr "192.168.1.100"); host_entry (JStr "1.2.3");
            host_entry (JStr "invalid_ip"); host_entry JNull]).
  reflexivity.
Defined.

Lemma legacy_countable_host_entry e : legacy_countable e = true -> is_host_entry e = true.
Proof.
  unfold legacy_countable, has_host, is_host_entry. intros H.
  apply andb_true_iff in H as [H _].
  destruct e as [| | | | | |d]; try discriminate.
  destruct (lookup "host" d) as [[| | | | | |hd]|]; try discriminate; reflexivity.
Qed.

Lemma legacy_countable_host_list l : forallb legacy_countable l = true -> is_host_list l = true.
Proof.
  unfold is_host_list. induction l as [|e l IH]; simpl; [reflexivity|].
  intros H. apply andb_true_iff in H as [He Hl].
  now rewrite (legacy_countable_host_entry e He), IH.
Qed.

Lemma valid_count_le_legacy l :
  forallb legacy_countable l = true -> valid_count l <= legacy_count l.
Proof.
  unfold valid_count, legacy_count.
  induction l as [|e l IH]; simpl; [lia|].
  intros H. apply andb_true_iff in H as [He Hl]. specialize (IH Hl).
  destruct (counted e) eqn:C.
  - rewrite (counted_legacy e He C). simpl List.length. lia.
  - destruct (legacy_counted e); simpl List.length; lia.
Qed.

(** X14.  The newer counter never counts more than the older one: on a
    host list the older [count_valid_ips] handles (every entry with a
    ["host"] dictionary, the address absent, null or a string that holds
    neither a surrogate nor NUL), and unless interrupted, both functions
    return, and the count of the newer one is at most the count of the
    older one. *)
Theorem newer_count_at_most_legacy (host_list : list json) (s : state) :
  forallb legacy_countable host_list = true ->
  sigint s = None ->
  exists newer older,
    fst (count_valid_ips host_list s) = Ok newer /\
    Legacy.count_valid_ips host_list = Ok older /\
    newer <= older.
Proof.
  intros H Q. exists (valid_count host_list), (legacy_count host_list).
  split; [|split].
  - unfold count_valid_ips.
    now rewrite (count_loop_run host_list 0 s (legacy_countable_host_list _ H) Q).
  - unfold Legacy.count_valid_ips. now rewrite (legacy_loop_countable _ 0 H).
  - now apply valid_count_le_legacy.
Qed.

Lemma newer_count_at_most_legacy_witness :
  forallb legacy_countable
    [host_entry (JStr "192.168.1.100"); host_entry (JStr "1.2.3")] = true /\
  sigint (initial_state None) = None /\
  exists newer older,
    fst (count_valid_ips [host_entry (JStr "192.168.1.100"); host_entry (JStr "1.2.3")]
           (initial_state None)) = Ok newer /\
    Legacy.count_valid_ips [host_entry (JStr "192.168.1.100"); host_entry (JStr "1.2.3")]
    = Ok older /\
    newer <= older.
Proof.
  split; [reflexivity|]. split; [reflexivity|].
  apply (newer_count_at_most_legacy
           [host_entry (JStr "192.168.1.100"); host_entry (JStr "1.2.3")]
           (initial_state None)); reflexivity.
Defined.

(** X15.  Where the older counter fails and the newer one goes on: after
    entries it takes to [inet_aton] (each with a ["host"] dictionary, the
    address absent, null or a string that holds neither a surrogate nor
    NUL), an entry without the key ["host"] makes the older
    [count_valid_ips] raise [KeyError], an integer address makes it raise
    [TypeError] and an address with a lone surrogate [UnicodeEncodeError]
    (both from [socket.inet_aton], and neither caught by
    [except socket.error]), whatever follows; the newer function, unless
    interrupted, skips the entry without ["host"] and returns the count of
    the rest. *)
Theorem legacy_counter_raises (l1 l2 : list json) (d : dict) (n : Z) (s : state) :
  forallb legacy_countable l1 = true ->
  is_host_list l2 = true ->
  lookup "host" d = None ->
  sigint s = None ->
  Legacy.count_valid_ips (l1 ++ JDict d :: l2) = Raise (KeyError "host") /\
  Legacy.count_valid_ips (l1 ++ host_entry (JInt n) :: l2) = Raise (TypeError "int") /\
  Legacy.count_valid_ips (l1 ++ host_entry (JStr lone_surrogate) :: l2)
  = Raise UnicodeEncodeError /\
  fst (count_valid_ips (l1 ++ JDict d :: l2) s) = Ok (valid_count l1 + valid_count l2).
Proof.
  intros H1 H2 D Q. split; [|split; [|split]].
  2:{ unfold Legacy.count_valid_ips.
      rewrite legacy_loop_app, (legacy_loop_countable _ 0 H1). reflexivity. }
  - unfold Legacy.count_valid_ips.
    rewrite legacy_loop_app, (legacy_loop_countable _ 0 H1). simpl.
    unfold Legacy.count_valid_ips_step. simpl. now rewrite D.
  - unfold Legacy.count_valid_ips.
    rewrite legacy_loop_app, (legacy_loop_countable _ 0 H1). reflexivity.
  - assert (W : is_host_list (l1 ++ JDict d :: l2) = true).
    { pose proof (legacy_countable_host_list _ H1) as W1.
      unfold is_host_list in *. rewrite forallb_app, W1. simpl. rewrite D.
      exact H2. }
    unfold count_valid_ips. rewrite (count_loop_run _ 0 s W Q).
    rewrite valid_count_app. unfold valid_count at 2. simpl filter.
    unfold counted at 1, ip_field. rewrite D. reflexivity.
Qed.

Lemma legacy_counter_raises_witness :
  forallb legacy_countable [host_entry (JStr "10.0.0.1")] = true /\
  is_host_list [host_entry (JStr "10.0.0.2")] = true /\
  lookup "host" [("name", JStr "printer")] = None /\
  sigint (initial_state None) = None /\
  Legacy.count_valid_ips
    ([host_entry (JStr "10.0.0.1")] ++ JDict [("name", JStr "printer")]
       :: [host_entry (JStr "10.0.0.2")]) = Raise (KeyError "host") /\
  Legacy.count_valid_ips
    ([host_entry (JStr "10.0.0.1")] ++ host_entry (JInt 7)
       :: [host_entry (JStr "10.0.0.2")]) = Raise (TypeError "int") /\
  Legacy.count_valid_ips
    ([host_entry (JStr "10.0.0.1")] ++ host_entry (JStr lone_surrogate)
       :: [host_entry (JStr "10.0.0.2")]) = Raise UnicodeEncodeError /\
  fst (count_valid_ips
         ([host_entry (JStr "10.0.0.1")] ++ JDict [("name", JStr "printer")]
            :: [host_entry (JStr "10.0.0.2")]) (initial_state None))
  = Ok (valid_count [host_entry (JStr "10.0.0.1")]
        + valid_count [host_entry (JStr "10.0.0.2")]).
Proof.
  split; [reflexivity|]. split; [reflexivity|]. split; [reflexivity|].
  split; [reflexivity|].
  apply (legacy_counter_raises [host_entry (JStr "10.0.0.1")]
           [host_entry (JStr "10.0.0.2")] [("name", JStr "printer")] 7
           (initial_state None)); reflexivity.
Defined.

(** ** The older presenter *)

Lemma print_args_then_quiet lines k : forall s,
  forallb encodable lines = true -> sigint s = None ->
  print_args_then lines k s = k (printed_all lines s).
Proof.
  induction lines as [|line rest IH]; intros s E Q; simpl.
  - now rewrite printed_all_nil.
  - simpl in E. apply andb_true_iff in E as [E1 E2].
    unfold bind. rewrite (print_args_quiet s Q line E1).
    rewrite IH by (exact E2 || exact Q). now rewrite printed_all_cons.
Qed.

Lemma legacy_fields_encodable e :
  legacy_printable_entry e = true -> forallb encodable (legacy_fields e) = true.
Proof.
  unfold legacy_printable_entry, field_names, legacy_fields, Legacy.labelled.
  cbn [forallb]. intros H. repeat (apply andb_true_iff in H as [? H]).
  unfold encodable. cbn [forallb].
  repeat match goal with
         | E : encodable_piece _ = true |- _ => rewrite E; clear E
         end.
  reflexivity.
Qed.

Lemma legacy_extract_step_lines e s :
  has_host e = true ->
  Legacy.extract_host_step e s = print_args_then (legacy_fields e) (print []) s.
Proof.
  intros W. destruct e as [| | | | | |d]; try discriminate. simpl in W.
  unfold Legacy.extract_host_step, legacy_fields, host_data_of, field_or_None.
  unfold bind at 1. unfold lift at 1. cbn [py_getitem].
  destruct (lookup "host" d) as [[| | | | | |hd]|]; try discriminate; reflexivity.
Qed.

Lemma legacy_extract_step e s :
  has_host e = true -> legacy_printable_entry e = true -> sigint s = None ->
  Legacy.extract_host_step e s = (Ok tt, printed_all (legacy_block e) s).
Proof.
  intros W P Q. rewrite (legacy_extract_step_lines e s W).
  rewrite print_args_then_quiet by (exact Q || now apply legacy_fields_encodable).
  rewrite print_quiet by (exact Q || reflexivity).
  unfold legacy_block, printed, printed_all. cbn [trace threshold sigint].
  now rewrite map_app, app_assoc.
Qed.

Lemma legacy_extract_run l : forall s,
  forallb has_host l = true -> legacy_printable l = true -> sigint s = None ->
  Legacy.extract_host_data l s = (Ok tt, printed_all (legacy_presentation l) s).
Proof.
  unfold legacy_presentation.
  induction l as [|e l IH]; intros s W P Q; cbn [Legacy.extract_host_data flat_map].
  - unfold ret. now rewrite printed_all_nil.
  - cbn [forallb] in W. apply andb_true_iff in W as [We Wl].
    cbn [legacy_printable forallb] in P. apply andb_true_iff in P as [Pe Pl].
    unfold bind. rewrite (legacy_extract_step e s We Pe Q).
    rewrite (IH _ Wl Pl) by exact Q. now rewrite printed_all_app.
Qed.

(** X16.  The older [extract_host_data], on entries that each carry a
    ["host"] dictionary whose fields standard output can encode, and unless
    interrupted, prints for every entry, in order, seven labelled lines and
    an empty line, an absent field shown as [None]; an entry without the
    key ["host"] stops it with [KeyError] after the blocks of the entries
    before it. *)
Theorem legacy_extract_host_data_prints (l1 l2 : list json) (d : dict) (s : state) :
  forallb has_host l1 = true ->
  legacy_printable l1 = true ->
  sigint s = None ->
  Legacy.extract_host_data l1 s = (Ok tt, printed_all (legacy_presentation l1) s) /\
  List.length (legacy_presentation l1) = (8 * List.length l1)%nat /\
  (lookup "host" d = None ->
   Legacy.extract_host_data (l1 ++ JDict d :: l2) s
   = (Raise (KeyError "host"), printed_all (legacy_presentation l1) s)).
Proof.
  intros W P Q. split; [now apply legacy_extract_run|]. split.
  - unfold legacy_presentation. clear W P.
    induction l1 as [|e l IH]; cbn [flat_map]; [reflexivity|].
    rewrite length_app, IH. simpl List.length. lia.
  - intros D. revert s Q. unfold legacy_presentation.
    induction l1 as [|e l IH]; intros s Q.
    + cbn [app Legacy.extract_host_data flat_map]. rewrite printed_all_nil.
      unfold bind, Legacy.extract_host_step, bind, lift. simpl. now rewrite D.
    + cbn [forallb] in W. apply andb_true_iff in W as [We Wl].
      cbn [legacy_printable forallb] in P. apply andb_true_iff in P as [Pe Pl].
      cbn [app Legacy.extract_host_data flat_map].
      unfold bind at 1. rewrite (legacy_extract_step e s We Pe Q).
      rewrite (IH Wl Pl) by exact Q. now rewrite printed_all_app.
Qed.

Lemma legacy_extract_host_data_prints_witness :
  forallb has_host [host_entry (JStr "10.0.0.1")] = true /\
  legacy_printable [host_entry (JStr "10.0.0.1")] = true /\
  sigint (initial_state None) = None /\
  Legacy.extract_host_data [host_entry (JStr "10.0.0.1")] (initial_state None)
  = (Ok tt, printed_all (legacy_presentation [host_entry (JStr "10.0.0.1")])
              (initial_state None)) /\
  List.length (legacy_presentation [host_entry (JStr "10.0.0.1")])
  = (8 * List.length [host_entry (JStr "10.0.0.1")])%nat /\
  (lookup "host" [("name", JStr "printer")] = None ->
   Legacy.extract_host_data
     ([host_entry (JStr "10.0.0.1")] ++ JDict [("name", JStr "printer")] :: [])
     (initial_state None)
   = (Raise (KeyError "host"),
      printed_all (legacy_presentation [host_entry (JStr "10.0.0.1")])
        (initial_state None))).
Proof.
  split; [reflexivity|]. split; [reflexivity|]. split; [reflexivity|].
  apply (legacy_extract_host_data_prints [host_entry (JStr "10.0.0.1")] []
           [("name", JStr "printer")] (initial_state None)); reflexivity.
Defined.

(** ** The older [main] *)

Lemma legacy_main_loaded sys_argv w s json_data s1 :
  (2 <= List.length sys_argv)%nat ->
  load_json w (nth 1 sys_argv "") s = (Ok json_data, s1) ->
  Legacy.main sys_argv w s
  = (detail <- lift (py_getitem json_data "Detail") ;;
     host_list <- lift (py_getitem detail "host_list") ;;
     hosts <- lift (Legacy.py_iter host_list) ;;
     valid_ip_count <- lift (Legacy.count_valid_ips hosts) ;;
     Legacy.extract_host_data hosts ;;;
     print_args (Legacy.labelled "Total Valid IP(s):" (JInt valid_ip_count))) s1.
Proof.
  intros L E. unfold Legacy.main.
  replace (List.length sys_argv <? 2)%nat with false by (symmetry; apply Nat.ltb_ge; lia).
  unfold bind at 1. unfold ret at 1. unfold bind at 1. unfold try_except.
  rewrite E. reflexivity.
Qed.

(** X17.  The older [main] answers every failure of opening, reading or
    decoding the file alike, an interrupt that arrives meanwhile included
    (the [except:] is bare): it prints "Error: Unable to open JSON file"
    and exits with status 0. *)
Theorem legacy_main_load_failure (sys_argv : list string) (w : world) (s s1 : state)
    (e : exn) :
  (2 <= List.length sys_argv)%nat ->
  load_json w (nth 1 sys_argv "") s = (Raise e, s1) ->
  sigint s1 = None ->
  Legacy.main sys_argv w s
  = (Raise (SystemExit 0), printed [Lit "Error: Unable to open JSON file"] s1).
Proof.
  intros L E Q. unfold Legacy.main.
  replace (List.length sys_argv <? 2)%nat with false by (symmetry; apply Nat.ltb_ge; lia).
  unfold bind at 1. unfold ret at 1. unfold bind at 1. unfold try_except.
  rewrite E. unfold bind, sys_exit, raise.
  now rewrite (print_quiet s1 Q) by reflexivity.
Qed.

Lemma legacy_main_load_failure_witness :
  (2 <= List.length ["script.py"; "discovery.json"])%nat /\
  load_json sample_world (nth 1 ["script.py"; "discovery.json"] "")
    (initial_state (Some 0%nat))
  = (Raise KeyboardInterrupt, initial_state None) /\
  sigint (initial_state None) = None /\
  Legacy.main ["script.py"; "discovery.json"] sample_world (initial_state (Some 0%nat))
  = (Raise (SystemExit 0),
     printed [Lit "Error: Unable to open JSON file"] (initial_state None)).
Proof.
  split; [simpl; lia|]. split; [reflexivity|]. split; [reflexivity|].
  apply (legacy_main_load_failure ["script.py"; "discovery.json"] sample_world
           (initial_state (Some 0%nat)) (initial_state None) KeyboardInterrupt);
    [simpl; lia|reflexivity|reflexivity].
Defined.

(** *** No exit status but 0 *)

Lemma raises_only_print_args P line :
  P KeyboardInterrupt -> P UnicodeEncodeError -> raises_only P (print_args line).
Proof.
  intros K U. apply raises_only_bind; [now apply raises_only_tick|]. intros _.
  destruct (encodable line); [apply raises_only_emit|].
  apply raises_only_bind; [apply raises_only_emit|]. intros _.
  now apply raises_only_raise.
Qed.

Lemma interrupt_no_failure_status : no_failure_status KeyboardInterrupt.
Proof. intros status. discriminate. Qed.

Lemma encoding_no_failure_status : no_failure_status UnicodeEncodeError.
Proof. intros status. discriminate. Qed.

Lemma py_getitem_no_status v key e :
  py_getitem v key = Raise e -> no_failure_status e.
Proof.
  destruct v; simpl; try (intros [= <-] status; discriminate).
  destruct (lookup key d); [discriminate|]. intros [= <-] status. discriminate.
Qed.

Lemma py_get_no_status v key default e :
  py_get v key default = Raise e -> no_failure_status e.
Proof. destruct v; simpl; try discriminate; intros [= <-] status; discriminate. Qed.

Lemma py_iter_no_status v e : Legacy.py_iter v = Raise e -> no_failure_status e.
Proof. destruct v; simpl; try discriminate; intros [= <-] status; discriminate. Qed.

Lemma legacy_count_no_status l : forall c e,
  Legacy.count_valid_ips_loop l c = Raise e -> no_failure_status e.
Proof.
  induction l as [|h l IH]; intros c e; simpl; [discriminate|].
  destruct (Legacy.count_valid_ips_step h c) as [c'|e0] eqn:E; [apply IH|].
  intros [= <-]. unfold Legacy.count_valid_ips_step in E.
  destruct (py_getitem h "host") as [hd|e1] eqn:G.
  - destruct (py_get hd "ip_v4_address" JNull) as [v|e2] eqn:G2.
    + destruct (negb (Legacy.is_None v)); [|discriminate].
      destruct (Legacy.socket_inet_aton v) as [a|e3] eqn:G3; [discriminate|].
      destruct (is_IOError e3); [discriminate|]. injection E as <-.
      unfold Legacy.socket_inet_aton in G3.
      destruct v; try (injection G3 as <-; intros status; discriminate).
      destruct (has_surrogate s); [injection G3 as <-; intros status; discriminate|].
      destruct (contains_char _ s); [injection G3 as <-; intros status; discriminate|].
      destruct (Legacy.inet_aton s); [discriminate|].
      injection G3 as <-. intros status. discriminate.
    + injection E as <-. eapply py_get_no_status; eauto.
  - injection E as <-. eapply py_getitem_no_status; eauto.
Qed.

Lemma legacy_extract_no_status l :
  raises_only no_failure_status (Legacy.extract_host_data l).
Proof.
  induction l as [|h l IH]; simpl; [apply raises_only_ret|].
  apply raises_only_bind; [|intros _; exact IH].
  unfold Legacy.extract_host_step.
  repeat first
    [ apply raises_only_print;
        [apply interrupt_no_failure_status|apply encoding_no_failure_status]
    | apply raises_only_print_args;
        [apply interrupt_no_failure_status|apply encoding_no_failure_status]
    | apply raises_only_bind; [|intros ?]
    | apply raises_only_lift; intros ?; first [apply py_getitem_no_status
                                              |apply py_get_no_status] ].
Qed.

(** X18.  The older [main] never exits with a status other than 0:
    whenever a run of it ends in [SystemExit], the status is 0, so no
    failure it handles (a missing argument, a file it cannot load) is
    visible in the exit status. *)
Theorem legacy_main_exit_status (sys_argv : list string) (w : world) (s s' : state)
    (status : Z) :
  Legacy.main sys_argv w s = (Raise (SystemExit status), s') ->
  status = 0.
Proof.
  assert (Z0 : no_failure_status (SystemExit 0)) by (intros k [= <-]; reflexivity).
  assert (R : raises_only no_failure_status (Legacy.main sys_argv w)).
  { unfold Legacy.main.
    apply raises_only_bind.
    { destruct (_ <? _)%nat; [|apply raises_only_ret].
      apply raises_only_bind; [|intros _; now apply raises_only_sys_exit].
      apply raises_only_print;
        [apply interrupt_no_failure_status|apply encoding_no_failure_status]. }
    intros _. apply raises_only_bind.
    { apply raises_only_handled. intros e.
      apply raises_only_bind; [|intros _; now apply raises_only_sys_exit].
      apply raises_only_print;
        [apply interrupt_no_failure_status|apply encoding_no_failure_status]. }
    intros json_data. apply raises_only_bind.
    { apply raises_only_lift. intros e. apply py_getitem_no_status. }
    intros detail. apply raises_only_bind.
    { apply raises_only_lift. intros e. apply py_getitem_no_status. }
    intros host_list. apply raises_only_bind.
    { apply raises_only_lift. intros e. apply py_iter_no_status. }
    intros hosts. apply raises_only_bind.
    { apply raises_only_lift. intros e. apply legacy_count_no_status. }
    intros n. apply raises_only_bind; [apply legacy_extract_no_status|].
    intros _. apply raises_only_print_args;
      [apply interrupt_no_failure_status|apply encoding_no_failure_status]. }
  intros H. exact (R s _ s' H status eq_refl).
Qed.

Lemma legacy_main_exit_status_witness :
  Legacy.main ["script.py"] sample_world (initial_state None)
  = (Raise (SystemExit 0),
     printed [Lit "Usage: python script.py discovery.json"] (initial_state None)) /\
  0 = 0.
Proof.
  split; [reflexivity|].
  apply (legacy_main_exit_status ["script.py"] sample_world (initial_state None)
           (printed [Lit "Usage: python script.py discovery.json"] (initial_state None)) 0).
  reflexivity.
Defined.

(** X19.  The older [main] end to end: when the file loads to a
    document whose [Detail.host_list] is a list the older functions handle
    (every entry with a ["host"] dictionary, its address absent, null or a
    string that holds neither a surrogate nor NUL, its fields such as
    standard output can encode), and no interrupt arrives, it prints the
    block of every entry and then "Total Valid IP(s):" with the number the
    older counter returns for that list, and returns. *)
Theorem legacy_main_reports (sys_argv : list string) (w : world) (s s1 : state)
    (json_data : json) (host_list : list json) :
  (2 <= List.length sys_argv)%nat ->
  load_json w (nth 1 sys_argv "") s = (Ok json_data, s1) ->
  host_list_of json_data = Some host_list ->
  forallb legacy_countable host_list = true ->
  legacy_printable host_list = true ->
  sigint s1 = None ->
  Legacy.count_valid_ips host_list = Ok (legacy_count host_list) /\
  Legacy.main sys_argv w s
  = (Ok tt,
     printed_all (legacy_presentation host_list ++
                    [Legacy.labelled "Total Valid IP(s):" (JInt (legacy_count host_list))])
       s1).
Proof.
  intros L E H C P Q.
  assert (K : Legacy.count_valid_ips host_list = Ok (legacy_count host_list)).
  { unfold Legacy.count_valid_ips. now rewrite (legacy_loop_countable _ 0 C). }
  split; [exact K|].
  rewrite (legacy_main_loaded sys_argv w s json_data s1 L E).
  unfold host_list_of, field in H.
  destruct json_data as [| | | | | |d]; try discriminate.
  destruct (lookup "Detail" d) as [[| | | | | |det]|] eqn:D; try discriminate.
  destruct (lookup "host_list" det) as [[| | | | |hl|]|] eqn:HL; try discriminate.
  injection H as ->.
  unfold bind at 1. unfold lift at 1. simpl py_getitem. rewrite D.
  unfold bind at 1. unfold lift at 1. simpl py_getitem. rewrite HL.
  unfold bind at 1. unfold lift at 1. simpl Legacy.py_iter.
  unfold bind at 1. unfold lift at 1. rewrite K.
  assert (W : forallb has_host host_list = true).
  { clear -C. induction host_list as [|e l IH]; simpl in *; [reflexivity|].
    apply andb_true_iff in C as [Ce Cl]. unfold legacy_countable in Ce.
    apply andb_true_iff in Ce as [-> _]. now apply IH. }
  unfold bind. rewrite (legacy_extract_run host_list s1 W P Q).
  rewrite print_args_quiet by (exact Q || reflexivity).
  unfold printed, printed_all. simpl. now rewrite map_app, app_assoc.
Qed.

Lemma legacy_main_reports_witness :
  (2 <= List.length ["script.py"; "discovery.json"])%nat /\
  load_json (with_load sample_world (fun _ => ReadText "{}") (fun _ => inl (JDict sample_document)))
    (nth 1 ["script.py"; "discovery.json"] "") (initial_state None)
  = (Ok (JDict sample_document), initial_state None) /\
  host_list_of (JDict sample_document) = Some sample_hosts /\
  forallb legacy_countable sample_hosts = true /\
  legacy_printable sample_hosts = true /\
  sigint (initial_state None) = None /\
  Legacy.count_valid_ips sample_hosts = Ok (legacy_count sample_hosts) /\
  Legacy.main ["script.py"; "discovery.json"]
    (with_load sample_world (fun _ => ReadText "{}") (fun _ => inl (JDict sample_document))) (initial_state None)
  = (Ok tt,
     printed_all (legacy_presentation sample_hosts ++
                    [Legacy.labelled "Total Valid IP(s):" (JInt (legacy_count sample_hosts))])
       (initial_state None)).
Proof.
  split; [simpl; lia|]. split; [reflexivity|]. split; [reflexivity|].
  split; [reflexivity|]. split; [reflexivity|]. split; [reflexivity|].
  apply (legacy_main_reports ["script.py"; "discovery.json"]
           (with_load sample_world (fun _ => ReadText "{}") (fun _ => inl (JDict sample_document)))
           (initial_state None) (initial_state None) (JDict sample_document)
           sample_hosts);
    [simpl; lia|reflexivity|reflexivity|reflexivity|reflexivity|reflexivity].
Defined.

(** X20.  The older [main] does not check the structure of the
    document: when it lacks the key ["Detail"], or [Detail] lacks
    ["host_list"], [KeyError] escapes, and when [host_list] is null,
    [TypeError]; in each case nothing has been printed since the load. *)
Theorem legacy_main_unchecked_structure (sys_argv : list string) (w : world)
    (s s1 : state) (d : dict) :
  (2 <= List.length sys_argv)%nat ->
  load_json w (nth 1 sys_argv "") s = (Ok (JDict d), s1) ->
  (lookup "Detail" d = None ->
   Legacy.main sys_argv w s = (Raise (KeyError "Detail"), s1)) /\
  (forall detail, lookup "Detail" d = Some (JDict detail) ->
                  lookup "host_list" detail = None ->
                  Legacy.main sys_argv w s = (Raise (KeyError "host_list"), s1)) /\
  (forall detail, lookup "Detail" d = Some (JDict detail) ->
                  lookup "host_list" detail = Some JNull ->
                  Legacy.main sys_argv w s = (Raise (TypeError "NoneType"), s1)).
Proof.
  intros L E. rewrite (legacy_main_loaded sys_argv w s (JDict d) s1 L E).
  split; [|split].
  - intros D. unfold bind, lift. simpl. now rewrite D.
  - intros detail D H. unfold bind, lift. simpl. rewrite D. simpl. now rewrite H.
  - intros detail D H. unfold bind, lift. simpl. rewrite D. simpl. now rewrite H.
Qed.

Lemma legacy_main_unchecked_structure_witness :
  (2 <= List.length ["script.py"; "discovery.json"])%nat /\
  load_json sample_world (nth 1 ["script.py"; "discovery.json"] "") (initial_state None)
  = (Ok (JDict []), initial_state None) /\
  (lookup "Detail" [] = None ->
   Legacy.main ["script.py"; "discovery.json"] sample_world (initial_state None)
   = (Raise (KeyError "Detail"), initial_state None)).
Proof.
  split; [simpl; lia|]. split; [reflexivity|].
  apply (legacy_main_unchecked_structure ["script.py"; "discovery.json"] sample_world
           (initial_state None) (initial_state None) []); [simpl; lia|reflexivity].
Defined.

(** ** A log file that cannot be opened *)

(** X21.  When the arguments are accepted but the log file cannot be
    opened (the file named by [--logfile], or [Config.LOG_FILE] when the
    option is absent or empty), and no interrupt arrives, [main] prints
    "Error: File operation failed", logs the same at [ERROR] under the level
    and with the console handler [setup_logging] had already set, and exits
    with status 1; the input file is never read. *)
Theorem log_file_failure_exits (w : world) (a : args) (msg : string) (s : state) :
  arguments_accepted w a ->
  open_log w (log_path a) = Some msg ->
  sigint s = None ->
  main w s
  = (Raise (SystemExit 1),
     logged ERROR [Lit "File operation failed: "; StrExn (OSError msg)]
       (printed [Lit "Error: File operation failed: "; StrExn (OSError msg)]
          (console_ready a s))) /\
  (forall sr lr jl,
      main (mkWorld (prog w) (usage w) (argv w) (is_file w) (open_log w) sr
              (re_search w) lr jl) s
      = main w s).
Proof.
  intros A O Q.
  assert (G : forall w', arguments_accepted w' a -> open_log w' (log_path a) = Some msg ->
                main w' s
                = (Raise (SystemExit 1),
                   logged ERROR [Lit "File operation failed: "; StrExn (OSError msg)]
                     (printed [Lit "Error: File operation failed: "; StrExn (OSError msg)]
                        (console_ready a s)))).
  { intros w' A' O'. unfold main, try_except, main_try.
    unfold bind at 1. rewrite (parse_arguments_accepts w' a s A' Q).
    unfold bind at 1. rewrite (setup_logging_quiet w' a s Q), O'.
    cbv beta iota. unfold main_except, bind.
    rewrite print_quiet by (exact Q || reflexivity).
    rewrite log_quiet by exact Q. reflexivity. }
  split; [now apply G|].
  intros sr lr jl. rewrite (G w A O). apply G; [|exact O].
  destruct A as (A1 & A2 & A3). now repeat split.
Qed.

Lemma log_file_failure_exits_witness :
  arguments_accepted
    (mkWorld "network_discovery_parser.py" sample_usage (ArgvNamespace sample_args)
       (fun _ => inl true) (fun _ => Some "Permission denied") (fun _ => ReadText "{}") (fun _ _ => false)
       (fun _ => ReadText "{}") (fun _ => inl (JDict []))) sample_args /\
  log_path sample_args = Config.LOG_FILE /\
  sigint (initial_state None) = None /\
  run (mkWorld "network_discovery_parser.py" sample_usage (ArgvNamespace sample_args)
         (fun _ => inl true) (fun _ => Some "Permission denied") (fun _ => ReadText "{}") (fun _ _ => false)
         (fun _ => ReadText "{}") (fun _ => inl (JDict []))) None
  = (Exited 1,
     [EHandler (StreamStdout INFO);
      EPrint [Lit "Error: File operation failed: "; StrExn (OSError "Permission denied")];
      ELog ERROR [Lit "File operation failed: "; StrExn (OSError "Permission denied")]]).
Proof.
  split; [repeat split; reflexivity|]. split; [reflexivity|]. split; [reflexivity|].
  unfold run.
  rewrite (proj1 (log_file_failure_exits
                    (mkWorld "network_discovery_parser.py" sample_usage
                       (ArgvNamespace sample_args)
                       (fun _ => inl true) (fun _ => Some "Permission denied")
                       (fun _ => ReadText "{}") (fun _ _ => false)
                       (fun _ => ReadText "{}") (fun _ => inl (JDict [])))
                    sample_args "Permission denied" (initial_state None)
                    ltac:(repeat split; reflexivity) eq_refl eq_refl)).
  reflexivity.
Defined.
